(** * Book Wrap 2025: the statistics-and-classification pipeline of [App.tsx]

    A shallow embedding of the CSV normaliser, the year-inclusion filter,
    the statistics block and the aura (persona) classifier of
    [src/App.tsx], of the upload form, the story navigation and the slide
    elements computed from the statistics, followed by the properties
    proved about them.

    Modelling conventions.
    - A JavaScript number that holds a page count, a counter or a month
      is a [Z]: the embedding follows the program as long as these
      integers stay below 2^53 in magnitude.  A number that need not be an
      integer (a rating, the mean of the ratings) is the exact rational
      value of a double, a [Q]; the sum and the quotient that make the
      mean round to the nearest double ([Js.double]), and the literals 3.8
      and 4.2 stand for the doubles they denote.  The value [NaN] is the
      [None] of an [option]; the infinities are not represented.
    - A JavaScript string is a [string] of 8-bit code units.
    - A property read [row['Col']] of a parsed CSV row yields a string or
      [undefined]; [undefined] and [null] are the [None] of an [option].
    - A plain object used as a counter table is the list of its own
      properties in enumeration order (see [JsObject]).  The table of the
      months is only read and written under the keys "0" to "11" and
      "NaN"; the table of the authors is read and written under arbitrary
      keys, so the members it inherits from [Object.prototype] are part
      of its model (see [Js.Object_prototype]). *)

From Stdlib Require Import List ZArith QArith Qround Qabs Qpower.
From Stdlib Require Qcanon.
From Stdlib Require Import Bool Ascii String.
From Stdlib Require Import DecimalString Lia Lqa Permutation Sorted.
Import ListNotations.

Local Open Scope string_scope.
Local Open Scope Z_scope.

(** ** JavaScript primitives used by the program *)

Module Js.

(** White space and line terminators that [trim] and [parseInt] skip
    (code units below 256). *)
Definition is_white_space (c : ascii) : bool :=
  let n := nat_of_ascii c in
  (((9 <=? n) && (n <=? 13)) || (n =? 32) || (n =? 160))%nat.

Fixpoint trim_start (s : string) : string :=
  match s with
  | String c r => if is_white_space c then trim_start r else s
  | EmptyString => EmptyString
  end.

Fixpoint trim_end (s : string) : string :=
  match s with
  | String c r =>
      let r' := trim_end r in
      if is_white_space c && String.eqb r' "" then "" else String c r'
  | EmptyString => EmptyString
  end.

(** [s.trim()] *)
Definition trim (s : string) : string := trim_end (trim_start s).

(** [s.split(sep)[0]] for a one-character separator: the text before the
    first occurrence of [sep], the whole string when there is none. *)
Fixpoint split_head (sep : ascii) (s : string) : string :=
  match s with
  | String c r => if Ascii.eqb c sep then "" else String c (split_head sep r)
  | EmptyString => EmptyString
  end.

(** Value of a digit character, letters counting from ten. *)
Definition digit_value (c : ascii) : option Z :=
  let n := Z.of_nat (nat_of_ascii c) in
  if (48 <=? n) && (n <=? 57) then Some (n - 48)
  else if (97 <=? n) && (n <=? 122) then Some (n - 87)
  else if (65 <=? n) && (n <=? 90) then Some (n - 55)
  else None.

Definition radix_digit (R : Z) (c : ascii) : option Z :=
  match digit_value c with
  | Some d => if d <? R then Some d else None
  | None => None
  end.

(** Reads the longest prefix of radix-[R] digits; [acc] is [None] until a
    first digit has been read. *)
Fixpoint parse_digits (R : Z) (s : string) (acc : option Z) : option Z :=
  match s with
  | String c r =>
      match radix_digit R c with
      | Some d =>
          parse_digits R r
            (Some (match acc with Some a => a * R + d | None => d end))
      | None => acc
      end
  | EmptyString => acc
  end.

(** The sign that [parseInt] reads off the front of the text. *)
Definition strip_sign (s : string) : Z * string :=
  match s with
  | String c r =>
      if Ascii.eqb c "-" then (-1, r)
      else if Ascii.eqb c "+" then (1, r)
      else (1, s)
  | EmptyString => (1, s)
  end.

(** The radix: 16 after a prefix [0x] or [0X], which is removed, else 10. *)
Definition strip_hex (s : string) : Z * string :=
  match s with
  | String c (String x r) =>
      if Ascii.eqb c "0" && (Ascii.eqb x "x" || Ascii.eqb x "X")
      then (16, r) else (10, s)
  | _ => (10, s)
  end.

(** [parseInt(s)] with no radix argument, on a string. [None] is [NaN]. *)
Definition parseInt_string (s : string) : option Z :=
  let '(sign, S1) := strip_sign (trim_start s) in
  let '(R, S2) := strip_hex S1 in
  option_map (Z.mul sign) (parse_digits R S2 None).

(** [parseInt(v)] on a string or [undefined]: [undefined] converts to the
    text "undefined", which has no digit. *)
Definition parseInt (v : option string) : option Z :=
  match v with
  | Some s => parseInt_string s
  | None => None
  end.

(** [x || 0] on a number: [NaN] and zero are falsy. *)
Definition or_zero (x : option Z) : Z :=
  match x with
  | Some n => n
  | None => 0
  end.

Definition or_zeroQ (x : option Q) : Q :=
  match x with
  | Some q => q
  | None => 0%Q
  end.

(** Truthiness of a string or [undefined]: the empty string is falsy. *)
Definition truthy (v : option string) : bool :=
  match v with
  | Some s => negb (String.eqb s "")
  | None => false
  end.

(** Decimal text of an integer, as in a template literal. *)
Definition string_of_Z (n : Z) : string :=
  NilZero.string_of_int (Z.to_int n).

Definition string_of_nat (n : nat) : string :=
  NilZero.string_of_uint (Nat.to_uint n).

(** [Math.round(x)]: the nearest integer, halves going up. *)
Definition Math_round (x : Q) : Z := Qfloor (x + (1 # 2))%Q.

(** *** Doubles

    A finite double is [m * 2^e] for integers [m] and [e] with
    [|m| < 2^53] and [-1074 <= e]; arithmetic on doubles returns the
    double nearest to the exact result, the one with the even [m] when
    two are equally near. *)

(** The integer [k] with [2^k <= a < 2^(k+1)], for a positive [a]. *)
Definition floor_log2 (a : Q) : Z :=
  let k := Z.log2 (Qnum a) - Z.log2 (Zpos (Qden a)) in
  if Qle_bool (2 ^ k) a then k else k - 1.

(** The exponent of the doubles around a positive [a]: it leaves 53 bits
    to [a / 2^e], and stops at -1074 (the subnormal numbers). *)
Definition binade (a : Q) : Z := Z.max (floor_log2 a - 52) (-1074).

(** The integer nearest to [q], the even one of two equally near. *)
Definition round_half_even (q : Q) : Z :=
  let f := Qfloor q in
  match Qcompare (q - inject_Z f) (1 # 2) with
  | Lt => f
  | Gt => f + 1
  | Eq => if Z.even f then f else f + 1
  end.

(** The double nearest to a positive [a]. *)
Definition nearest (a : Q) : Q :=
  (inject_Z (round_half_even (a / 2 ^ binade a)) * 2 ^ binade a)%Q.

(** The double nearest to [q], in lowest terms.  (Past the largest double
    the nearest double is an infinity, which is not represented.) *)
Definition double (q : Q) : Q :=
  if Qeq_bool q 0 then 0%Q
  else Qred (if Qle_bool 0 q then nearest q else - nearest (- q)).

(** [x.toFixed(1)] for the double [x], of a magnitude below 10^21: the
    sign is split off, and the magnitude is printed as [n / 10] with one
    decimal, for the integer [n] that makes [n / 10] nearest to the exact
    value of the double, the larger one of two equally near. *)
Definition toFixed1 (x : Q) : string :=
  let d := double x in
  let neg := negb (Qle_bool 0 d) in
  let n := Qfloor (Qabs d * 10 + (1 # 2))%Q in
  ((if neg then "-" else "") ++ string_of_Z (n / 10) ++ "."
     ++ string_of_Z (n mod 10))%string.

(** *** Plain objects as counter tables

    Own properties are enumerated with the array-index keys first, in
    ascending numeric order, then the other keys in creation order. *)

Definition all_digits (s : string) : option Z :=
  match s with
  | EmptyString => None
  | _ =>
      (fix go (s : string) (acc : Z) : option Z :=
         match s with
         | String c r =>
             match radix_digit 10 c with
             | Some d => go r (acc * 10 + d)
             | None => None
             end
         | EmptyString => Some acc
         end) s 0
  end.

(** A key is an array index when it is the canonical decimal text of an
    integer between 0 and 2^32 - 2. *)
Definition array_index (k : string) : option Z :=
  match all_digits k with
  | Some v =>
      if (v <=? 4294967294) && String.eqb (string_of_Z v) k
      then Some v else None
  | None => None
  end.

Definition JsObject (V : Type) : Type := list (string * V).

Section Object.
Context {V : Type}.

(** [o[k]], [None] when [k] is not an own property. *)
Fixpoint obj_get (o : JsObject V) (k : string) : option V :=
  match o with
  | (k', v) :: o' => if String.eqb k' k then Some v else obj_get o' k
  | [] => None
  end.

(** Overwrites the value of an existing property, keeping its place. *)
Fixpoint obj_update (k : string) (v : V) (o : JsObject V) : JsObject V :=
  match o with
  | (k', v') :: o' =>
      if String.eqb k' k then (k', v) :: o'
      else (k', v') :: obj_update k v o'
  | [] => []
  end.

(** Creates the array-index property [k] (of index [i]): it goes after
    the smaller indices and before everything else. *)
Fixpoint obj_add_index (i : Z) (k : string) (v : V) (o : JsObject V)
  : JsObject V :=
  match o with
  | (k', v') :: o' =>
      match array_index k' with
      | Some j =>
          if j <? i then (k', v') :: obj_add_index i k v o'
          else (k, v) :: o
      | None => (k, v) :: o
      end
  | [] => [(k, v)]
  end.

(** [o[k] = v] *)
Definition obj_set (k : string) (v : V) (o : JsObject V) : JsObject V :=
  match obj_get o k with
  | Some _ => obj_update k v o
  | None =>
      match array_index k with
      | Some i => obj_add_index i k v o
      | None => (o ++ [(k, v)])%list
      end
  end.

(** [Object.entries(o)] *)
Definition Object_entries (o : JsObject V) : list (string * V) := o.
End Object.

(** *** What a plain object inherits

    An object created by [{}] inherits the members of [Object.prototype]:
    eleven functions and the accessor [__proto__].  Reading a key that is
    not an own property finds them; assigning to such a key creates an
    own property, except for [__proto__], whose setter ignores a value
    that is neither an object nor [null]. *)
Definition Object_prototype : list string :=
  ["constructor"; "__defineGetter__"; "__defineSetter__"; "hasOwnProperty";
   "__lookupGetter__"; "__lookupSetter__"; "isPrototypeOf";
   "propertyIsEnumerable"; "toString"; "valueOf"; "__proto__";
   "toLocaleString"].

Definition inherited (k : string) : bool :=
  existsb (String.eqb k) Object_prototype.

(** The text that an inherited member turns into when a number is added
    to it: the source text of the function (as V8 and JavaScriptCore
    print it; every engine starts it with "function"), and
    "[object Object]" for the object that [__proto__] reads. *)
Definition member_text (k : string) : string :=
  if String.eqb k "__proto__" then "[object Object]"
  else ("function " ++ (if String.eqb k "constructor" then "Object" else k)
          ++ "() { [native code] }")%string.

(** What a slot of a counter table can come to hold: a number, or the
    text of an inherited member followed by [ones] characters "1". *)
Inductive JsValue : Type :=
  | VNumber (n : Z)
  | VText (member : string) (ones : nat).

Definition is_number (v : JsValue) : bool :=
  match v with
  | VNumber _ => true
  | VText _ _ => false
  end.

(** The value inside a template literal or as a JSX child. *)
Definition to_string (v : JsValue) : string :=
  match v with
  | VNumber n => string_of_Z n
  | VText k ones =>
      (member_text k ++ Nat.iter ones (fun s => String "1" s) "")%string
  end.

(** [(o[k] || 0) + 1]: an own number is incremented (zero is falsy and
    gives 1 as well); a text is truthy and gets a "1" appended; a key
    that is not an own property reads the inherited member, if there is
    one, which is truthy and turns into its text followed by "1". *)
Definition plus_one (o : JsObject JsValue) (k : string) : JsValue :=
  match obj_get o k with
  | Some (VNumber n) => VNumber (n + 1)
  | Some (VText m ones) => VText m (S ones)
  | None => if inherited k then VText k 1 else VNumber 1
  end.

(** [o[k] = v] for a number or a string [v]. *)
Definition assign (k : string) (v : JsValue) (o : JsObject JsValue)
  : JsObject JsValue :=
  if String.eqb k "__proto__" then o else obj_set k v o.

(** *** Arrays *)

Section Array.
Context {A : Type}.

(** [Array.prototype.sort] is stable; for a consistent comparator the
    result is the stable arrangement in which [cmp x y <= 0] holds for
    neighbours.  It is computed here by insertion from the right. *)
Fixpoint sort_insert (cmp : A -> A -> Q) (x : A) (l : list A) : list A :=
  match l with
  | y :: l' =>
      if Qle_bool (cmp x y) 0 then x :: l else y :: sort_insert cmp x l'
  | [] => [x]
  end.

Definition sort (cmp : A -> A -> Q) (l : list A) : list A :=
  fold_right (sort_insert cmp) [] l.

(** [l.slice(0, n)] *)
Definition slice0 (n : nat) (l : list A) : list A := firstn n l.

(** [l.reduce(f, init)] *)
Definition reduce {B : Type} (f : B -> A -> B) (init : B) (l : list A) : B :=
  fold_left f l init.
End Array.

End Js.

(** ** Data model *)

Inductive Month : Type :=
  | January | February | March | April | May | June
  | July | August | September | October | November | December.

(** Zero-based month number, as [getMonth] returns it. *)
Definition month_index (m : Month) : nat :=
  match m with
  | January => 0 | February => 1 | March => 2 | April => 3
  | May => 4 | June => 5 | July => 6 | August => 7
  | September => 8 | October => 9 | November => 10 | December => 11
  end%nat.

(** A [Date] object: the local calendar fields of a valid date, or the
    invalid date that [new Date] returns for text it cannot read.  An
    invalid date is still an object, hence truthy. *)
Inductive JsDate : Type :=
  | ValidDate (year : Z) (month : Month) (day : nat)
  | InvalidDate.

(** [d.getFullYear()], [None] standing for [NaN]. *)
Definition getFullYear (d : JsDate) : option Z :=
  match d with
  | ValidDate y _ _ => Some y
  | InvalidDate => None
  end.

(** [d.getMonth()], [None] standing for [NaN]. *)
Definition getMonth (d : JsDate) : option nat :=
  match d with
  | ValidDate _ m _ => Some (month_index m)
  | InvalidDate => None
  end.

(** [n === y] for a number that may be [NaN]. *)
Definition num_eqb (n : option Z) (y : Z) : bool :=
  match n with
  | Some v => v =? y
  | None => false
  end.

(** [interface BookData].  The text fields are read from a row of type
    [any], so they can be [undefined] at run time. *)
Record BookData : Type := {
  title : option string;
  author : option string;
  pages : Z;
  rating : Q;
  dateRead : option JsDate;
  dateAdded : option JsDate;
  shelf : option string
}.

Inductive Icon : Type := Library | BookOpen | Sparkles | Star | Layers.

(** [interface Aura] *)
Record Aura : Type := {
  name : string;
  desc : string;
  color1 : string;
  color2 : string;
  icon : Icon;
  tags : list string;
  roast : string
}.

Inductive Source : Type := goodreads | storygraph.

Inductive View : Type := upload | story.

(** A row delivered by the CSV decoder: column name to text. *)
Definition RawRow : Type := string -> option string.

(** The component state that [processCSV] writes and the statistics read. *)
Record AppState : Type := {
  readData : list BookData;
  tbrCount : Z;
  view : View;
  currentSlide : Z;
  username : string
}.

(** [s === t] for a string or [undefined] against a literal. *)
Definition str_eqb (v : option string) (lit : string) : bool :=
  match v with
  | Some s => String.eqb s lit
  | None => false
  end.

(** ** CSV processing *)

Section CsvProcessing.
(** The host's date parser [new Date(text)] and [parseFloat]. *)
Variable newDate : string -> JsDate.
Variable parseFloat : option string -> option Q.

(** [text ? new Date(text) : null] *)
Definition date_or_null (text : option string) : option JsDate :=
  match text with
  | Some s => if Js.truthy text then Some (newDate s) else None
  | None => None
  end.

(** The body of [rows.map] that builds [allBooks]. *)
Definition parseRow (source : Source) (row : RawRow) : BookData :=
  match source with
  | goodreads =>
      let dateReadStr := row "Date Read" in
      let dateAddedStr := row "Date Added" in
      {| title := row "Title";
         author := row "Author";
         pages := Js.or_zero (Js.parseInt (row "Number of Pages"));
         rating := inject_Z (Js.or_zero (Js.parseInt (row "My Rating")));
         dateRead := date_or_null dateReadStr;
         dateAdded := date_or_null dateAddedStr;
         shelf := row "Exclusive Shelf" |}
  | storygraph =>
      {| title := row "Title";
         author := row "Authors";
         pages := Js.or_zero (Js.parseInt (row "Pages"));
         rating := Js.or_zeroQ (parseFloat (row "Star Rating"));
         dateRead := date_or_null (row "Read Date");
         dateAdded := None;
         shelf := if str_eqb (row "Read Status") "read"
                  then Some "read" else Some "to-read" |}
  end.

Definition allBooks (source : Source) (rows : list RawRow) : list BookData :=
  map (parseRow source) rows.
End CsvProcessing.

(** [d && d.getFullYear() === 2025] *)
Definition in2025 (d : option JsDate) : bool :=
  match d with
  | Some x => num_eqb (getFullYear x) 2025
  | None => false
  end.

Definition is_null (d : option JsDate) : bool :=
  match d with
  | Some _ => false
  | None => true
  end.

(** The predicate of the [readIn2025] filter. *)
Definition readFilter (b : BookData) : bool :=
  if negb (str_eqb (shelf b) "read") then false
  else if in2025 (dateRead b) then true
  else if is_null (dateRead b) && in2025 (dateAdded b) then true
  else false.

(** The backfill applied by the [map] after the filter. *)
Definition backfill (b : BookData) : BookData :=
  match dateRead b, dateAdded b with
  | None, Some d =>
      {| title := title b; author := author b; pages := pages b;
         rating := rating b; dateRead := Some d; dateAdded := dateAdded b;
         shelf := shelf b |}
  | _, _ => b
  end.

Definition readIn2025 (books : list BookData) : list BookData :=
  map backfill (filter readFilter books).

Definition addedToTbr2025 (books : list BookData) : list BookData :=
  filter (fun b => str_eqb (shelf b) "to-read" && in2025 (dateAdded b)) books.

(** The [complete] callback of [processCSV]: the state after an upload. *)
Definition processCSV (newDate : string -> JsDate)
    (parseFloat : option string -> option Q)
    (rows : list RawRow) (source : Source) (st : AppState) : AppState :=
  let books := allBooks newDate parseFloat source rows in
  {| readData := readIn2025 books;
     tbrCount := Z.of_nat (List.length (addedToTbr2025 books));
     view := story;
     currentSlide := 0;
     username := username st |}.

(** ** Statistics *)

(** The accumulator type of the [thickestBook] reduction: the three
    fields of its initial value, which every [BookData] also has. *)
Record BookSummary : Type := {
  sum_title : option string;
  sum_pages : Z;
  sum_author : option string
}.

Definition summary (b : BookData) : BookSummary :=
  {| sum_title := title b; sum_pages := pages b; sum_author := author b |}.

(** [{ title: '-', pages: 0, author: '-' }] *)
Definition noBook : BookSummary :=
  {| sum_title := Some "-"; sum_pages := 0; sum_author := Some "-" |}.

Definition Qlt_bool (x y : Q) : bool := negb (Qle_bool y x).

(** The comparator of the [topBooks] sort. *)
Definition compareBooks (a b : BookData) : Q :=
  if negb (Qeq_bool (rating b) (rating a)) then (rating b - rating a)%Q
  else inject_Z (pages b - pages a).

(** Counts compared as the [topAuthors] sort compares them. *)
Definition compareCounts (a b : string * Z) : Q := inject_Z (snd b - snd a).

(** [book.author.split('(')[0].trim()] *)
Definition cleanAuthor (a : string) : string :=
  Js.trim (Js.split_head "("%char a).

(** [o[k] = (o[k] || 0) + 1] *)
Definition increment (k : string) (o : Js.JsObject Z) : Js.JsObject Z :=
  Js.obj_set k (Js.or_zero (Js.obj_get o k) + 1) o.

(** [authorCounts[k] = (authorCounts[k] || 0) + 1], on a table that is
    keyed by arbitrary text. *)
Definition countAuthor (k : string) (o : Js.JsObject Js.JsValue)
  : Js.JsObject Js.JsValue :=
  Js.assign k (Js.plus_one o k) o.

(** The [forEach] that fills [authorCounts]; reading [split] off an
    [undefined] author throws, which is [None]. *)
Fixpoint countAuthors (books : list BookData) (o : Js.JsObject Js.JsValue)
  : option (Js.JsObject Js.JsValue) :=
  match books with
  | book :: rest =>
      match author book with
      | Some a => countAuthors rest (countAuthor (cleanAuthor a) o)
      | None => None
      end
  | [] => Some o
  end.

(** The comparator of the [topAuthors] sort, [b[1] - a[1]]: the
    difference is [NaN], which is [None], when one of the two values is
    a text (a text of the table starts with "function" or "[object" and
    does not read as a number). *)
Definition compareEntries (a b : string * Js.JsValue) : option Q :=
  match snd b, snd a with
  | Js.VNumber y, Js.VNumber x => Some (inject_Z (y - x))
  | _, _ => None
  end.

(** The property key that a month number converts to. *)
Definition month_key (d : JsDate) : string :=
  match getMonth d with
  | Some m => Js.string_of_nat m
  | None => "NaN"
  end.

(** The [forEach] that fills [monthCounts]. *)
Definition countMonths (books : list BookData) : Js.JsObject Z :=
  fold_left
    (fun o book =>
       match dateRead book with
       | Some d => increment (month_key d) o
       | None => o
       end)
    books [].

(** The scan for the largest count: the state is [(maxMonth, maxCount)]. *)
Definition scanStep (acc : option Z * Z) (e : string * Z) : option Z * Z :=
  let '(m, c) := e in
  if snd acc <? c then (Js.parseInt (Some m), c) else acc.

Definition scanMonths (o : Js.JsObject Z) : option Z * Z :=
  fold_left scanStep (Js.Object_entries o) (Some (-1), -1).

Definition monthNames : list string :=
  ["JANUARI"; "FEBRUARI"; "MARET"; "APRIL"; "MEI"; "JUNI"; "JULI";
   "AGUSTUS"; "SEPTEMBER"; "OKTOBER"; "NOVEMBER"; "DESEMBER"].

(** [monthNames[i]] inside a template literal: a missing element prints
    as "undefined". *)
Definition monthName (i : option Z) : string :=
  match i with
  | Some n => if n <? 0 then "undefined"
              else nth (Z.to_nat n) monthNames "undefined"
  | None => "undefined"
  end.

Section Stats.
Variable st : AppState.

Definition totalBooks : Z := Z.of_nat (List.length (readData st)).

Definition totalPages : Z :=
  Js.reduce (fun acc curr => acc + pages curr) 0 (readData st).

Definition avgPages : Z :=
  if 0 <? totalBooks
  then Js.Math_round (inject_Z totalPages / inject_Z totalBooks)%Q
  else 0.

(** The ratings are added and the sum is divided in double arithmetic;
    a rating is read as the double it is. *)
Definition avgRatingVal : Q :=
  if 0 <? totalBooks
  then Js.double
         (Js.reduce
            (fun acc curr => Js.double (acc + Js.double (rating curr)))
            0 (readData st)
          / inject_Z totalBooks)%Q
  else 0%Q.

Definition avgRating : string := Js.toFixed1 avgRatingVal.

Definition thickestBook : BookSummary :=
  Js.reduce
    (fun prev current =>
       if pages current <? sum_pages prev then prev else summary current)
    noBook (readData st).

Definition topBooks : list BookData :=
  Js.slice0 5
    (Js.sort compareBooks
       (filter (fun b => Qlt_bool 0 (rating b)) (readData st))).

Definition authorCounts : option (Js.JsObject Js.JsValue) :=
  countAuthors (readData st) [].

(** The sort takes a [NaN] from its comparator for +0.  A comparator that
    returns [NaN] on the entries it is given is not a consistent one, and
    the order of the result is then left to the engine; with two entries
    or more the answer is then [None], as it is when [authorCounts]
    throws. *)
Definition topAuthors : option (list (string * Js.JsValue)) :=
  match authorCounts with
  | Some o =>
      let entries := Js.Object_entries o in
      if forallb (fun e => Js.is_number (snd e)) entries
         || (List.length entries <=? 1)%nat
      then Some (Js.slice0 5
                   (Js.sort (fun a b => Js.or_zeroQ (compareEntries a b))
                      entries))
      else None
  | None => None
  end.

Definition getMostActiveMonth : string :=
  if Z.of_nat (List.length (readData st)) =? 0 then "-"
  else
    let '(maxMonth, maxCount) := scanMonths (countMonths (readData st)) in
    if num_eqb maxMonth (-1) then "-"
    else (monthName maxMonth ++ " (" ++ Js.string_of_Z maxCount
            ++ " BUKU)")%string.

Definition peakMonth : string := getMostActiveMonth.
End Stats.

(** ** The aura classifier *)

Definition cozyCollector : Aura :=
  {| name := "COZY COLLECTOR";
     desc := "Kamu sering nambah buku bukan karena butuh, tapi karena takut lupa pengen baca. TBR kamu isinya mimpi-mimpi kecil: “abis ini”, “kalau lagi tenang”, “pas mood-nya dapet”. Setiap buku tuh janji manis ke diri sendiri—dan kamu tulus banget waktu bikin janjinya. Soal kapan ditepati… ya itu urusan nanti.";
     color1 := "#A3E635"; color2 := "#FBBF24"; icon := Library;
     tags := ["#TsundokuLife"; "#BeliDulu"; "#NantiAjaBacanya"];
     roast := "DENDA PENIMBUNAN (Buku numpuk tapi cuma jadi pajangan)" |}.

Definition deepDiver : Aura :=
  {| name := "DEEP DIVER";
     desc := "Kamu bukan tipe yang asal nambah buku biar rak terlihat penuh. Setiap buku yang kamu pilih itu berat, tebal, dan butuh komitmen. Membaca bagimu bukan sekadar hiburan, tapi perjalanan panjang—kadang bikin melek semalaman, kadang bikin nangis di kereta. Jumlah buku sedikit? Gapapa. Kualitas pengalamanmu jauh lebih dalam daripada sekadar angka.";
     color1 := "#1E3A8A"; color2 := "#000000"; icon := BookOpen;
     tags := ["#HilangDariPeradaban"; "#CommitmentIssuesSolved";
              "#NoSkimmingZone"];
     roast := "BIAYA SEWA GUA (Kelamaan menghilang dari realita)" |}.

Definition speedySkeptic : Aura :=
  {| name := "SPEEDY SKEPTIC";
     desc := "Kamu tipe pembaca yang doyan banyak buku, tapi nggak gampang terkesan. Buku cepat habis, tapi hati-hati banget kasih nilai—tidak semua cerita langsung “klik”. Setiap buku yang selesai dibaca adalah pengalaman, bukan kemenangan. Rakmu penuh, tapi ratingmu realistis: kamu bukan orang yang kasih jempol cuma karena buku itu populer. Kamu pembaca yang jujur, kritis, dan always on the move.";
     color1 := "#3B82F6"; color2 := "#EF4444"; icon := Sparkles;
     tags := ["#SpeedRead"; "#PlotArmorDetective"; "#KritikusHandal"];
     roast := "PENALTI SPEEDRUN (Baca cepat tapi tetap kritis)" |}.

Definition thoroughEnjoyer : Aura :=
  {| name := "THOROUGH ENJOYER";
     desc := "Kamu bukan tipe pembaca yang asal lari dari satu buku ke buku lain. Kamu membaca dengan serius, menikmati tiap halaman, dan selalu menemukan sesuatu yang berharga. Buku tebal bukan halangan—justru itu tantangan yang kamu nikmati. Rating tinggi bukan karena mudah terkesan, tapi karena kamu sungguh-sungguh menghargai kualitas cerita. Membaca bagimu itu bukan sekadar kebiasaan, tapi pengalaman mendalam yang bikin setiap buku terasa berarti.";
     color1 := "#7E22CE"; color2 := "#EC4899"; icon := BookOpen;
     tags := ["#DepthOverSpeed"; "#SavorEveryPage"; "#InTooDeep"];
     roast := "DENDA GOODVIBES (Baca 350+ halaman tapi rating tetap 4+, mana bisa dipercaya?)" |}.

Definition softEnthusiast : Aura :=
  {| name := "SOFT ENTHUSIAST";
     desc := "Kamu tipe pembaca yang gampang jatuh cinta sama cerita. Selalu nemu something to appreciate di tiap buku—entah satu kalimat, satu karakter, atau satu perasaan yang nyantol. Bukan karena bukunya selalu sempurna, tapi karena kamu baca pakai hati, bukan kalkulator. Rating >4 itu bukan lebay, itu tanda kamu menikmati proses, bukan cuma hasil.";
     color1 := "#FACC15"; color2 := "#FB923C"; icon := Star;
     tags := ["#SoftHeartReader"; "#ComfortRead"; "#EasilyAttached"];
     roast := "BIAYA KEPUASAN (Gampang jatuh cinta sama buku)" |}.

Definition balancedRealist : Aura :=
  {| name := "BALANCED REALIST";
     desc := "Objektif dan membumi. Nggak gampang kemakan hype, penilaianmu selalu adil. Teman curhat buku terbaik.";
     color1 := "#60A5FA"; color2 := "#94A3B8"; icon := Layers;
     tags := ["#FairReader"; "#StayObjective"; "#NoOverrate"];
     roast := "BIAYA ADMIN (Hidup terlalu straight, tapi ya aman)" |}.

(** The five guards of [getAura], in source order, over the values they
    read: [tbrCount], [totalBooks], [avgPages] and [avgRatingVal].  The
    literals [3.8] and [4.2] are the doubles nearest to 38/10 and 42/10;
    [4.0] is a double as it stands. *)
Section Guards.
Variables (tbr total avgP : Z) (avgR : Q).

Definition guard1 : bool := (total * 2 <? tbr) && (5 <? tbr).
Definition guard2 : bool := (total <? 15) && (450 <? avgP).
Definition guard3 : bool :=
  (20 <? total) && (avgP <? 300) && Qlt_bool avgR (Js.double (38 # 10)).
Definition guard4 : bool := Qle_bool 4 avgR && (350 <? avgP).
Definition guard5 : bool := Qle_bool (Js.double (42 # 10)) avgR.

Definition classify : Aura :=
  if guard1 then cozyCollector
  else if guard2 then deepDiver
  else if guard3 then speedySkeptic
  else if guard4 then thoroughEnjoyer
  else if guard5 then softEnthusiast
  else balancedRealist.
End Guards.

Definition getAura (st : AppState) : Aura :=
  classify (tbrCount st) (totalBooks st) (avgPages st) (avgRatingVal st).

(** ** Notions used to state the properties *)

(** A state holding the given read list and backlog count. *)
Definition state_of (books : list BookData) (tbr : Z) : AppState :=
  {| readData := books; tbrCount := tbr; view := story; currentSlide := 0;
     username := "" |}.

(** The record [b] with its [dateRead] replaced by [d]. *)
Definition with_dateRead (d : JsDate) (b : BookData) : BookData :=
  {| title := title b; author := author b; pages := pages b;
     rating := rating b; dateRead := Some d; dateAdded := dateAdded b;
     shelf := shelf b |}.

(** The step of the [thickestBook] reduction. *)
Definition thicker (prev : BookSummary) (current : BookData) : BookSummary :=
  if pages current <? sum_pages prev then prev else summary current.

(** The date is present, valid and falls in 2025. *)
Definition dated2025 (d : option JsDate) : Prop :=
  exists m day, d = Some (ValidDate 2025 m day).

(** The backlog rule: shelf to-read and [dateAdded] in 2025. *)
Definition is_backlog (b : BookData) : Prop :=
  shelf b = Some "to-read" /\ dated2025 (dateAdded b).

(** The record was read in month [m]. *)
Definition readInMonth (m : Month) (b : BookData) : bool :=
  match dateRead b with
  | Some (ValidDate _ m' _) => (month_index m =? month_index m')%nat
  | _ => false
  end.

(** Number of records read in month [m]. *)
Definition monthCount (m : Month) (books : list BookData) : Z :=
  Z.of_nat (List.length (filter (readInMonth m) books)).

(** The counter table after counting a sequence of keys, one by one. *)
Definition tally (ks : list string) (o : Js.JsObject Z) : Js.JsObject Z :=
  fold_left (fun o k => increment k o) ks o.

(** The month keys that [countMonths] counts, in list order. *)
Definition monthKeys (books : list BookData) : list string :=
  flat_map
    (fun b => match dateRead b with
              | Some d => [month_key d]
              | None => []
              end)
    books.

(** The property key of a month. *)
Definition monthKey (m : Month) : string := Js.string_of_nat (month_index m).

(** Number of occurrences of a key in a sequence of keys. *)
Definition occurrences (k : string) (ks : list string) : Z :=
  Z.of_nat (count_occ string_dec ks k).

(** The distinct keys of a sequence, each at its first appearance. *)
Fixpoint first_occurrences (ks : list string) : list string :=
  match ks with
  | k :: r => k :: filter (fun x => negb (String.eqb x k)) (first_occurrences r)
  | [] => []
  end.

Definition is_index (k : string) : bool :=
  match Js.array_index k with
  | Some _ => true
  | None => false
  end.

(** Strict order of two array-index keys by their numeric value. *)
Definition index_lt (k1 k2 : string) : Prop :=
  exists i j, Js.array_index k1 = Some i /\ Js.array_index k2 = Some j /\ i < j.

(** The keys of a sequence that are not array indices. *)
Definition nameKeys (ks : list string) : list string :=
  filter (fun k => negb (is_index k)) ks.

(** What a counter table holds after counting the keys [ks]: under each
    key its number of occurrences, no key twice, and the keys enumerated
    as the array indices in ascending order followed by the other keys in
    order of first appearance. *)
Definition counted (ks : list string) (o : Js.JsObject Z) : Prop :=
  (forall k,
     Js.obj_get o k
     = if 0 <? occurrences k ks then Some (occurrences k ks) else None) /\
  NoDup (map fst o) /\
  exists ki,
    map fst o = (ki ++ first_occurrences (nameKeys ks))%list /\
    Forall (fun k => is_index k = true) ki /\
    StronglySorted index_lt ki.

(** [a] may stand before [b] in the book ranking: higher rating first,
    then more pages. *)
Definition ranksBefore (a b : BookData) : Prop :=
  (rating b < rating a)%Q \/ ((rating a == rating b)%Q /\ pages b <= pages a).

(** The field that holds the page count in each export. *)
Definition pagesColumn (source : Source) : string :=
  match source with
  | goodreads => "Number of Pages"
  | storygraph => "Pages"
  end.

Definition is_decimal_digit (c : ascii) : bool :=
  let n := nat_of_ascii c in ((48 <=? n) && (n <=? 57))%nat.

(** The text carries a minus sign in front of its number. *)
Definition has_minus (s : string) : bool :=
  match Js.trim_start s with
  | String c _ => Ascii.eqb c "-"
  | EmptyString => false
  end.

(** The text does not start with a number: after leading white space and
    an optional sign, the first character is not a decimal digit. *)
Definition non_numeric (s : string) : bool :=
  match snd (Js.strip_sign (Js.trim_start s)) with
  | String c _ => negb (is_decimal_digit c)
  | EmptyString => true
  end.

(** The author ranking as the specification words it: one entry per
    cleaned name in order of first appearance, with its number of
    occurrences, ranked by a stable sort on the count, five kept. *)
Definition spec_topAuthors (names : list string) : list (string * Z) :=
  let keys := map cleanAuthor names in
  firstn 5
    (Js.sort compareCounts
       (map (fun k => (k, occurrences k keys)) (first_occurrences keys))).

(** *** Sample inputs *)

Definition sampleBook (t a : string) (p : Z) (r : Q)
    (read added : option JsDate) (s : string) : BookData :=
  {| title := Some t; author := Some a; pages := p; rating := r;
     dateRead := read; dateAdded := added; shelf := Some s |}.

(** A row given by its cells. *)
Definition row_of (cells : list (string * string)) : RawRow :=
  fun col => Js.obj_get cells col.

(** A date parser for the samples: it reads nothing. *)
Definition noDate : string -> JsDate := fun _ => InvalidDate.

(** A number parser for the samples: it reads nothing. *)
Definition noFloat : option string -> option Q := fun _ => None.

(** One long, well-rated book. *)
Definition oneLongBook : AppState :=
  state_of [sampleBook "Long" "Someone" 500 5 None None "read"] 0.

(** Two books of the same, largest length. *)
Definition firstThick : BookData :=
  sampleBook "First" "Ann" 300 4 None None "read".

Definition secondThick : BookData :=
  sampleBook "Second" "Ben" 300 3 None None "read".

(** A Goodreads row whose page count is written with a minus sign. *)
Definition negativePagesRow : RawRow :=
  row_of [("Title", "T"); ("Author", "A"); ("Number of Pages", "-12");
          ("Exclusive Shelf", "read")].

(** Two authors read once each, the second one called by a number. *)
Definition numberedAuthor : AppState :=
  state_of [sampleBook "One" "Bob" 100 0 None None "read";
            sampleBook "Two" "7" 100 0 None None "read"] 0.

(** Two spellings of one author, as Goodreads exports them. *)
Definition nguyenTwice : AppState :=
  state_of [sampleBook "One" "A. Nguyen (Goodreads Author)" 100 0 None None
              "read";
            sampleBook "Two" "A. Nguyen" 100 0 None None "read"] 0.

(** A finished book with no read date, added on 10 March 2025. *)
Definition addedInMarch : BookData :=
  sampleBook "Undated" "Cy" 200 4 None (Some (ValidDate 2025 March 10)) "read".

(** A date parser for the samples that reads one date. *)
Definition marchDate : string -> JsDate :=
  fun s => if String.eqb s "2025/03/10" then ValidDate 2025 March 10
           else InvalidDate.

(** A StoryGraph row of a book finished on 10 March 2025. *)
Definition storygraphRow : RawRow :=
  row_of [("Title", "T"); ("Authors", "A"); ("Pages", "321");
          ("Star Rating", "4.5"); ("Read Date", "2025/03/10");
          ("Read Status", "read")].

(** ** The upload form, the story navigation and the slides *)

(** The state of a freshly mounted component. *)
Definition initialState : AppState :=
  {| readData := []; tbrCount := 0; view := upload; currentSlide := 0;
     username := "" |}.

(** [setCurrentSlide(n)] *)
Definition setCurrentSlide (n : Z) (st : AppState) : AppState :=
  {| readData := readData st; tbrCount := tbrCount st; view := view st;
     currentSlide := n; username := username st |}.

(** [setUsername(s)], the [onChange] of the name field. *)
Definition setUsername (s : string) (st : AppState) : AppState :=
  {| readData := readData st; tbrCount := tbrCount st; view := view st;
     currentSlide := currentSlide st; username := s |}.

(** [slides.length]: intro, volume, aura, thickest, top books, top
    authors, summary. *)
Definition slidesLength : Z := 7.

Definition nextSlide (st : AppState) : AppState :=
  if currentSlide st <? slidesLength - 1
  then setCurrentSlide (currentSlide st + 1) st else st.

Definition prevSlide (st : AppState) : AppState :=
  if 0 <? currentSlide st
  then setCurrentSlide (currentSlide st - 1) st else st.

(** The [keydown] listener, on [e.key]. *)
Definition handleKeyDown (key : string) (st : AppState) : AppState :=
  let st1 := if String.eqb key "ArrowRight" then nextSlide st else st in
  if String.eqb key "ArrowLeft" then prevSlide st1 else st1.

(** The close button of the story: [setView('upload'); setReadData([])]. *)
Definition closeStory (st : AppState) : AppState :=
  {| readData := []; tbrCount := tbrCount st; view := upload;
     currentSlide := currentSlide st; username := username st |}.


(** A mounted component: its state, and the files that were handed to
    the CSV decoder and whose [complete] callback has not run yet (the
    decoder reads a file asynchronously). *)
Record Session : Type := {
  appState : AppState;
  decoding : list (list RawRow)
}.

(** What can happen to a mounted component.  The name field and the
    Goodreads file field are rendered in the upload view only, the tap
    zones and the close button in the story view only; the key listener
    is always installed.  [FileDecoded i] is the decoder finishing the
    [i]-th of the files it is working on. *)
Inductive Event : Type :=
  | TypeName (s : string)
  | ChooseFile (files : option (list RawRow))
  | FileDecoded (i : nat)
  | KeyDown (key : string)
  | TapLeft
  | TapRight
  | TapClose.

(** The list without its [i]-th element. *)
Definition without {A : Type} (i : nat) (l : list A) : list A :=
  (firstn i l ++ skipn (S i) l)%list.

Section Interaction.
Variable newDate : string -> JsDate.
Variable parseFloat : option string -> option Q.

(** Choosing a file runs [handleFileUpload] up to the call of the
    decoder: the name is tested at once, the [complete] callback
    ([processCSV]) runs when the file is decoded, on the state of that
    moment. *)
Definition step (s : Session) (e : Event) : Session :=
  let st := appState s in
  let stay (st' : AppState) :=
    {| appState := st'; decoding := decoding s |} in
  match e, view st with
  | TypeName name, upload => stay (setUsername name st)
  | ChooseFile files, upload =>
      if negb (Js.truthy (Some (Js.trim (username st)))) then s
      else
        match files with
        | Some rows =>
            {| appState := st; decoding := (decoding s ++ [rows])%list |}
        | None => s
        end
  | FileDecoded i, _ =>
      match nth_error (decoding s) i with
      | Some rows =>
          {| appState := processCSV newDate parseFloat rows goodreads st;
             decoding := without i (decoding s) |}
      | None => s
      end
  | KeyDown key, _ => stay (handleKeyDown key st)
  | TapLeft, story => stay (prevSlide st)
  | TapRight, story => stay (nextSlide st)
  | TapClose, story => stay (closeStory st)
  | _, _ => s
  end.

(** The state after a sequence of events on a component that is decoding
    no file to begin with. *)
Definition run (events : list Event) (st : AppState) : AppState :=
  appState (fold_left step events {| appState := st; decoding := [] |}).
End Interaction.

(** [StoryProgress]: one bar per slide, filled ("100%") when
    [idx <= current]. *)
Definition StoryProgress (total : nat) (current : Z) : list bool :=
  map (fun idx => Z.of_nat idx <=? current) (seq 0 total).

(** The greeting of the intro slide: [username || 'Bookworm']. *)
Definition greetingName (st : AppState) : string :=
  if Js.truthy (Some (username st)) then username st else "Bookworm".

(** The backlog card of the volume slide: the HOARDING ALERT ribbon, the
    warning sign and the caption. *)
Definition hoardingAlert (st : AppState) : bool :=
  totalBooks st * 2 <? tbrCount st.

Definition tbrWarning (st : AppState) : bool :=
  totalBooks st <? tbrCount st.

Definition tbrCaption (st : AppState) : string :=
  if tbrCount st =? 0 then "Anti wacana club ✨"
  else if tbrCount st <? totalBooks st then "Tumben produktif 💅"
  else if tbrCount st =? totalBooks st then "Balance banget hidup lo ⚖️"
  else if totalBooks st * 2 <? tbrCount st then "Hobi checkout doang? 😭"
  else "Numpuk terooos 📉".

(** The stars of a top book: [Array.from({length: book.rating})] has
    the rating truncated to an integer as its length, 0 below 1; a
    length of 2^32 or more is not an array length and throws a
    [RangeError], which is [None]. *)
Definition stars (b : BookData) : option nat :=
  let len := Z.max 0 (Qfloor (rating b)) in
  if len <? 2 ^ 32 then Some (Z.to_nat len) else None.

(** The summary slide's top author:
    [topAuthors.length > 0 ? topAuthors[0][0] : "-"]. *)
Definition topObsession (st : AppState) : option string :=
  match topAuthors st with
  | Some ((a, _) :: _) => Some a
  | Some [] => Some "-"
  | None => None
  end.

(** *** Further notions used to state the properties *)

(** The text consists of white space only. *)
Fixpoint blank (s : string) : bool :=
  match s with
  | String c r => Js.is_white_space c && blank r
  | EmptyString => true
  end.

(** The character occurs in the text. *)
Fixpoint occurs (c : ascii) (s : string) : bool :=
  match s with
  | String x r => Ascii.eqb x c || occurs c r
  | EmptyString => false
  end.

(** First character of a text. *)
Definition first_char (s : string) : option ascii :=
  match s with
  | String c _ => Some c
  | EmptyString => None
  end.

(** Sum of the counts of a table. *)
Definition total_count (o : Js.JsObject Z) : Z :=
  fold_right (fun e acc => snd e + acc) 0 o.

(** The exact sum of the ratings. *)
Definition exactSum (books : list BookData) : Q :=
  fold_left (fun acc b => (acc + rating b)%Q) books 0%Q.

(** Three books rated 0.1. *)
Definition threeTenths : AppState :=
  state_of [sampleBook "One" "Ann" 100 (1 # 10) None None "read";
            sampleBook "Two" "Ben" 100 (1 # 10) None None "read";
            sampleBook "Three" "Cy" 100 (1 # 10) None None "read"] 0.

(** Counts as the values of a table. *)
Definition numbers (es : list (string * Z)) : list (string * Js.JsValue) :=
  map (fun e => (fst e, Js.VNumber (snd e))) es.

(** Three books, the second by an author called "constructor". *)
Definition constructorAuthor : AppState :=
  state_of [sampleBook "One" "Bob" 100 0 None None "read";
            sampleBook "Two" "constructor" 100 0 None None "read";
            sampleBook "Three" "Bob" 100 0 None None "read"] 0.

(** Three books, the first two by an author called "__proto__". *)
Definition protoAuthor : AppState :=
  state_of [sampleBook "One" "__proto__" 100 0 None None "read";
            sampleBook "Two" "__proto__" 100 0 None None "read";
            sampleBook "Three" "Bob" 100 0 None None "read"] 0.

(** Seven books rated 5 and thirteen rated 4. *)
Definition twentyRatings : AppState :=
  state_of (repeat (sampleBook "Five" "Ann" 100 5 None None "read") 7
            ++ repeat (sampleBook "Four" "Ben" 100 4 None None "read") 13)
    0.

(** All the months. *)
Definition allMonths : list Month :=
  [January; February; March; April; May; June; July; August; September;
   October; November; December].

(** Last character of a text. *)
Fixpoint last_char (s : string) : option ascii :=
  match s with
  | EmptyString => None
  | String c EmptyString => Some c
  | String _ r => last_char r
  end.

(** The largest page count of a list, not below [floor]. *)
Definition max_pages (floor : Z) (books : list BookData) : Z :=
  fold_left (fun m b => Z.max m (pages b)) books floor.

(** Two records agree on everything but the read date. *)
Definition same_but_dateRead (a b : BookData) : Prop :=
  title a = title b /\ author a = author b /\ pages a = pages b /\
  rating a = rating b /\ dateAdded a = dateAdded b /\ shelf a = shelf b.

(** A Goodreads row of a finished book with an empty read date, added on
    10 March 2025. *)
Definition undatedRow : RawRow :=
  row_of [("Title", "U"); ("Author", "Cy"); ("Number of Pages", "200");
          ("My Rating", "4"); ("Date Read", ""); ("Date Added", "2025/03/10");
          ("Exclusive Shelf", "read")].

(** The same book with an unreadable read date. *)
Definition garbledRow : RawRow :=
  row_of [("Title", "U"); ("Author", "Cy"); ("Number of Pages", "200");
          ("My Rating", "4"); ("Date Read", "someday");
          ("Date Added", "2025/03/10"); ("Exclusive Shelf", "read")].

(** * Properties *)

(** ** Comparisons on rationals *)

Lemma Qlt_bool_iff (x y : Q) : Qlt_bool x y = true <-> (x < y)%Q.
Proof.
  unfold Qlt_bool. rewrite negb_true_iff.
  split; intro H.
  - apply Qnot_le_lt. intro Hle. apply Qle_bool_iff in Hle. congruence.
  - destruct (Qle_bool y x) eqn:E; [|reflexivity].
    apply Qle_bool_iff in E. exfalso. exact (Qlt_not_le _ _ H E).
Qed.

(** ** The guards of the classifier, read as arithmetic *)

Section GuardFacts.
Variables (tbr total avgP : Z) (avgR : Q).

Lemma guard1_iff :
  guard1 tbr total = true <-> total * 2 < tbr /\ 5 < tbr.
Proof. unfold guard1. rewrite andb_true_iff, !Z.ltb_lt. tauto. Qed.

Lemma guard2_iff :
  guard2 total avgP = true <-> total < 15 /\ 450 < avgP.
Proof. unfold guard2. rewrite andb_true_iff, !Z.ltb_lt. tauto. Qed.

Lemma guard3_iff :
  guard3 total avgP avgR = true
  <-> 20 < total /\ avgP < 300 /\ (avgR < Js.double (38 # 10))%Q.
Proof.
  unfold guard3. rewrite !andb_true_iff, !Z.ltb_lt, Qlt_bool_iff. tauto.
Qed.

Lemma guard4_iff :
  guard4 avgP avgR = true <-> (4 <= avgR)%Q /\ 350 < avgP.
Proof. unfold guard4. rewrite andb_true_iff, Z.ltb_lt, Qle_bool_iff. tauto. Qed.

Lemma guard5_iff :
  guard5 avgR = true <-> (Js.double (42 # 10) <= avgR)%Q.
Proof. unfold guard5. apply Qle_bool_iff. Qed.

(** A vector that passes the fourth guard cannot pass the third. *)
Lemma guard4_excludes_guard3 :
  guard4 avgP avgR = true -> guard3 total avgP avgR = false.
Proof.
  intros H4. apply guard4_iff in H4. destruct H4 as [Hr _].
  destruct (guard3 total avgP avgR) eqn:E; [|reflexivity].
  apply guard3_iff in E. destruct E as (_ & _ & Hlt).
  exfalso. apply (Qlt_not_le _ _ Hlt).
  apply Qle_trans with (y := 4%Q); [|exact Hr].
  apply Qle_bool_iff. vm_compute. reflexivity.
Qed.
End GuardFacts.

(** C2 (amended). The classifier returns the descriptor of the first guard
    that holds, in the order backlog dominance, deep and sparse, fast and
    sceptical, thorough, enthusiastic, and the fallback BALANCED REALIST when
    none holds.  A vector that passes both the fourth and the fifth guard
    is classified THOROUGH ENJOYER provided neither the first nor the
    second guard holds for it.  (The guards compare the average rating
    with the doubles that 3.8 and 4.2 denote; the last case is stated for
    the decimal 4.2 as well.) *)
Theorem classify_first_match (tbr total avgP : Z) (avgR : Q) :
  let P1 := total * 2 < tbr /\ 5 < tbr in
  let P2 := total < 15 /\ 450 < avgP in
  let P3 := 20 < total /\ avgP < 300 /\ (avgR < Js.double (38 # 10))%Q in
  let P4 := (4 <= avgR)%Q /\ 350 < avgP in
  let P5 := (Js.double (42 # 10) <= avgR)%Q in
  let r := classify tbr total avgP avgR in
  (P1 -> r = cozyCollector) /\
  (~ P1 -> P2 -> r = deepDiver) /\
  (~ P1 -> ~ P2 -> P3 -> r = speedySkeptic) /\
  (~ P1 -> ~ P2 -> ~ P3 -> P4 -> r = thoroughEnjoyer) /\
  (~ P1 -> ~ P2 -> ~ P3 -> ~ P4 -> P5 -> r = softEnthusiast) /\
  (~ P1 -> ~ P2 -> ~ P3 -> ~ P4 -> ~ P5 -> r = balancedRealist) /\
  (P4 -> P5 -> ~ P1 -> ~ P2 ->
   r = thoroughEnjoyer /\ name r = "THOROUGH ENJOYER") /\
  (P4 -> (42 # 10 <= avgR)%Q -> ~ P1 -> ~ P2 ->
   r = thoroughEnjoyer /\ name r = "THOROUGH ENJOYER").
Proof.
  intros P1 P2 P3 P4 P5 r. subst r. unfold classify.
  pose proof (guard1_iff tbr total) as G1.
  pose proof (guard2_iff total avgP) as G2.
  pose proof (guard3_iff total avgP avgR) as G3.
  pose proof (guard4_iff avgP avgR) as G4.
  pose proof (guard5_iff avgR) as G5.
  pose proof (guard4_excludes_guard3 total avgP avgR) as G43.
  fold P1 in G1. fold P2 in G2. fold P3 in G3. fold P4 in G4. fold P5 in G5.
  clearbody P1 P2 P3 P4 P5.
  destruct (guard1 tbr total), (guard2 total avgP),
    (guard3 total avgP avgR), (guard4 avgP avgR), (guard5 avgR);
    repeat split; intros; try reflexivity;
    solve [ exfalso; intuition congruence ].
Qed.

Lemma classify_first_match_witness :
  classify 0 20 400 (9 # 2) = thoroughEnjoyer
  /\ name (classify 0 20 400 (9 # 2)) = "THOROUGH ENJOYER".
Proof.
  destruct (classify_first_match 0 20 400 (9 # 2))
    as (_ & _ & _ & _ & _ & _ & H & _).
  apply H.
  - split; [discriminate | lia].
  - apply Qle_bool_iff. vm_compute. reflexivity.
  - lia.
  - lia.
Defined.

(** C7. With no input rows the read list is empty and the backlog count
    is zero, and every statistic takes its degenerate value: zero books,
    zero average pages, an average rating printed "0.0", the placeholder
    thickest book with 0 pages, no top books, no top authors, and the
    fallback aura BALANCED REALIST. *)
Theorem empty_input_degenerates
    (newDate : string -> JsDate) (parseFloat : option string -> option Q)
    (source : Source) (st0 : AppState) :
  let st := processCSV newDate parseFloat [] source st0 in
  readData st = [] /\ tbrCount st = 0 /\
  totalBooks st = 0 /\ avgPages st = 0 /\ avgRating st = "0.0" /\
  thickestBook st = noBook /\ sum_pages (thickestBook st) = 0 /\
  topBooks st = [] /\ topAuthors st = Some [] /\
  getAura st = balancedRealist /\ name (getAura st) = "BALANCED REALIST".
Proof.
  destruct source; cbv -[balancedRealist noBook]; repeat split; reflexivity.
Qed.

(** C2 (as stated, refuted). One finished book of 500 pages rated 5 has an
    average rating of at least 4.2 and more than 350 average pages, so it
    passes the fourth and the fifth guard, yet it is classified DEEP DIVER
    and not THOROUGH ENJOYER. *)
Lemma both_guards_not_thorough :
  (4 <= avgRatingVal oneLongBook)%Q /\ 350 < avgPages oneLongBook /\
  (42 # 10 <= avgRatingVal oneLongBook)%Q /\
  getAura oneLongBook = deepDiver /\
  getAura oneLongBook <> thoroughEnjoyer.
Proof.
  assert (Havg : avgRatingVal oneLongBook = 5%Q) by (vm_compute; reflexivity).
  assert (Haura : getAura oneLongBook = deepDiver)
    by (vm_compute; reflexivity).
  rewrite Havg, Haura. repeat split; try discriminate; reflexivity.
Qed.

(** ** The year-inclusion filter *)

Lemma str_eqb_iff (v : option string) (lit : string) :
  str_eqb v lit = true <-> v = Some lit.
Proof.
  destruct v as [s|]; simpl.
  - rewrite String.eqb_eq. split; congruence.
  - split; discriminate.
Qed.

Lemma in2025_iff (d : option JsDate) : in2025 d = true <-> dated2025 d.
Proof.
  unfold dated2025. destruct d as [[y m day|]|]; simpl.
  - rewrite Z.eqb_eq. split.
    + intros ->. now exists m, day.
    + intros (m' & day' & E). now inversion E.
  - split; [discriminate | intros (? & ? & E); discriminate].
  - split; [discriminate | intros (? & ? & E); discriminate].
Qed.

Lemma backlog_test_iff (b : BookData) :
  str_eqb (shelf b) "to-read" && in2025 (dateAdded b) = true <-> is_backlog b.
Proof.
  unfold is_backlog. now rewrite andb_true_iff, str_eqb_iff, in2025_iff.
Qed.

Lemma backlog_test_false (b : BookData) :
  ~ is_backlog b ->
  str_eqb (shelf b) "to-read" && in2025 (dateAdded b) = false.
Proof.
  intros H. apply not_true_is_false. now rewrite backlog_test_iff.
Qed.

(** C6. The backlog count is the number of records with shelf to-read
    whose [dateAdded] is present and in 2025: a record that meets the rule
    adds one, any other record adds nothing, whatever its [dateRead]; in
    particular a record on another shelf (read, currently-reading) or with
    no [dateAdded] is never counted. *)
Theorem backlog_counts_to_read_added_2025
    (newDate : string -> JsDate) (parseFloat : option string -> option Q)
    (source : Source) (st0 : AppState) :
  let count rows := tbrCount (processCSV newDate parseFloat rows source st0) in
  let books := allBooks newDate parseFloat source in
  count [] = 0 /\
  (forall rows b,
     In b (addedToTbr2025 (books rows)) <-> In b (books rows) /\ is_backlog b) /\
  (forall row rows,
     let b := parseRow newDate parseFloat source row in
     (is_backlog b -> count (row :: rows) = count rows + 1) /\
     (~ is_backlog b -> count (row :: rows) = count rows) /\
     (shelf b <> Some "to-read" -> count (row :: rows) = count rows) /\
     (dateAdded b = None -> count (row :: rows) = count rows)) /\
  (forall d rows,
     Z.of_nat (List.length (addedToTbr2025 (map (with_dateRead d) (books rows))))
     = count rows).
Proof.
  intros count books. subst count books. unfold processCSV; cbn [tbrCount].
  split; [reflexivity|]. split; [|split].
  - intros rows b. unfold addedToTbr2025. rewrite filter_In.
    now rewrite backlog_test_iff.
  - intros row rows. cbv zeta.
    change (allBooks newDate parseFloat source (row :: rows))
      with (parseRow newDate parseFloat source row
              :: allBooks newDate parseFloat source rows).
    set (b := parseRow newDate parseFloat source row).
    assert (Hyes : is_backlog b ->
      Z.of_nat (List.length (addedToTbr2025 (b :: allBooks newDate parseFloat source rows)))
      = Z.of_nat (List.length (addedToTbr2025 (allBooks newDate parseFloat source rows))) + 1).
    { intros H. apply backlog_test_iff in H. unfold addedToTbr2025. simpl.
      rewrite H. simpl List.length. lia. }
    assert (Hno : ~ is_backlog b ->
      Z.of_nat (List.length (addedToTbr2025 (b :: allBooks newDate parseFloat source rows)))
      = Z.of_nat (List.length (addedToTbr2025 (allBooks newDate parseFloat source rows)))).
    { intros H. apply backlog_test_false in H. unfold addedToTbr2025. simpl.
      now rewrite H. }
    repeat split.
    + exact Hyes.
    + exact Hno.
    + intros H. apply Hno. intros [Hs _]. contradiction.
    + intros H. apply Hno. intros [_ (m & day & Hd)]. congruence.
  - intros d rows. f_equal. unfold addedToTbr2025.
    induction (allBooks newDate parseFloat source rows) as [|b l IH]; simpl.
    + reflexivity.
    + destruct (str_eqb (shelf b) "to-read" && in2025 (dateAdded b)); simpl;
        now rewrite IH.
Qed.

Lemma backlog_counts_witness :
  tbrCount
    (processCSV noDate noFloat [negativePagesRow] goodreads oneLongBook)
  = tbrCount (processCSV noDate noFloat [] goodreads oneLongBook).
Proof.
  destruct (backlog_counts_to_read_added_2025 noDate noFloat goodreads
              oneLongBook) as (_ & _ & H & _).
  destruct (H negativePagesRow []) as (_ & _ & H3 & _).
  apply H3. discriminate.
Defined.

Lemma no_dateAdded_no_backlog (l : list BookData) :
  Forall (fun b => dateAdded b = None) l -> addedToTbr2025 l = [].
Proof.
  unfold addedToTbr2025.
  induction 1 as [|b l Hb _ IH]; [reflexivity|].
  simpl. rewrite Hb. simpl. rewrite andb_false_r. exact IH.
Qed.

Lemma no_dateAdded_no_fallback (l : list BookData) :
  Forall (fun b => dateAdded b = None) l ->
  readIn2025 l
  = filter (fun b => str_eqb (shelf b) "read" && in2025 (dateRead b)) l.
Proof.
  unfold readIn2025.
  induction 1 as [|b l Hb _ IH]; [reflexivity|].
  simpl. unfold readFilter at 1. rewrite Hb. simpl in2025 at 2.
  rewrite andb_false_r.
  destruct (str_eqb (shelf b) "read"); simpl.
  - destruct (in2025 (dateRead b)); simpl; [|exact IH].
    rewrite IH. f_equal. unfold backfill. rewrite Hb.
    now destruct (dateRead b).
  - exact IH.
Qed.

(** C10. A StoryGraph upload never carries a [dateAdded]: every normalised
    record has it absent, so the backlog count is 0, and the read list is
    exactly the records on the read shelf whose own [dateRead] is in 2025,
    unchanged: the [dateAdded] fallback admits none. *)
Theorem storygraph_has_no_dateAdded
    (newDate : string -> JsDate) (parseFloat : option string -> option Q)
    (rows : list RawRow) (st0 : AppState) :
  let books := allBooks newDate parseFloat storygraph rows in
  let st := processCSV newDate parseFloat rows storygraph st0 in
  Forall (fun b => dateAdded b = None) books /\
  tbrCount st = 0 /\
  readData st
  = filter (fun b => str_eqb (shelf b) "read" && in2025 (dateRead b)) books /\
  (forall b, In b (readData st) ->
     In b books /\ shelf b = Some "read" /\ dated2025 (dateRead b)).
Proof.
  intros books st.
  assert (Hnone : Forall (fun b => dateAdded b = None) books).
  { subst books. unfold allBooks. apply Forall_forall. intros b Hb.
    apply in_map_iff in Hb. destruct Hb as (row & <- & _). reflexivity. }
  assert (Hread : readData st
    = filter (fun b => str_eqb (shelf b) "read" && in2025 (dateRead b)) books).
  { subst st. unfold processCSV; cbn [readData]. fold books.
    now apply no_dateAdded_no_fallback. }
  split; [exact Hnone|]. split; [|split].
  - subst st. unfold processCSV; cbn [tbrCount]. fold books.
    now rewrite no_dateAdded_no_backlog.
  - exact Hread.
  - intros b Hb. rewrite Hread in Hb. apply filter_In in Hb.
    destruct Hb as [Hin Ht]. apply andb_true_iff in Ht.
    destruct Ht as [Hs Hd].
    split; [exact Hin|]. split.
    + now apply str_eqb_iff.
    + now apply in2025_iff.
Qed.

Lemma storygraph_has_no_dateAdded_witness :
  shelf (parseRow marchDate noFloat storygraph storygraphRow) = Some "read"
  /\ dated2025 (dateRead (parseRow marchDate noFloat storygraph storygraphRow)).
Proof.
  destruct (storygraph_has_no_dateAdded marchDate noFloat [storygraphRow]
              oneLongBook) as (_ & _ & _ & H).
  apply H. left. reflexivity.
Defined.

(** ** [parseInt] *)

Lemma digit_value_nonneg (c : ascii) (d : Z) :
  Js.digit_value c = Some d -> 0 <= d.
Proof.
  unfold Js.digit_value. intros H.
  repeat match type of H with
    | (if ?t then _ else _) = _ => destruct t eqn:?
    end; inversion H; lia.
Qed.

Lemma radix_digit_nonneg (R : Z) (c : ascii) (d : Z) :
  Js.radix_digit R c = Some d -> 0 <= d.
Proof.
  unfold Js.radix_digit. destruct (Js.digit_value c) as [v|] eqn:E; [|discriminate].
  destruct (v <? R); [|discriminate].
  intros H. inversion H. subst. now apply digit_value_nonneg with c.
Qed.

Lemma parse_digits_nonneg (R : Z) (s : string) :
  0 <= R ->
  forall acc n,
    (forall a, acc = Some a -> 0 <= a) ->
    Js.parse_digits R s acc = Some n -> 0 <= n.
Proof.
  intros HR. induction s as [|c r IH]; intros acc n Hacc; simpl.
  - intros H. now apply Hacc.
  - destruct (Js.radix_digit R c) as [d|] eqn:E.
    + apply IH. intros a Ha. inversion Ha. subst a.
      apply radix_digit_nonneg in E.
      destruct acc as [a0|]; [|exact E].
      specialize (Hacc a0 eq_refl). nia.
    + intros H. now apply Hacc.
Qed.

Lemma strip_hex_radix (s : string) :
  fst (Js.strip_hex s) = 10 \/ fst (Js.strip_hex s) = 16.
Proof.
  unfold Js.strip_hex. destruct s as [|c [|x r]]; simpl; auto.
  destruct (Ascii.eqb c "0" && (Ascii.eqb x "x" || Ascii.eqb x "X")); simpl; auto.
Qed.

Lemma non_decimal_no_digit (c : ascii) :
  is_decimal_digit c = false -> Js.radix_digit 10 c = None.
Proof.
  unfold is_decimal_digit, Js.radix_digit, Js.digit_value. intros H.
  assert (Hc : (48 <=? Z.of_nat (nat_of_ascii c))
               && (Z.of_nat (nat_of_ascii c) <=? 57) = false).
  { apply andb_false_iff in H. apply andb_false_iff.
    destruct H as [H|H]; [left|right].
    - apply Nat.leb_gt in H. apply Z.leb_gt. lia.
    - apply Nat.leb_gt in H. apply Z.leb_gt. lia. }
  rewrite Hc.
  destruct ((97 <=? Z.of_nat (nat_of_ascii c))
            && (Z.of_nat (nat_of_ascii c) <=? 122)) eqn:E1.
  - apply andb_true_iff in E1. destruct E1 as [E1 _]. apply Z.leb_le in E1.
    destruct (Z.of_nat (nat_of_ascii c) - 87 <? 10) eqn:E; [|reflexivity].
    apply Z.ltb_lt in E. lia.
  - destruct ((65 <=? Z.of_nat (nat_of_ascii c))
              && (Z.of_nat (nat_of_ascii c) <=? 90)) eqn:E2; [|reflexivity].
    apply andb_true_iff in E2. destruct E2 as [E2 _]. apply Z.leb_le in E2.
    destruct (Z.of_nat (nat_of_ascii c) - 55 <? 10) eqn:E; [|reflexivity].
    apply Z.ltb_lt in E. lia.
Qed.

(** Text that does not start with a number parses to [NaN]. *)
Lemma non_numeric_NaN (s : string) :
  non_numeric s = true -> Js.parseInt_string s = None.
Proof.
  unfold non_numeric, Js.parseInt_string.
  destruct (Js.strip_sign (Js.trim_start s)) as [sign S1]. simpl snd.
  destruct S1 as [|c r]; [reflexivity|].
  rewrite negb_true_iff. intros Hc.
  assert (H0 : Ascii.eqb c "0" = false).
  { destruct (Ascii.eqb_spec c "0") as [->|]; [discriminate | reflexivity]. }
  assert (Hx : Js.strip_hex (String c r) = (10, String c r)).
  { unfold Js.strip_hex. destruct r; [reflexivity|]. now rewrite H0. }
  rewrite Hx. simpl. now rewrite (non_decimal_no_digit c Hc).
Qed.

Lemma parseInt_string_sign (s : string) (n : Z) :
  Js.parseInt_string s = Some n ->
  (has_minus s = false -> 0 <= n) /\ (has_minus s = true -> n <= 0).
Proof.
  unfold Js.parseInt_string, has_minus.
  assert (Hm : forall t m,
    Js.parse_digits (fst (Js.strip_hex t)) (snd (Js.strip_hex t)) None = Some m
    -> 0 <= m).
  { intros t m. apply parse_digits_nonneg.
    - destruct (strip_hex_radix t) as [-> | ->]; lia.
    - discriminate. }
  destruct (Js.trim_start s) as [|c r]; simpl Js.strip_sign.
  - simpl. discriminate.
  - destruct (Ascii.eqb c "-").
    + specialize (Hm r). destruct (Js.strip_hex r) as [R S2]. simpl in Hm.
      destruct (Js.parse_digits R S2 None) as [m|]; [|discriminate].
      cbn [option_map]. intros [= <-]. specialize (Hm m eq_refl).
      split; [discriminate | intros _; destruct m; lia].
    + assert (Hpos : forall t,
        (let '(R, S2) := Js.strip_hex t in
         option_map (Z.mul 1) (Js.parse_digits R S2 None)) = Some n -> 0 <= n).
      { intros t. specialize (Hm t). destruct (Js.strip_hex t) as [R S2].
        simpl in Hm.
        destruct (Js.parse_digits R S2 None) as [m|]; [|discriminate].
        cbn [option_map]. intros [= <-]. specialize (Hm m eq_refl).
        destruct m; lia. }
      destruct (Ascii.eqb c "+"); intros H; apply Hpos in H;
        (split; [intros _; exact H | discriminate]).
Qed.

(** C9 (as stated, refuted). A Goodreads row whose page count reads "-12"
    is normalised to a record with -12 pages. *)
Lemma negative_pages_row :
  pages (parseRow noDate noFloat goodreads negativePagesRow) = -12
  /\ ~ 0 <= pages (parseRow noDate noFloat goodreads negativePagesRow).
Proof.
  split; [reflexivity|]. intros H. now apply H.
Qed.

(** C9 (amended). For either export, the page count of the normalised
    record is the integer that [parseInt] reads off the page column, or 0
    when it reads none: a missing cell and text that does not start with a
    number give 0, text with no leading minus sign gives a count of at
    least 0, and text with a leading minus sign gives a count of at most 0. *)
Theorem pages_of_row
    (newDate : string -> JsDate) (parseFloat : option string -> option Q)
    (source : Source) (row : RawRow) :
  let field := row (pagesColumn source) in
  let p := pages (parseRow newDate parseFloat source row) in
  p = Js.or_zero (Js.parseInt field) /\
  (field = None -> p = 0) /\
  (forall s, field = Some s -> non_numeric s = true -> p = 0) /\
  (forall s, field = Some s -> has_minus s = false -> 0 <= p) /\
  (forall s, field = Some s -> has_minus s = true -> p <= 0).
Proof.
  intros field p.
  assert (Hp : p = Js.or_zero (Js.parseInt field)).
  { subst p field. now destruct source. }
  split; [exact Hp|]. rewrite Hp. clear Hp p. repeat split.
  - intros ->. reflexivity.
  - intros s -> Hs. simpl. now rewrite (non_numeric_NaN s Hs).
  - intros s -> Hs. simpl.
    destruct (Js.parseInt_string s) as [n|] eqn:E; simpl; [|lia].
    now apply (parseInt_string_sign s n E).
  - intros s -> Hs. simpl.
    destruct (Js.parseInt_string s) as [n|] eqn:E; simpl; [|lia].
    now apply (parseInt_string_sign s n E).
Qed.

Lemma pages_of_row_witness :
  pages (parseRow marchDate noFloat storygraph storygraphRow) = 321
  /\ 0 <= pages (parseRow marchDate noFloat storygraph storygraphRow).
Proof.
  destruct (pages_of_row marchDate noFloat storygraph storygraphRow)
    as (H1 & _ & _ & H4 & _).
  split.
  - rewrite H1. reflexivity.
  - apply (H4 "321"); reflexivity.
Defined.

(** ** The array sort *)

Section SortFacts.
Context {A : Type} (cmp : A -> A -> Q).

(** [x] may stand before [y] in the sorted array. *)
Let before (x y : A) : Prop := Qle_bool (cmp x y) 0 = true.

Lemma sort_insert_perm (x : A) (l : list A) :
  Permutation (Js.sort_insert cmp x l) (x :: l).
Proof.
  induction l as [|y l IH]; simpl.
  - apply Permutation_refl.
  - destruct (Qle_bool (cmp x y) 0).
    + apply Permutation_refl.
    + apply perm_trans with (y :: x :: l).
      * now apply perm_skip.
      * apply perm_swap.
Qed.

Lemma sort_perm (l : list A) : Permutation (Js.sort cmp l) l.
Proof.
  induction l as [|x l IH]; simpl.
  - apply perm_nil.
  - apply perm_trans with (x :: Js.sort cmp l).
    + apply sort_insert_perm.
    + now apply perm_skip.
Qed.

Hypothesis before_total : forall x y, ~ before x y -> before y x.
Hypothesis before_trans :
  forall x y z, before x y -> before y z -> before x z.

Lemma sort_insert_sorted (x : A) (l : list A) :
  StronglySorted before l -> StronglySorted before (Js.sort_insert cmp x l).
Proof.
  induction 1 as [|y l Hs IH Hy]; simpl.
  - constructor; constructor.
  - destruct (Qle_bool (cmp x y) 0) eqn:E.
    + constructor.
      * now constructor.
      * constructor; [exact E|].
        apply Forall_impl with (P := before y); [|exact Hy].
        intros z Hz. now apply before_trans with y.
    + constructor; [exact IH|].
      apply Forall_forall. intros z Hz.
      apply (Permutation_in _ (sort_insert_perm x l)) in Hz.
      destruct Hz as [<- | Hz].
      * apply before_total. unfold before. congruence.
      * rewrite Forall_forall in Hy. now apply Hy.
Qed.

Lemma sort_sorted (l : list A) : StronglySorted before (Js.sort cmp l).
Proof.
  induction l as [|x l IH]; simpl.
  - constructor.
  - now apply sort_insert_sorted.
Qed.
End SortFacts.

(** Stability: elements that the comparator does not separate keep their
    relative order. *)
Section SortStable.
Context {A : Type} (cmp : A -> A -> Q) (p : A -> bool).
Hypothesis p_tied :
  forall x y, p x = true -> p y = true -> Qle_bool (cmp x y) 0 = true.

Lemma sort_insert_filter (x : A) (l : list A) :
  filter p (Js.sort_insert cmp x l) = filter p (x :: l).
Proof.
  induction l as [|y l IH]; [reflexivity|].
  simpl Js.sort_insert. destruct (Qle_bool (cmp x y) 0) eqn:E; [reflexivity|].
  simpl filter in *. rewrite IH.
  destruct (p x) eqn:Hx, (p y) eqn:Hy; try reflexivity.
  rewrite (p_tied x y Hx Hy) in E. discriminate.
Qed.

Lemma sort_filter (l : list A) : filter p (Js.sort cmp l) = filter p l.
Proof.
  induction l as [|x l IH]; [reflexivity|].
  simpl Js.sort. rewrite sort_insert_filter. simpl. now rewrite IH.
Qed.
End SortStable.

(** ** The book ranking *)

Lemma compareBooks_before (a b : BookData) :
  Qle_bool (compareBooks a b) 0 = true <-> ranksBefore a b.
Proof.
  unfold compareBooks, ranksBefore. rewrite Qle_bool_iff.
  destruct (Qeq_bool (rating b) (rating a)) eqn:E; simpl.
  - apply Qeq_bool_iff in E.
    assert (Hz : (inject_Z (pages b - pages a) <= 0)%Q
                 <-> pages b <= pages a).
    { unfold Qle; simpl. lia. }
    rewrite Hz. split.
    + intros H. right. split; [now symmetry | exact H].
    + intros [H | [_ H]]; [lra | exact H].
  - apply Qeq_bool_neq in E. split.
    + intros H. left. lra.
    + intros [H | [H _]]; lra.
Qed.

Lemma ranksBefore_total (a b : BookData) :
  ~ ranksBefore a b -> ranksBefore b a.
Proof.
  unfold ranksBefore. intros H.
  destruct (Q_dec (rating a) (rating b)) as [[Hlt | Hgt] | Heq].
  - now left.
  - exfalso. apply H. now left.
  - right. split; [now symmetry|].
    destruct (Z_le_gt_dec (pages b) (pages a)) as [Hle | Hgt]; [|lia].
    exfalso. apply H. right. now split.
Qed.

Lemma ranksBefore_trans (a b c : BookData) :
  ranksBefore a b -> ranksBefore b c -> ranksBefore a c.
Proof.
  unfold ranksBefore. intros [H1 | [E1 P1]] [H2 | [E2 P2]].
  - left. now apply Qlt_trans with (rating b).
  - left. now rewrite <- E2.
  - left. now rewrite E1.
  - right. split; [now rewrite E1 | lia].
Qed.

Lemma StronglySorted_impl {A : Type} (R S : A -> A -> Prop) (l : list A) :
  (forall x y, R x y -> S x y) -> StronglySorted R l -> StronglySorted S l.
Proof.
  intros HRS. induction 1 as [|x l Hs IH Hx]; constructor.
  - exact IH.
  - apply Forall_impl with (P := R x); [apply HRS | exact Hx].
Qed.

Lemma firstn_incl {A : Type} (n : nat) (l : list A) (x : A) :
  In x (firstn n l) -> In x l.
Proof.
  revert l. induction n as [|n IH]; intros [|y l]; simpl; try tauto.
  intros [H | H]; [now left | right; now apply IH].
Qed.

(** C4. [topBooks] holds the rated records only: the records of the read
    list with a rating above 0 are arranged by rating, highest first, and
    among equal ratings by pages, most first, and the first five of that
    arrangement are kept.  Books rated 5, 5, 4 with 100, 300 and 999 pages
    come out as the 300-page book, the 100-page book, the 999-page book. *)
Theorem topBooks_ranking (st : AppState) :
  let rated := filter (fun b => Qlt_bool 0 (rating b)) (readData st) in
  (forall b, In b rated <-> In b (readData st) /\ (0 < rating b)%Q) /\
  (exists ranked,
     Permutation ranked rated /\ StronglySorted ranksBefore ranked /\
     topBooks st = firstn 5 ranked) /\
  List.length (topBooks st) = Nat.min 5 (List.length rated) /\
  (forall b, In b (topBooks st) -> In b (readData st) /\ (0 < rating b)%Q) /\
  (forall a b c,
     readData st = [a; b; c] ->
     rating a == 5 -> rating b == 5 -> rating c == 4 ->
     pages a = 100 -> pages b = 300 -> pages c = 999 ->
     topBooks st = [b; a; c]).
Proof.
  intros rated.
  assert (Hrated : forall b,
    In b rated <-> In b (readData st) /\ (0 < rating b)%Q).
  { intros b. subst rated. now rewrite filter_In, Qlt_bool_iff. }
  assert (Hsorted : StronglySorted ranksBefore (Js.sort compareBooks rated)).
  { apply StronglySorted_impl
      with (R := fun x y => Qle_bool (compareBooks x y) 0 = true).
    - intros x y. apply compareBooks_before.
    - apply sort_sorted.
      + intros x y H. apply compareBooks_before, ranksBefore_total.
        now rewrite <- compareBooks_before.
      + intros x y z H1 H2. apply compareBooks_before.
        apply ranksBefore_trans with y; now apply compareBooks_before. }
  split; [exact Hrated|]. split; [|split; [|split]].
  - exists (Js.sort compareBooks rated). repeat split.
    + apply sort_perm.
    + exact Hsorted.
  - unfold topBooks, Js.slice0. fold rated. rewrite length_firstn.
    now rewrite (Permutation_length (sort_perm compareBooks rated)).
  - intros b Hb. apply Hrated. unfold topBooks, Js.slice0 in Hb. fold rated in Hb.
    apply firstn_incl in Hb.
    now apply (Permutation_in _ (sort_perm compareBooks rated)).
  - intros a b c Hl Ha Hb Hc Pa Pb Pc.
    unfold topBooks. subst rated. rewrite Hl. simpl filter.
    assert (Ra : Qlt_bool 0 (rating a) = true) by (apply Qlt_bool_iff; lra).
    assert (Rb : Qlt_bool 0 (rating b) = true) by (apply Qlt_bool_iff; lra).
    assert (Rc : Qlt_bool 0 (rating c) = true) by (apply Qlt_bool_iff; lra).
    rewrite Ra, Rb, Rc. simpl Js.sort.
    assert (Hbc : Qle_bool (compareBooks b c) 0 = true).
    { apply compareBooks_before. left. lra. }
    assert (Hac : Qle_bool (compareBooks a c) 0 = true).
    { apply compareBooks_before. left. lra. }
    assert (Hab : Qle_bool (compareBooks a b) 0 = false).
    { apply not_true_is_false. rewrite compareBooks_before.
      intros [H | [_ H]]; [lra | lia]. }
    rewrite Hbc. simpl Js.sort_insert. rewrite Hab, Hac. reflexivity.
Qed.

(** Three books rated 5, 5, 4 with 100, 300 and 999 pages. *)
Lemma topBooks_ranking_witness :
  topBooks
    (state_of [sampleBook "A" "X" 100 5 None None "read";
               sampleBook "B" "Y" 300 5 None None "read";
               sampleBook "C" "Z" 999 4 None None "read"] 0)
  = [sampleBook "B" "Y" 300 5 None None "read";
     sampleBook "A" "X" 100 5 None None "read";
     sampleBook "C" "Z" 999 4 None None "read"].
Proof.
  destruct (topBooks_ranking
    (state_of [sampleBook "A" "X" 100 5 None None "read";
               sampleBook "B" "Y" 300 5 None None "read";
               sampleBook "C" "Z" 999 4 None None "read"] 0))
    as (_ & _ & _ & _ & H).
  apply H; reflexivity.
Defined.

(** ** The thickest book *)

Lemma thicker_keeps (l : list BookData) (acc : BookSummary) :
  Forall (fun x => pages x < sum_pages acc) l ->
  fold_left thicker l acc = acc.
Proof.
  revert acc. induction l as [|x l IH]; intros acc H; simpl.
  - reflexivity.
  - inversion H as [|? ? Hx Hl]; subst.
    unfold thicker at 2. apply Z.ltb_lt in Hx. rewrite Hx. now apply IH.
Qed.

Lemma thicker_bounded (n : Z) (l : list BookData) (acc : BookSummary) :
  sum_pages acc <= n ->
  Forall (fun x => pages x <= n) l ->
  sum_pages (fold_left thicker l acc) <= n.
Proof.
  revert acc. induction l as [|x l IH]; intros acc Hacc H; simpl.
  - exact Hacc.
  - inversion H as [|? ? Hx Hl]; subst.
    apply IH; [|exact Hl].
    unfold thicker. destruct (pages x <? sum_pages acc); [exact Hacc | exact Hx].
Qed.

(** The reduction returns the last record that reaches the largest page
    count, when that count is not below the initial value's. *)
Lemma thicker_last_maximum (l1 l2 : list BookData) (b : BookData)
    (acc : BookSummary) :
  sum_pages acc <= pages b ->
  Forall (fun x => pages x <= pages b) l1 ->
  Forall (fun x => pages x < pages b) l2 ->
  fold_left thicker (l1 ++ b :: l2) acc = summary b.
Proof.
  intros Hacc H1 H2. rewrite fold_left_app. simpl.
  pose proof (thicker_bounded (pages b) l1 acc Hacc H1) as Hb.
  unfold thicker at 2. apply Z.ltb_ge in Hb. rewrite Hb.
  now apply thicker_keeps.
Qed.

Lemma last_maximum_exists (l : list BookData) :
  l <> [] ->
  exists (l1 : list BookData) b l2,
    l = (l1 ++ b :: l2)%list /\
    Forall (fun x => pages x <= pages b) l1 /\
    Forall (fun x => pages x < pages b) l2.
Proof.
  induction l as [|x l IH]; [congruence|]. intros _.
  destruct l as [|y l'].
  - exists [], x, []. repeat split; constructor.
  - destruct IH as (l1 & b & l2 & E & H1 & H2); [discriminate|].
    destruct (Z_le_gt_dec (pages x) (pages b)) as [Hle | Hgt].
    + exists (x :: l1), b, l2. rewrite E. repeat split.
      * now constructor.
      * exact H2.
    + exists [], x, (y :: l'). repeat split; [constructor|].
      rewrite E. apply Forall_app. split.
      * apply Forall_impl with (P := fun z => pages z <= pages b);
          [intros z Hz; lia | exact H1].
      * constructor; [lia|].
        apply Forall_impl with (P := fun z => pages z < pages b);
          [intros z Hz; lia | exact H2].
Qed.

(** C3 (as stated, refuted). Of two books of 300 pages the second is
    returned, not the first; the placeholder for an empty list has the
    title and author "-", not empty ones; and a list whose only record has
    a negative page count yields the placeholder, not that record. *)
Lemma thickestBook_not_first :
  thickestBook (state_of [firstThick; secondThick] 0) = summary secondThick
  /\ thickestBook (state_of [firstThick; secondThick] 0) <> summary firstThick
  /\ pages firstThick = pages secondThick
  /\ sum_title (thickestBook (state_of [] 0)) = Some "-"
  /\ sum_title (thickestBook (state_of [] 0)) <> Some ""
  /\ thickestBook
       (state_of [sampleBook "Odd" "Dee" (-12) 0 None None "read"] 0)
     = noBook.
Proof.
  repeat split; discriminate.
Qed.

(** C3 (amended). [thickestBook] holds the title, pages and author of a
    record of the read list with the largest page count, provided that
    count is not negative; when several records reach it, the last one in
    iteration order is returned; for an empty list it is the placeholder
    with title "-", author "-" and 0 pages. *)
Theorem thickestBook_last_maximum (st : AppState) :
  (readData st = [] ->
   thickestBook st = noBook /\ sum_title (thickestBook st) = Some "-" /\
   sum_author (thickestBook st) = Some "-" /\ sum_pages (thickestBook st) = 0) /\
  (forall l1 b l2,
     readData st = (l1 ++ b :: l2)%list ->
     0 <= pages b ->
     Forall (fun x => pages x <= pages b) l1 ->
     Forall (fun x => pages x < pages b) l2 ->
     thickestBook st = summary b) /\
  (Exists (fun x => 0 <= pages x) (readData st) ->
   exists b,
     In b (readData st) /\ thickestBook st = summary b /\
     Forall (fun x => pages x <= pages b) (readData st)).
Proof.
  unfold thickestBook, Js.reduce. fold thicker. split; [|split].
  - intros ->. repeat split.
  - intros l1 b l2 -> Hb H1 H2. now apply thicker_last_maximum.
  - intros Hex.
    destruct (last_maximum_exists (readData st)) as (l1 & b & l2 & E & H1 & H2).
    { intros E. rewrite E in Hex. inversion Hex. }
    assert (Hall : Forall (fun x => pages x <= pages b) (readData st)).
    { rewrite E. apply Forall_app. split; [exact H1|].
      constructor; [lia|].
      apply Forall_impl with (P := fun z => pages z < pages b);
        [intros z Hz; lia | exact H2]. }
    exists b. split; [|split].
    + rewrite E. apply in_or_app. right. now left.
    + rewrite E. apply thicker_last_maximum; [|exact H1|exact H2].
      apply Exists_exists in Hex. destruct Hex as (x & Hx & Hpos).
      rewrite Forall_forall in Hall. specialize (Hall x Hx). simpl. lia.
    + exact Hall.
Qed.

Lemma thickestBook_last_maximum_witness :
  thickestBook (state_of [firstThick; secondThick] 0) = summary secondThick.
Proof.
  destruct (thickestBook_last_maximum (state_of [firstThick; secondThick] 0))
    as (_ & H & _).
  apply (H [firstThick] secondThick []).
  - reflexivity.
  - discriminate.
  - constructor; [discriminate | constructor].
  - constructor.
Defined.

(** ** Counter tables *)

Lemma array_index_text (k : string) (i : Z) :
  Js.array_index k = Some i -> k = Js.string_of_Z i.
Proof.
  unfold Js.array_index. destruct (Js.all_digits k) as [v|]; [|discriminate].
  destruct ((v <=? 4294967294) && String.eqb (Js.string_of_Z v) k) eqn:E;
    [|discriminate].
  intros [= <-]. apply andb_true_iff in E. destruct E as [_ E].
  apply String.eqb_eq in E. now symmetry.
Qed.

Lemma array_index_inj (k1 k2 : string) (i : Z) :
  Js.array_index k1 = Some i -> Js.array_index k2 = Some i -> k1 = k2.
Proof.
  intros H1 H2. apply array_index_text in H1, H2. congruence.
Qed.

Section ObjectFacts.
Context {V : Type}.
Implicit Types (o : Js.JsObject V) (k : string) (v : V).

Lemma obj_get_None o k : Js.obj_get o k = None <-> ~ In k (map fst o).
Proof.
  induction o as [|[k' v'] o IH]; simpl.
  - tauto.
  - destruct (String.eqb_spec k' k) as [-> | Hne].
    + split; [discriminate | tauto].
    + rewrite IH. tauto.
Qed.

Lemma obj_get_In o k v :
  NoDup (map fst o) -> (In (k, v) o <-> Js.obj_get o k = Some v).
Proof.
  induction o as [|[k' v'] o IH]; simpl; intros Hnd.
  - split; [tauto | discriminate].
  - inversion Hnd as [|? ? Hk Ho]; subst.
    destruct (String.eqb_spec k' k) as [-> | Hne].
    + split.
      * intros [[= ->] | Hin]; [reflexivity|].
        exfalso. apply Hk. apply in_map_iff. now exists (k, v).
      * intros [= ->]. now left.
    + rewrite <- (IH Ho). split.
      * intros [[= ? ?] | Hin]; [contradiction | exact Hin].
      * intros Hin. now right.
Qed.

Lemma keys_update o k v : map fst (Js.obj_update k v o) = map fst o.
Proof.
  induction o as [|[k' v'] o IH]; simpl; [reflexivity|].
  destruct (String.eqb k' k); simpl; [reflexivity | now rewrite IH].
Qed.

Lemma obj_get_update o k v k' :
  Js.obj_get o k <> None ->
  Js.obj_get (Js.obj_update k v o) k'
  = if String.eqb k' k then Some v else Js.obj_get o k'.
Proof.
  induction o as [|[k0 v0] o IH]; simpl; intros Hk; [congruence|].
  destruct (String.eqb_spec k0 k) as [-> | Hne]; simpl.
  - destruct (String.eqb_spec k k') as [<- | Hne'].
    + now rewrite String.eqb_refl.
    + destruct (String.eqb_spec k' k); [congruence | reflexivity].
  - destruct (String.eqb_spec k0 k') as [<- | Hne'].
    + destruct (String.eqb_spec k0 k); [congruence | reflexivity].
    + now apply IH.
Qed.

Lemma obj_get_append o k v k' :
  Js.obj_get o k = None ->
  Js.obj_get (o ++ [(k, v)])%list k'
  = if String.eqb k' k then Some v else Js.obj_get o k'.
Proof.
  induction o as [|[k0 v0] o IH]; simpl; intros Hk.
  - rewrite (String.eqb_sym k k'). reflexivity.
  - destruct (String.eqb_spec k0 k) as [-> | Hne]; [discriminate|].
    destruct (String.eqb_spec k0 k') as [<- | Hne'].
    + destruct (String.eqb_spec k0 k); [congruence | reflexivity].
    + now apply IH.
Qed.

Lemma obj_get_add_index o i k v k' :
  Js.obj_get o k = None ->
  Js.obj_get (Js.obj_add_index i k v o) k'
  = if String.eqb k' k then Some v else Js.obj_get o k'.
Proof.
  assert (Hfront : forall o',
    Js.obj_get ((k, v) :: o') k'
    = if String.eqb k' k then Some v else Js.obj_get o' k').
  { intros o'. simpl. now rewrite (String.eqb_sym k k'). }
  induction o as [|[k0 v0] o IH]; intros Hk.
  - apply Hfront.
  - simpl in Hk. destruct (String.eqb_spec k0 k) as [-> | Hne]; [discriminate|].
    cbn [Js.obj_add_index].
    destruct (Js.array_index k0) as [j|]; [|apply Hfront].
    destruct (j <? i); [|apply Hfront].
    simpl. destruct (String.eqb_spec k0 k') as [<- | Hne'].
    + destruct (String.eqb_spec k0 k); [congruence | reflexivity].
    + now apply IH.
Qed.

(** Reading a table after an assignment. *)
Lemma obj_get_set o k v k' :
  Js.obj_get (Js.obj_set k v o) k'
  = if String.eqb k' k then Some v else Js.obj_get o k'.
Proof.
  unfold Js.obj_set. destruct (Js.obj_get o k) as [c|] eqn:E.
  - apply obj_get_update. congruence.
  - destruct (Js.array_index k) as [i|].
    + now apply obj_get_add_index.
    + now apply obj_get_append.
Qed.

(** Where a new array-index key goes: among the index keys, in order. *)
Lemma keys_add_index i k v (ki kr : list string) :
  Js.array_index k = Some i ->
  Forall (fun x => is_index x = true) ki ->
  StronglySorted index_lt ki ->
  Forall (fun x => is_index x = false) kr ->
  ~ In k ki ->
  forall o,
    map fst o = (ki ++ kr)%list ->
    exists ki',
      map fst (Js.obj_add_index i k v o) = (ki' ++ kr)%list /\
      Forall (fun x => is_index x = true) ki' /\
      StronglySorted index_lt ki' /\
      Permutation ki' (k :: ki).
Proof.
  intros Hk Hidx Hsorted Hrest.
  assert (Hik : is_index k = true) by (unfold is_index; now rewrite Hk).
  induction ki as [|k1 ki IH]; intros Hnew o Ho.
  - exists [k]. repeat split.
    + destruct o as [|[k0 v0] o]; [simpl in *; now rewrite <- Ho|].
      simpl in Ho. cbn [Js.obj_add_index].
      assert (H0 : Js.array_index k0 = None).
      { rewrite <- Ho in Hrest. inversion Hrest as [|? ? H0 _]; subst.
        unfold is_index in H0. simpl in H0.
        now destruct (Js.array_index k0). }
      rewrite H0. simpl. now rewrite Ho.
    + now constructor.
    + constructor; constructor.
    + apply Permutation_refl.
  - destruct o as [|[k0 v0] o]; [discriminate|].
    simpl in Ho. injection Ho as -> Ho.
    inversion Hidx as [|? ? H1 Hidx']; subst.
    inversion Hsorted as [|? ? Hs' Hlt]; subst.
    unfold is_index in H1.
    destruct (Js.array_index k1) as [j|] eqn:Ej; [|discriminate].
    cbn [Js.obj_add_index]. rewrite Ej.
    assert (Hji : j <> i).
    { intros ->. apply Hnew. left. now apply array_index_inj with i. }
    destruct (j <? i) eqn:Elt.
    + apply Z.ltb_lt in Elt.
      destruct (IH Hidx' Hs') with (o := o) as (ki' & Hkeys & Hi' & Hs'' & Hp).
      { intros Hin. apply Hnew. now right. }
      { exact Ho. }
      exists (k1 :: ki'). repeat split.
      * simpl. now rewrite Hkeys.
      * constructor; [|exact Hi']. unfold is_index. now rewrite Ej.
      * constructor; [exact Hs''|].
        apply Forall_forall. intros x Hx.
        apply (Permutation_in _ Hp) in Hx. destruct Hx as [<- | Hx].
        -- exists j, i. auto.
        -- rewrite Forall_forall in Hlt. now apply Hlt.
      * apply perm_trans with (k1 :: k :: ki); [now apply perm_skip|].
        apply perm_swap.
    + apply Z.ltb_ge in Elt.
      exists (k :: k1 :: ki). repeat split.
      * simpl. now rewrite Ho.
      * constructor; [exact Hik|]. constructor; [|exact Hidx'].
        unfold is_index. now rewrite Ej.
      * constructor; [exact Hsorted|].
        constructor; [exists i, j; repeat split; auto; lia|].
        apply Forall_impl with (P := index_lt k1); [|exact Hlt].
        intros x (j' & x' & Hj' & Hx' & Hlt').
        exists i, x'. repeat split; auto.
        rewrite Ej in Hj'. injection Hj' as <-. lia.
      * apply Permutation_refl.
Qed.
End ObjectFacts.

Lemma occurrences_nonneg (k : string) (ks : list string) :
  0 <= occurrences k ks.
Proof. unfold occurrences. lia. Qed.

Lemma occurrences_snoc (k k' : string) (ks : list string) :
  occurrences k' (ks ++ [k])
  = occurrences k' ks + (if String.eqb k' k then 1 else 0).
Proof.
  unfold occurrences. rewrite count_occ_app. simpl.
  destruct (string_dec k k') as [-> | Hne].
  - rewrite String.eqb_refl. lia.
  - destruct (String.eqb_spec k' k); [congruence | lia].
Qed.

Lemma occurrences_pos (k : string) (ks : list string) :
  0 < occurrences k ks <-> In k ks.
Proof.
  unfold occurrences. rewrite (count_occ_In string_dec). lia.
Qed.

Lemma first_occurrences_In (k : string) (l : list string) :
  In k (first_occurrences l) <-> In k l.
Proof.
  induction l as [|x l IH]; simpl; [tauto|].
  rewrite filter_In, IH, negb_true_iff.
  destruct (String.eqb_spec k x) as [-> | Hne].
  - split; [intros [H | [_ H]]; [now left | discriminate] | now left].
  - split.
    + intros [H | [H _]]; [now left | now right].
    + intros [H | H]; [now left | right; now split].
Qed.

Lemma first_occurrences_snoc (k : string) (l : list string) :
  first_occurrences (l ++ [k])
  = (first_occurrences l ++ (if in_dec string_dec k l then [] else [k]))%list.
Proof.
  induction l as [|x l IH]; [reflexivity|].
  cbn [app first_occurrences]. rewrite IH, filter_app. cbn [app]. do 2 f_equal.
  destruct (in_dec string_dec k l) as [Hin | Hout].
  - destruct (in_dec string_dec k (x :: l)) as [_ | Hout]; [reflexivity|].
    exfalso. apply Hout. now right.
  - simpl filter. destruct (String.eqb_spec k x) as [-> | Hne]; cbn [negb].
    + destruct (in_dec string_dec x (x :: l)) as [_ | Hout']; [reflexivity|].
      exfalso. apply Hout'. now left.
    + destruct (in_dec string_dec k (x :: l)) as [[H | H] | _];
        [congruence | contradiction | reflexivity].
Qed.

Lemma nameKeys_snoc (k : string) (ks : list string) :
  nameKeys (ks ++ [k])
  = (nameKeys ks ++ (if is_index k then [] else [k]))%list.
Proof.
  unfold nameKeys. rewrite filter_app. simpl. now destruct (is_index k).
Qed.

Lemma nameKeys_In (k : string) (ks : list string) :
  In k (nameKeys ks) <-> In k ks /\ is_index k = false.
Proof.
  unfold nameKeys. now rewrite filter_In, negb_true_iff.
Qed.

Lemma tally_snoc (ks : list string) (k : string) (o : Js.JsObject Z) :
  tally (ks ++ [k]) o = increment k (tally ks o).
Proof. unfold tally. now rewrite fold_left_app. Qed.

Lemma counted_nil : counted [] [].
Proof.
  repeat split.
  - constructor.
  - exists []. repeat split; constructor.
Qed.

(** Counting one more key keeps the table as described. *)
Lemma counted_step (ks : list string) (o : Js.JsObject Z) (k : string) :
  counted ks o -> counted (ks ++ [k]) (increment k o).
Proof.
  intros (Hget & Hnd & ki & Hkeys & Hidx & Hsorted).
  pose proof (occurrences_nonneg k ks) as Hc.
  assert (Hv : Js.or_zero (Js.obj_get o k) = occurrences k ks).
  { rewrite Hget. destruct (0 <? occurrences k ks) eqn:E; simpl; [reflexivity|].
    apply Z.ltb_ge in E. lia. }
  unfold increment. rewrite Hv.
  set (v := occurrences k ks + 1).
  split; [|].
  - intros k'. rewrite obj_get_set, occurrences_snoc, Hget.
    destruct (String.eqb_spec k' k) as [-> | Hne].
    + fold v. destruct (0 <? v) eqn:E; [reflexivity|].
      apply Z.ltb_ge in E. subst v. lia.
    + now rewrite Z.add_0_r.
  - assert (Hrest : Forall (fun x => is_index x = false)
                      (first_occurrences (nameKeys ks))).
    { apply Forall_forall. intros x Hx.
      apply first_occurrences_In, nameKeys_In in Hx. tauto. }
    rewrite nameKeys_snoc.
    unfold Js.obj_set. destruct (Js.obj_get o k) as [c|] eqn:E.
    + (* the key is already there *)
      rewrite keys_update. split; [exact Hnd|].
      exists ki. repeat split; try assumption.
      rewrite Hkeys. f_equal.
      assert (Hin : In k ks).
      { apply occurrences_pos. rewrite Hget in E.
        destruct (0 <? occurrences k ks) eqn:E'; [|discriminate].
        now apply Z.ltb_lt. }
      destruct (is_index k) eqn:Ek; [now rewrite app_nil_r|].
      rewrite first_occurrences_snoc.
      destruct (in_dec string_dec k (nameKeys ks)) as [_ | Hout];
        [now rewrite app_nil_r|].
      exfalso. apply Hout. now apply nameKeys_In.
    + (* a new key *)
      assert (Hnew : ~ In k (map fst o)) by now apply obj_get_None.
      unfold is_index.
      destruct (Js.array_index k) as [i|] eqn:Ei.
      * destruct (keys_add_index i k v ki _ Ei Hidx Hsorted Hrest)
          with (o := o) as (ki' & Hkeys' & Hidx' & Hsorted' & Hperm).
        { intros Hin. apply Hnew. rewrite Hkeys. apply in_or_app. now left. }
        { exact Hkeys. }
        split.
        -- rewrite Hkeys'. apply Permutation_NoDup with (k :: map fst o).
           ++ rewrite Hkeys. symmetry.
              change (k :: ki ++ first_occurrences (nameKeys ks))%list
                with ((k :: ki) ++ first_occurrences (nameKeys ks))%list.
              now apply Permutation_app_tail.
           ++ now constructor.
        -- exists ki'. rewrite app_nil_r. now repeat split.
      * split.
        -- rewrite map_app. simpl.
           apply Permutation_NoDup with (k :: map fst o).
           ++ apply Permutation_cons_append.
           ++ now constructor.
        -- exists ki. repeat split; try assumption.
           rewrite map_app, Hkeys, <- app_assoc. simpl. f_equal.
           rewrite first_occurrences_snoc.
           destruct (in_dec string_dec k (nameKeys ks)) as [Hin | _];
             [|reflexivity].
           exfalso. apply Hnew. rewrite Hkeys. apply in_or_app. right.
           now apply first_occurrences_In.
Qed.

Lemma tally_counted (ks : list string) : counted ks (tally ks []).
Proof.
  induction ks as [|k ks IH] using rev_ind.
  - apply counted_nil.
  - rewrite tally_snoc. now apply counted_step.
Qed.

(** ** The busiest month *)

Lemma monthKey_index (m : Month) :
  Js.array_index (monthKey m) = Some (Z.of_nat (month_index m)).
Proof. destruct m; reflexivity. Qed.

Lemma monthKey_parseInt (m : Month) :
  Js.parseInt (Some (monthKey m)) = Some (Z.of_nat (month_index m)).
Proof. destruct m; reflexivity. Qed.

Lemma monthKey_eqb (m m' : Month) :
  String.eqb (monthKey m) (monthKey m')
  = (month_index m =? month_index m')%nat.
Proof. destruct m, m'; reflexivity. Qed.

Lemma monthKey_not_NaN (m : Month) : String.eqb "NaN" (monthKey m) = false.
Proof. destruct m; reflexivity. Qed.

Lemma monthName_index (m : Month) :
  monthName (Some (Z.of_nat (month_index m)))
  = nth (month_index m) monthNames "".
Proof. destruct m; reflexivity. Qed.

Lemma countMonths_tally (books : list BookData) :
  countMonths books = tally (monthKeys books) [].
Proof.
  unfold countMonths. generalize (@nil (string * Z)) as o.
  induction books as [|b books IH]; intros o; [reflexivity|].
  simpl fold_left. rewrite IH. unfold monthKeys. simpl flat_map.
  destruct (dateRead b) as [d|]; reflexivity.
Qed.

(** Counting the month keys counts the records read in each month. *)
Lemma occurrences_monthKey (m : Month) (books : list BookData) :
  occurrences (monthKey m) (monthKeys books) = monthCount m books.
Proof.
  unfold occurrences, monthCount. f_equal.
  induction books as [|b books IH]; [reflexivity|].
  unfold monthKeys in *. cbn [flat_map filter]. rewrite count_occ_app, IH.
  unfold readInMonth at 2.
  destruct (dateRead b) as [[y m' day|]|].
  - change (month_key (ValidDate y m' day)) with (monthKey m').
    cbn [count_occ]. rewrite <- monthKey_eqb.
    destruct (string_dec (monthKey m') (monthKey m)) as [-> | Hne].
    + now rewrite String.eqb_refl.
    + destruct (String.eqb_spec (monthKey m) (monthKey m'));
        [congruence | reflexivity].
  - change (month_key InvalidDate) with "NaN". cbn [count_occ].
    destruct (string_dec "NaN" (monthKey m)) as [E | _]; [|reflexivity].
    apply String.eqb_eq in E. now rewrite monthKey_not_NaN in E.
  - reflexivity.
Qed.

Lemma readIn2025_dated (books : list BookData) (b : BookData) :
  In b (readIn2025 books) -> dated2025 (dateRead b).
Proof.
  unfold readIn2025. rewrite in_map_iff. intros (b0 & <- & Hin).
  apply filter_In in Hin. destruct Hin as [_ Hf].
  unfold readFilter in Hf.
  destruct (negb (str_eqb (shelf b0) "read")); [discriminate|].
  unfold backfill.
  destruct (in2025 (dateRead b0)) eqn:E1.
  - apply in2025_iff in E1. destruct E1 as (m & day & E1).
    rewrite E1. now exists m, day.
  - destruct (dateRead b0) as [d|]; [discriminate|].
    simpl in Hf. destruct (in2025 (dateAdded b0)) eqn:E2; [|discriminate].
    apply in2025_iff in E2. destruct E2 as (m & day & E2).
    rewrite E2. simpl. now exists m, day.
Qed.

(** The month keys of records that all carry a valid read date. *)
Lemma monthKeys_dated (books : list BookData) :
  Forall (fun b => dated2025 (dateRead b)) books ->
  List.length (monthKeys books) = List.length books /\
  forall k, In k (monthKeys books) -> exists m, k = monthKey m.
Proof.
  induction 1 as [|b books (m & day & Hb) _ [IHl IHk]]; simpl.
  - split; [reflexivity | tauto].
  - unfold monthKeys in *. simpl flat_map. rewrite Hb. simpl. split.
    + now rewrite IHl.
    + intros k [<- | Hk]; [now exists m | now apply IHk].
Qed.

(** The scan keeps the first entry that reaches the largest count. *)
Lemma scan_first_maximum (es : list (string * Z)) :
  forall acc,
    (Forall (fun e => snd e <= snd acc) es /\ fold_left scanStep es acc = acc)
    \/ exists es1 k c es2,
         es = (es1 ++ (k, c) :: es2)%list /\
         snd acc < c /\
         Forall (fun e => snd e < c) es1 /\
         Forall (fun e => snd e <= c) es2 /\
         fold_left scanStep es acc = (Js.parseInt (Some k), c).
Proof.
  induction es as [|[k c] es IH]; intros acc.
  - left. split; [constructor | reflexivity].
  - simpl fold_left. unfold scanStep at 2.
    destruct (snd acc <? c) eqn:E.
    + apply Z.ltb_lt in E. right.
      destruct (IH (Js.parseInt (Some k), c))
        as [[Hall Hr] | (es1 & k' & c' & es2 & -> & Hlt & H1 & H2 & Hr)].
      * exists [], k, c, es. simpl in Hall.
        split; [reflexivity|]. split; [exact E|]. split; [constructor|].
        split; [exact Hall | exact Hr].
      * simpl in Hlt. exists ((k, c) :: es1), k', c', es2.
        split; [reflexivity|]. split; [lia|].
        split; [constructor; [exact Hlt | exact H1]|].
        split; [exact H2 | exact Hr].
    + apply Z.ltb_ge in E.
      destruct (IH acc)
        as [[Hall Hr] | (es1 & k' & c' & es2 & -> & Hlt & H1 & H2 & Hr)].
      * left. split; [|exact Hr]. constructor; [exact E | exact Hall].
      * right. exists ((k, c) :: es1), k', c', es2.
        split; [reflexivity|]. split; [exact Hlt|].
        split; [constructor; [simpl; lia | exact H1]|].
        split; [exact H2 | exact Hr].
Qed.

Lemma StronglySorted_after {A : Type} (R : A -> A -> Prop)
    (l1 l2 : list A) (x : A) :
  StronglySorted R (l1 ++ x :: l2) -> Forall (R x) l2.
Proof.
  induction l1 as [|y l1 IH]; simpl; intros H;
    inversion H as [|? ? Hs Hf]; subst; auto.
Qed.

Lemma nameKeys_all_index (ks : list string) :
  (forall k, In k ks -> is_index k = true) -> nameKeys ks = [].
Proof.
  induction ks as [|k ks IH]; intros H; [reflexivity|].
  unfold nameKeys in *. simpl. rewrite (H k (or_introl eq_refl)). simpl.
  apply IH. intros k' Hk'. apply H. now right.
Qed.

(** The entries of a table that counted [ks]. *)
Lemma counted_entry (ks : list string) (o : Js.JsObject Z) (k : string)
    (c : Z) :
  counted ks o ->
  (In (k, c) o <-> c = occurrences k ks /\ 0 < c).
Proof.
  intros (Hget & Hnd & _). rewrite (obj_get_In o k c Hnd), Hget.
  destruct (0 <? occurrences k ks) eqn:E.
  - apply Z.ltb_lt in E. split.
    + intros [= <-]. now split.
    + intros [-> _]. reflexivity.
  - apply Z.ltb_ge in E. split; [discriminate | intros [-> H]; lia].
Qed.

(** The scan of the month table over a read list whose records all carry
    a valid read date in 2025. *)
Lemma getMostActiveMonth_dated (st : AppState) :
  Forall (fun b => dated2025 (dateRead b)) (readData st) ->
  (readData st = [] -> peakMonth st = "-") /\
  (readData st <> [] ->
   exists m : Month,
     peakMonth st
     = (nth (month_index m) monthNames "" ++ " ("
          ++ Js.string_of_Z (monthCount m (readData st)) ++ " BUKU)")%string /\
     0 < monthCount m (readData st) /\
     forall m',
       monthCount m' (readData st) <= monthCount m (readData st) /\
       (monthCount m' (readData st) = monthCount m (readData st) ->
        (month_index m <= month_index m')%nat)).
Proof.
  intros Hdated. unfold peakMonth, getMostActiveMonth.
  set (rd := readData st) in *. split.
  - intros ->. reflexivity.
  - intros Hne.
    destruct (monthKeys_dated rd Hdated) as [Hlen Hmonth].
    pose proof (tally_counted (monthKeys rd)) as Hcounted.
    rewrite countMonths_tally. set (o := tally (monthKeys rd) []) in *.
    pose proof Hcounted as (_ & _ & ki & Hkeys & _ & Hsorted).
    rewrite nameKeys_all_index, app_nil_r in Hkeys.
    2:{ intros k Hk. destruct (Hmonth k Hk) as (m & ->).
        unfold is_index. now rewrite monthKey_index. }
    subst ki.
    (* the scan stops at the first entry with the largest count *)
    destruct (scan_first_maximum o (Some (-1), -1))
      as [[Hall _] | (es1 & k & c & es2 & Ho & _ & H1 & H2 & Hscan)].
    { exfalso. destruct rd as [|b rd']; [congruence|].
      destruct (monthKeys (b :: rd')) as [|k0 ks0] eqn:Eks; [discriminate|].
      assert (Hin : In (k0, occurrences k0 (k0 :: ks0)) o).
      { apply (counted_entry _ _ _ _ Hcounted). split; [reflexivity|].
        apply occurrences_pos. now left. }
      rewrite Forall_forall in Hall. specialize (Hall _ Hin). simpl in Hall.
      assert (0 < occurrences k0 (k0 :: ks0))
        by (apply occurrences_pos; now left).
      lia. }
    assert (Hkc : c = occurrences k (monthKeys rd) /\ 0 < c).
    { apply (counted_entry _ _ _ _ Hcounted). rewrite Ho.
      apply in_or_app. right. now left. }
    destruct Hkc as [Hc Hpos].
    destruct (Hmonth k) as (m & ->).
    { apply occurrences_pos. now rewrite <- Hc. }
    rewrite occurrences_monthKey in Hc.
    exists m.
    assert (Hlen0 : (Z.of_nat (List.length rd) =? 0) = false).
    { apply Z.eqb_neq. destruct rd; [congruence | simpl; lia]. }
    rewrite Hlen0. unfold scanMonths, Js.Object_entries. rewrite Hscan.
    rewrite monthKey_parseInt.
    assert (Hnot : num_eqb (Some (Z.of_nat (month_index m))) (-1) = false).
    { simpl. apply Z.eqb_neq. lia. }
    rewrite Hnot, monthName_index, <- Hc.
    split; [reflexivity|]. split; [exact Hpos|].
    intros m'. rewrite <- occurrences_monthKey.
    set (c' := occurrences (monthKey m') (monthKeys rd)).
    destruct (Z_lt_le_dec 0 c') as [Hpos' | Hzero]; [|split; lia].
    assert (Hin : In (monthKey m', c') o).
    { apply (counted_entry _ _ _ _ Hcounted). now split. }
    rewrite Ho in Hin. apply in_app_or in Hin.
    destruct Hin as [Hin | [Heq | Hin]].
    + rewrite Forall_forall in H1. specialize (H1 _ Hin). simpl in H1.
      split; lia.
    + injection Heq as Hk Hcc. split; [lia|]. intros _.
      apply String.eqb_eq in Hk. rewrite monthKey_eqb in Hk.
      apply Nat.eqb_eq in Hk. lia.
    + rewrite Forall_forall in H2. pose proof (H2 _ Hin) as Hle.
      simpl in Hle. split; [lia|]. intros _.
      rewrite Ho, map_app in Hsorted. simpl in Hsorted.
      apply StronglySorted_after in Hsorted.
      rewrite Forall_forall in Hsorted.
      destruct (Hsorted (monthKey m')) as (i & j & Hi & Hj & Hlt).
      { apply in_map_iff. now exists (monthKey m', c'). }
      rewrite monthKey_index in Hi, Hj.
      injection Hi as <-. injection Hj as <-. lia.
Qed.

(** C5. Over the read list of an upload, [peakMonth] is "-" when the list
    is empty; otherwise it names the month in which the most records were
    read (by their [dateRead], after the backfill) together with that
    count, and among months that reach the same, largest count it names
    the one with the lowest month number. *)
Theorem peakMonth_busiest_month (st : AppState) (books : list BookData) :
  readData st = readIn2025 books ->
  (readData st = [] -> peakMonth st = "-") /\
  (readData st <> [] ->
   exists m : Month,
     peakMonth st
     = (nth (month_index m) monthNames "" ++ " ("
          ++ Js.string_of_Z (monthCount m (readData st)) ++ " BUKU)")%string /\
     0 < monthCount m (readData st) /\
     forall m',
       monthCount m' (readData st) <= monthCount m (readData st) /\
       (monthCount m' (readData st) = monthCount m (readData st) ->
        (month_index m <= month_index m')%nat)).
Proof.
  intros Hrd. apply getMostActiveMonth_dated.
  apply Forall_forall. intros b Hb. rewrite Hrd in Hb.
  now apply readIn2025_dated with books.
Qed.

Lemma peakMonth_busiest_month_witness :
  peakMonth (state_of (readIn2025 [addedInMarch]) 0) = "MARET (1 BUKU)".
Proof.
  destruct (peakMonth_busiest_month (state_of (readIn2025 [addedInMarch]) 0)
              [addedInMarch] eq_refl) as [_ H].
  destruct H as (m & Hpeak & Hpos & _); [discriminate|].
  rewrite Hpeak.
  destruct m; try reflexivity; exfalso; vm_compute in Hpos; discriminate.
Defined.

(** ** The backfill of the read date *)

Lemma readIn2025_app (l1 l2 : list BookData) :
  readIn2025 (l1 ++ l2) = (readIn2025 l1 ++ readIn2025 l2)%list.
Proof. unfold readIn2025. now rewrite filter_app, map_app. Qed.

Lemma readIn2025_cons (b : BookData) (l : list BookData) :
  readIn2025 (b :: l)
  = if readFilter b then backfill b :: readIn2025 l else readIn2025 l.
Proof. unfold readIn2025. simpl. now destruct (readFilter b). Qed.

Lemma readFilter_undated (b : BookData) :
  shelf b = Some "read" -> dateRead b = None ->
  readFilter b = in2025 (dateAdded b).
Proof.
  unfold readFilter. intros -> ->. simpl. now destruct (in2025 (dateAdded b)).
Qed.

Lemma backfill_undated (b : BookData) (d : JsDate) :
  dateRead b = None -> dateAdded b = Some d -> backfill b = with_dateRead d b.
Proof.
  destruct b as [t a p r dr da s]. simpl. intros -> ->. reflexivity.
Qed.

Lemma monthCount_app (m : Month) (l1 l2 : list BookData) :
  monthCount m (l1 ++ l2) = monthCount m l1 + monthCount m l2.
Proof.
  unfold monthCount. rewrite filter_app, length_app. lia.
Qed.

Lemma monthCount_nonneg (m : Month) (l : list BookData) : 0 <= monthCount m l.
Proof. unfold monthCount. lia. Qed.

Lemma month_index_inj (m m' : Month) :
  month_index m = month_index m' -> m = m'.
Proof. destruct m, m'; intros H; first [reflexivity | discriminate H]. Qed.

Lemma monthCount_other (m m' : Month) (d : nat) (b : BookData) :
  m' <> m -> monthCount m' [with_dateRead (ValidDate 2025 m d) b] = 0.
Proof.
  intros Hne. unfold monthCount, readInMonth. simpl.
  destruct (Nat.eqb_spec (month_index m') (month_index m)) as [E | _];
    [|reflexivity].
  apply month_index_inj in E. contradiction.
Qed.

(** C1. A record on the read shelf that has no [dateRead] and was added in
    2025 is kept in the read list, in its place, with its [dateRead] set
    to its [dateAdded], and [peakMonth] counts it under the month of
    [dateAdded]: that month's count is one more than over the other
    records, the counts of the other months are what they are over the
    other records, the month that [peakMonth] names has at least that
    count, and when no month has more of the other records than the
    month of [dateAdded], [peakMonth] names this month, with one more
    than it has of the other records.  A record on the read shelf with
    neither date is left out of the read list. *)
Theorem undated_read_book_backfilled (l1 l2 : list BookData) (b : BookData) :
  shelf b = Some "read" ->
  dateRead b = None ->
  (forall m day,
     dateAdded b = Some (ValidDate 2025 m day) ->
     let d := ValidDate 2025 m day in
     let rd := readIn2025 (l1 ++ b :: l2) in
     let others := readIn2025 (l1 ++ l2) in
     rd = (readIn2025 l1 ++ with_dateRead d b :: readIn2025 l2)%list /\
     In (with_dateRead d b) rd /\
     dateRead (with_dateRead d b) = dateAdded b /\
     monthCount m rd = monthCount m others + 1 /\
     Js.obj_get (countMonths rd) (monthKey m) = Some (monthCount m rd) /\
     (forall m', m' <> m -> monthCount m' rd = monthCount m' others) /\
     forall st,
       readData st = rd ->
       (exists m0,
          peakMonth st
          = (nth (month_index m0) monthNames "" ++ " ("
               ++ Js.string_of_Z (monthCount m0 rd) ++ " BUKU)")%string /\
          monthCount m others + 1 <= monthCount m0 rd) /\
       ((forall m', monthCount m' others <= monthCount m others) ->
        peakMonth st
        = (nth (month_index m) monthNames "" ++ " ("
             ++ Js.string_of_Z (monthCount m others + 1) ++ " BUKU)")%string)) /\
  (dateAdded b = None ->
   readIn2025 (l1 ++ b :: l2) = (readIn2025 l1 ++ readIn2025 l2)%list /\
   ~ In b (readIn2025 (l1 ++ b :: l2))).
Proof.
  intros Hshelf Hread. split.
  - intros m day Hadded d rd others.
    assert (Hrd : rd = (readIn2025 l1 ++ with_dateRead d b :: readIn2025 l2)%list).
    { subst rd. rewrite readIn2025_app, readIn2025_cons.
      rewrite (readFilter_undated b Hshelf Hread).
      rewrite (backfill_undated b d Hread Hadded). now rewrite Hadded. }
    assert (Hsplit : forall m',
               monthCount m' rd
               = monthCount m' others + monthCount m' [with_dateRead d b]).
    { intros m'. subst others. rewrite Hrd, readIn2025_app, !monthCount_app.
      change (with_dateRead d b :: readIn2025 l2)
        with ([with_dateRead d b] ++ readIn2025 l2)%list.
      rewrite monthCount_app. lia. }
    assert (Hcount : monthCount m rd = monthCount m others + 1).
    { rewrite Hsplit.
      assert (H1 : monthCount m [with_dateRead d b] = 1).
      { unfold monthCount, readInMonth. simpl. now rewrite Nat.eqb_refl. }
      lia. }
    assert (Hother : forall m', m' <> m ->
               monthCount m' rd = monthCount m' others).
    { intros m' Hne. rewrite Hsplit. subst d.
      rewrite (monthCount_other m m' day b Hne). lia. }
    split; [exact Hrd|]. split; [|split; [|split; [|split; [|split]]]].
    + rewrite Hrd. apply in_or_app. right. now left.
    + simpl. now rewrite Hadded.
    + exact Hcount.
    + rewrite countMonths_tally.
      destruct (tally_counted (monthKeys rd)) as (Hget & _).
      rewrite Hget, occurrences_monthKey.
      pose proof (monthCount_nonneg m others) as Hpos.
      destruct (0 <? monthCount m rd) eqn:E; [reflexivity|].
      apply Z.ltb_ge in E. lia.
    + exact Hother.
    + intros st Hst.
      assert (Hdated : Forall (fun x => dated2025 (dateRead x)) (readData st)).
      { apply Forall_forall. intros x Hx. rewrite Hst in Hx.
        now apply readIn2025_dated with (l1 ++ b :: l2)%list. }
      assert (Hne : readData st <> []).
      { rewrite Hst, Hrd. intros E. symmetry in E.
        now apply app_cons_not_nil in E. }
      destruct (getMostActiveMonth_dated st Hdated) as [_ Hpeak].
      destruct (Hpeak Hne) as (m0 & Hname & _ & Hmax).
      rewrite Hst in Hname, Hmax. split.
      * exists m0. split; [exact Hname|].
        destruct (Hmax m) as [Hle _]. lia.
      * intros Hbusiest.
        assert (Hm0 : m0 = m).
        { destruct (Nat.eq_dec (month_index m0) (month_index m)) as [E | E].
          - now apply month_index_inj.
          - exfalso.
            assert (Hne0 : m0 <> m) by (intros ->; now apply E).
            destruct (Hmax m) as [Hle _].
            rewrite (Hother m0 Hne0), Hcount in Hle.
            specialize (Hbusiest m0). lia. }
        rewrite Hname, Hm0, Hcount. reflexivity.
  - intros Hadded. split.
    + rewrite readIn2025_app, readIn2025_cons.
      rewrite (readFilter_undated b Hshelf Hread). now rewrite Hadded.
    + intros Hin. apply readIn2025_dated in Hin.
      destruct Hin as (m & day & Hd). congruence.
Qed.

Lemma undated_read_book_backfilled_witness :
  readIn2025 [addedInMarch]
  = [with_dateRead (ValidDate 2025 March 10) addedInMarch]
  /\ Js.obj_get (countMonths (readIn2025 [addedInMarch])) (monthKey March)
     = Some 1
  /\ peakMonth (state_of (readIn2025 [addedInMarch]) 0) = "MARET (1 BUKU)".
Proof.
  destruct (undated_read_book_backfilled [] [] addedInMarch eq_refl eq_refl)
    as [H _].
  destruct (H March 10%nat eq_refl) as (H1 & _ & _ & _ & H5 & _ & H7).
  split; [exact H1|]. split; [exact H5|].
  destruct (H7 (state_of (readIn2025 [addedInMarch]) 0) eq_refl) as [_ Hpeak].
  rewrite Hpeak; [reflexivity|].
  intros m'. apply Z.le_refl.
Defined.

(** ** Trimming and cutting *)

Lemma trim_start_head (s : string) (c : ascii) :
  first_char (Js.trim_start s) = Some c -> Js.is_white_space c = false.
Proof.
  induction s as [|x r IH]; simpl; [discriminate|].
  destruct (Js.is_white_space x) eqn:E; [exact IH|].
  simpl. now intros [= <-].
Qed.

Lemma trim_start_fixed (s : string) :
  (forall c, first_char s = Some c -> Js.is_white_space c = false) ->
  Js.trim_start s = s.
Proof.
  destruct s as [|x r]; simpl; [reflexivity|]. intros H.
  now rewrite (H x eq_refl).
Qed.

Lemma trim_start_blank (s : string) :
  Js.trim_start s = "" <-> blank s = true.
Proof.
  induction s as [|x r IH]; simpl; [tauto|].
  destruct (Js.is_white_space x); simpl; [exact IH|].
  split; discriminate.
Qed.

Lemma trim_end_empty (s : string) :
  Js.trim_end s = "" <-> blank s = true.
Proof.
  induction s as [|x r IH]; simpl; [tauto|].
  destruct (Js.is_white_space x); simpl.
  - destruct (String.eqb_spec (Js.trim_end r) "") as [E | E].
    + split; [intros _; now apply IH | reflexivity].
    + split; [discriminate | intros H; apply IH in H; contradiction].
  - split; discriminate.
Qed.

Lemma trim_end_idempotent (s : string) :
  Js.trim_end (Js.trim_end s) = Js.trim_end s.
Proof.
  induction s as [|x r IH]; [reflexivity|].
  cbn [Js.trim_end].
  destruct (Js.is_white_space x && String.eqb (Js.trim_end r) "") eqn:E;
    [reflexivity|].
  cbn [Js.trim_end]. rewrite IH, E. reflexivity.
Qed.

Lemma trim_end_head (s : string) :
  first_char (Js.trim_end s) = None \/ first_char (Js.trim_end s) = first_char s.
Proof.
  destruct s as [|x r]; [now left|]. cbn [Js.trim_end].
  destruct (Js.is_white_space x && String.eqb (Js.trim_end r) "");
    [now left | now right].
Qed.

Lemma trim_end_last (s : string) (c : ascii) :
  last_char (Js.trim_end s) = Some c -> Js.is_white_space c = false.
Proof.
  induction s as [|x r IH]; [discriminate|]. cbn [Js.trim_end].
  destruct (String.eqb_spec (Js.trim_end r) "") as [E | E].
  - rewrite E. destruct (Js.is_white_space x) eqn:Ex; simpl; [discriminate|].
    now intros [= <-].
  - rewrite andb_false_r. simpl.
    destruct (Js.trim_end r) as [|y t] eqn:Er; [congruence|]. exact IH.
Qed.

(** Trimming gives the empty text exactly for white space. *)
Lemma trim_blank (s : string) : Js.trim s = "" <-> blank s = true.
Proof.
  unfold Js.trim. split.
  - intros H. apply trim_end_empty in H.
    destruct (Js.trim_start s) as [|x r] eqn:E; [now apply trim_start_blank|].
    assert (Hx : Js.is_white_space x = false).
    { apply (trim_start_head s). now rewrite E. }
    simpl in H. rewrite Hx in H. discriminate.
  - intros H. apply trim_start_blank in H. now rewrite H.
Qed.

Lemma trim_head (s : string) (c : ascii) :
  first_char (Js.trim s) = Some c -> Js.is_white_space c = false.
Proof.
  unfold Js.trim. intros H.
  destruct (trim_end_head (Js.trim_start s)) as [E | E]; [congruence|].
  rewrite E in H. now apply trim_start_head with s.
Qed.

Lemma trim_idempotent (s : string) : Js.trim (Js.trim s) = Js.trim s.
Proof.
  unfold Js.trim at 1. rewrite trim_start_fixed.
  - unfold Js.trim. apply trim_end_idempotent.
  - apply trim_head.
Qed.

Lemma occurs_trim_start (c : ascii) (s : string) :
  occurs c (Js.trim_start s) = true -> occurs c s = true.
Proof.
  induction s as [|x r IH]; simpl; [discriminate|].
  destruct (Js.is_white_space x); [|exact (fun H => H)].
  intros H. rewrite (IH H). apply orb_true_r.
Qed.

Lemma occurs_trim_end (c : ascii) (s : string) :
  occurs c (Js.trim_end s) = true -> occurs c s = true.
Proof.
  induction s as [|x r IH]; [discriminate|]. cbn [Js.trim_end].
  destruct (Js.is_white_space x && String.eqb (Js.trim_end r) "");
    [discriminate|].
  simpl. destruct (Ascii.eqb x c); [reflexivity|]. exact IH.
Qed.

Lemma split_head_free (sep : ascii) (s : string) :
  occurs sep (Js.split_head sep s) = false.
Proof.
  induction s as [|x r IH]; [reflexivity|]. simpl.
  destruct (Ascii.eqb x sep) eqn:E; [reflexivity|].
  simpl. now rewrite E.
Qed.

Lemma split_head_fixed (sep : ascii) (s : string) :
  occurs sep s = false -> Js.split_head sep s = s.
Proof.
  induction s as [|x r IH]; [reflexivity|]. simpl.
  destruct (Ascii.eqb x sep); [discriminate|]. simpl.
  intros H. now rewrite IH.
Qed.

(** ** The author ranking *)

Lemma compareCounts_before (a b : string * Z) :
  Qle_bool (compareCounts a b) 0 = true <-> snd b <= snd a.
Proof.
  unfold compareCounts. rewrite Qle_bool_iff. unfold Qle; simpl. lia.
Qed.

Lemma entries_by_key (f : string -> Z) (es : list (string * Z)) :
  (forall k c, In (k, c) es -> c = f k) ->
  es = map (fun k => (k, f k)) (map fst es).
Proof.
  induction es as [|[k c] es IH]; intros H; [reflexivity|].
  simpl. rewrite <- IH.
  - now rewrite (H k c (or_introl eq_refl)).
  - intros k' c' Hin. apply H. now right.
Qed.

Lemma trim_start_app_blank (pre s : string) :
  blank pre = true -> Js.trim_start (pre ++ s) = Js.trim_start s.
Proof.
  induction pre as [|x r IH]; [reflexivity|]. simpl.
  intros H. apply andb_true_iff in H. destruct H as [-> H]. now apply IH.
Qed.

Lemma trim_end_app_blank (s post : string) :
  blank post = true -> Js.trim_end (s ++ post) = Js.trim_end s.
Proof.
  intros H. induction s as [|x r IH].
  - simpl. now apply trim_end_empty.
  - cbn [append Js.trim_end]. now rewrite IH.
Qed.

Lemma trim_end_fixed (s : string) :
  (forall c, last_char s = Some c -> Js.is_white_space c = false) ->
  Js.trim_end s = s.
Proof.
  induction s as [|x r IH]; [reflexivity|]. intros H. cbn [Js.trim_end].
  destruct r as [|y t].
  - simpl. now rewrite (H x eq_refl).
  - rewrite IH by exact H. now rewrite andb_false_r.
Qed.

Lemma split_head_app (sep : ascii) (name rest : string) :
  occurs sep name = false ->
  Js.split_head sep (name ++ String sep rest) = name.
Proof.
  induction name as [|x r IH]; simpl.
  - now rewrite Ascii.eqb_refl.
  - destruct (Ascii.eqb x sep); [discriminate|]. simpl.
    intros H. now rewrite IH.
Qed.

(** The key under which an author is counted. *)
Lemma cleanAuthor_key :
  (forall name rest,
     occurs "("%char name = false ->
     cleanAuthor name = Js.trim name /\
     cleanAuthor (name ++ String "(" rest) = Js.trim name) /\
  (forall pre core post,
     blank pre = true -> blank post = true ->
     (forall c, first_char core = Some c -> Js.is_white_space c = false) ->
     (forall c, last_char core = Some c -> Js.is_white_space c = false) ->
     Js.trim (pre ++ core ++ post) = core).
Proof.
  split.
  - intros name rest Hfree. unfold cleanAuthor.
    split; [rewrite split_head_fixed by exact Hfree
           | rewrite split_head_app by exact Hfree]; reflexivity.
  - intros pre core post Hpre Hpost Hfirst Hlast. unfold Js.trim.
    rewrite trim_start_app_blank by exact Hpre.
    destruct core as [|x r].
    + simpl. apply trim_start_blank in Hpost. now rewrite Hpost.
    + cbn [append Js.trim_start]. rewrite (Hfirst x eq_refl).
      change (String x (r ++ post)) with (String x r ++ post).
      rewrite trim_end_app_blank by exact Hpost.
      now apply trim_end_fixed.
Qed.

(** *** Tables of numbers *)

Lemma obj_get_numbers (o : Js.JsObject Z) (k : string) :
  Js.obj_get (numbers o) k = option_map Js.VNumber (Js.obj_get o k).
Proof.
  induction o as [|[k0 v0] o IH]; simpl; [reflexivity|].
  now destruct (String.eqb k0 k).
Qed.

Lemma obj_update_numbers (o : Js.JsObject Z) (k : string) (v : Z) :
  Js.obj_update k (Js.VNumber v) (numbers o) = numbers (Js.obj_update k v o).
Proof.
  induction o as [|[k0 v0] o IH]; simpl; [reflexivity|].
  destruct (String.eqb k0 k); simpl; [reflexivity|].
  f_equal. exact IH.
Qed.

Lemma obj_add_index_numbers (o : Js.JsObject Z) (i : Z) (k : string) (v : Z) :
  Js.obj_add_index i k (Js.VNumber v) (numbers o)
  = numbers (Js.obj_add_index i k v o).
Proof.
  induction o as [|[k0 v0] o IH]; simpl; [reflexivity|].
  destruct (Js.array_index k0) as [j|]; [|reflexivity].
  destruct (j <? i); simpl; [|reflexivity].
  f_equal. exact IH.
Qed.

Lemma obj_set_numbers (o : Js.JsObject Z) (k : string) (v : Z) :
  Js.obj_set k (Js.VNumber v) (numbers o) = numbers (Js.obj_set k v o).
Proof.
  unfold Js.obj_set. rewrite obj_get_numbers.
  destruct (Js.obj_get o k); cbn [option_map].
  - apply obj_update_numbers.
  - destruct (Js.array_index k).
    + apply obj_add_index_numbers.
    + unfold numbers. now rewrite map_app.
Qed.

(** Under a key that [Object.prototype] does not have, the author table
    counts like a table of numbers. *)
Lemma countAuthor_increment (o : Js.JsObject Z) (k : string) :
  Js.inherited k = false ->
  countAuthor k (numbers o) = numbers (increment k o).
Proof.
  intros Hk. unfold countAuthor, Js.assign, Js.plus_one, increment.
  assert (Hproto : String.eqb k "__proto__" = false).
  { destruct (String.eqb_spec k "__proto__") as [-> | _]; [|reflexivity].
    discriminate. }
  rewrite Hproto, obj_get_numbers, Hk.
  destruct (Js.obj_get o k) as [c|]; cbn [option_map Js.or_zero];
    apply obj_set_numbers.
Qed.

Lemma countAuthors_tally (books : list BookData) :
  forall (names : list string) (o : Js.JsObject Z),
    map author books = map Some names ->
    Forall (fun k => Js.inherited k = false) (map cleanAuthor names) ->
    countAuthors books (numbers o)
    = Some (numbers (tally (map cleanAuthor names) o)).
Proof.
  induction books as [|b books IH]; intros [|n names] o H Hkeys;
    try discriminate; [reflexivity|].
  simpl in H. injection H as Hb Hrest.
  inversion Hkeys as [|? ? Hn Hnames]; subst.
  simpl. rewrite Hb, (countAuthor_increment _ _ Hn). now apply IH.
Qed.

Lemma numbers_all_numbers (es : list (string * Z)) :
  forallb (fun e => Js.is_number (snd e)) (numbers es) = true.
Proof. induction es as [|e es IH]; [reflexivity | exact IH]. Qed.

Lemma sort_numbers (es : list (string * Z)) :
  Js.sort (fun a b => Js.or_zeroQ (compareEntries a b)) (numbers es)
  = numbers (Js.sort compareCounts es).
Proof.
  unfold Js.sort. induction es as [|e es IH]; [reflexivity|].
  cbn [numbers map fold_right]. fold (numbers es). rewrite IH.
  generalize (fold_right (Js.sort_insert compareCounts) [] es). intros l.
  induction l as [|y l IHl]; [reflexivity|].
  cbn [numbers map Js.sort_insert]. fold (numbers l).
  change (Js.or_zeroQ (compareEntries (fst e, Js.VNumber (snd e))
                         (fst y, Js.VNumber (snd y))))
    with (compareCounts e y).
  destruct (Qle_bool (compareCounts e y) 0); [reflexivity|].
  now rewrite IHl.
Qed.

Lemma topAuthors_numbers (st : AppState) (es : list (string * Z)) :
  authorCounts st = Some (numbers es) ->
  topAuthors st = Some (numbers (firstn 5 (Js.sort compareCounts es))).
Proof.
  intros H. unfold topAuthors, Js.Object_entries, Js.slice0. rewrite H.
  rewrite numbers_all_numbers, sort_numbers. unfold numbers.
  cbn [orb]. now rewrite firstn_map.
Qed.

(** C8 (as stated, refuted). Bob is read first and an author named "7"
    second, once each; the table enumerates the key "7" first, so the
    ranking starts with "7" and not with Bob.  And of three books, two by
    Bob and one by an author named "constructor", the latter is not
    counted: the table finds the inherited member under that key and
    stores a text, and the sort is left without a consistent order. *)
Lemma topAuthors_numbered_author_first :
  topAuthors numberedAuthor = Some (numbers [("7", 1); ("Bob", 1)])
  /\ spec_topAuthors ["Bob"; "7"] = [("Bob", 1); ("7", 1)]
  /\ topAuthors numberedAuthor
     <> Some (numbers (spec_topAuthors ["Bob"; "7"]))
  /\ authorCounts constructorAuthor
     = Some [("Bob", Js.VNumber 2);
             ("constructor", Js.VText "constructor" 1)]
  /\ Js.to_string (Js.VText "constructor" 1)
     = "function Object() { [native code] }1"
  /\ spec_topAuthors ["Bob"; "constructor"; "Bob"]
     = [("Bob", 2); ("constructor", 1)]
  /\ topAuthors constructorAuthor = None.
Proof.
  repeat split. discriminate.
Qed.

(** Books by an author called "__proto__" leave no entry in the table:
    the assignment goes to the inherited setter.  A lone author called
    "constructor" is ranked, with a text for a count. *)
Example inherited_author_names :
  authorCounts protoAuthor = Some [("Bob", Js.VNumber 1)] /\
  topObsession protoAuthor = Some "Bob" /\
  topAuthors
    (state_of [sampleBook "One" "constructor" 100 0 None None "read"] 0)
  = Some [("constructor", Js.VText "constructor" 1)].
Proof. repeat split. Qed.

(** C8 (amended). When every record carries an author and no author key
    is the name of a member of [Object.prototype], [topAuthors] counts
    the records under the author's name cut at the first "(" and trimmed
    of the white space around it, so that "A. Nguyen (Goodreads Author)"
    and "A. Nguyen" share the entry "A. Nguyen"; the entries are ranked by
    count, largest first, by a stable sort, and the first five are kept.
    Entries with equal counts keep the order in which the table
    enumerates its keys: names that are array indices first, in ascending
    numeric order, then the other names in order of first appearance.
    When no name is an array index this is the order of first appearance
    throughout. *)
Theorem topAuthors_ranking (st : AppState) (names : list string) :
  map author (readData st) = map Some names ->
  let keys := map cleanAuthor names in
  Forall (fun k => Js.inherited k = false) keys ->
  (forall name rest,
     occurs "("%char name = false ->
     cleanAuthor name = Js.trim name /\
     cleanAuthor (name ++ String "(" rest) = Js.trim name) /\
  (forall pre core post,
     blank pre = true -> blank post = true ->
     (forall c, first_char core = Some c -> Js.is_white_space c = false) ->
     (forall c, last_char core = Some c -> Js.is_white_space c = false) ->
     Js.trim (pre ++ core ++ post) = core) /\
  cleanAuthor "A. Nguyen (Goodreads Author)" = "A. Nguyen" /\
  cleanAuthor "A. Nguyen" = "A. Nguyen" /\
  exists entries ranked,
    authorCounts st = Some (numbers entries) /\
    (forall k c, In (k, c) entries <-> c = occurrences k keys /\ 0 < c) /\
    NoDup (map fst entries) /\
    (exists idx rest,
       entries = (idx ++ rest)%list /\
       Forall (fun k => is_index k = true) (map fst idx) /\
       StronglySorted index_lt (map fst idx) /\
       map fst rest = first_occurrences (nameKeys keys)) /\
    Permutation ranked entries /\
    StronglySorted (fun a b => snd b <= snd a) ranked /\
    (forall c,
       filter (fun e => snd e =? c) ranked
       = filter (fun e => snd e =? c) entries) /\
    topAuthors st = Some (numbers (firstn 5 ranked)) /\
    (nameKeys keys = keys ->
     topAuthors st = Some (numbers (spec_topAuthors names))).
Proof.
  intros Hauthors keys Hown.
  destruct cleanAuthor_key as [Hcut Htrim].
  split; [exact Hcut|]. split; [exact Htrim|].
  split; [reflexivity|]. split; [reflexivity|].
  set (entries := tally keys []).
  assert (Hcount : authorCounts st = Some (numbers entries)).
  { unfold authorCounts. now apply (countAuthors_tally _ names []). }
  pose proof (tally_counted keys) as Hcounted. fold entries in Hcounted.
  pose proof Hcounted as (Hget & Hnd & ki & Hkeys & Hidx & Hsorted).
  pose proof (topAuthors_numbers st entries Hcount) as Htop.
  exists entries, (Js.sort compareCounts entries).
  split; [exact Hcount|]. split; [|split; [exact Hnd|]].
  { intros k c. now apply counted_entry. }
  split; [|split; [|split; [|split; [|split]]]].
  - exists (firstn (List.length ki) entries), (skipn (List.length ki) entries).
    split; [now rewrite firstn_skipn|].
    assert (H1 : map fst (firstn (List.length ki) entries) = ki).
    { rewrite <- firstn_map, Hkeys, firstn_app, Nat.sub_diag, firstn_all.
      simpl. now rewrite app_nil_r. }
    assert (H2 : map fst (skipn (List.length ki) entries)
                 = first_occurrences (nameKeys keys)).
    { rewrite <- skipn_map, Hkeys, skipn_app, Nat.sub_diag, skipn_all.
      reflexivity. }
    rewrite H1, H2. now repeat split.
  - apply sort_perm.
  - apply StronglySorted_impl
      with (R := fun x y => Qle_bool (compareCounts x y) 0 = true).
    + intros x y. apply compareCounts_before.
    + apply sort_sorted.
      * intros x y H. apply compareCounts_before.
        rewrite compareCounts_before in H. lia.
      * intros x y z. rewrite !compareCounts_before. lia.
  - intros c. apply sort_filter. intros x y Hx Hy.
    apply Z.eqb_eq in Hx, Hy. apply compareCounts_before. lia.
  - exact Htop.
  - intros Hnames. rewrite Htop. unfold spec_topAuthors. fold keys.
    do 4 f_equal.
    assert (Hki : ki = []).
    { destruct ki as [|k0 ki']; [reflexivity|]. exfalso.
      inversion Hidx as [|? ? Hk0 _]; subst.
      assert (Hin : In k0 (map fst entries)) by (rewrite Hkeys; now left).
      apply in_map_iff in Hin. destruct Hin as ([k c] & <- & Hin). simpl in Hk0.
      apply (counted_entry _ _ _ _ Hcounted) in Hin. destruct Hin as [-> Hpos].
      apply occurrences_pos in Hpos. rewrite <- Hnames in Hpos.
      apply nameKeys_In in Hpos. destruct Hpos as [_ Hno]. congruence. }
    rewrite Hki, Hnames in Hkeys. simpl in Hkeys. rewrite <- Hkeys.
    apply entries_by_key. intros k c Hin.
    now apply (counted_entry _ _ _ _ Hcounted) in Hin.
Qed.

Lemma topAuthors_ranking_witness :
  topAuthors nguyenTwice = Some [("A. Nguyen", Js.VNumber 2)].
Proof.
  destruct (topAuthors_ranking nguyenTwice
              ["A. Nguyen (Goodreads Author)"; "A. Nguyen"] eq_refl)
    as (_ & _ & _ & _ & entries & ranked & _ & _ & _ & _ & _ & _ & _ & _ & H).
  - repeat constructor.
  - rewrite H; reflexivity.
Defined.

(** * Further properties of the pipeline *)

(** ** The read list *)

Lemma readFilter_shelf (b : BookData) :
  readFilter b = true -> shelf b = Some "read".
Proof.
  unfold readFilter. destruct (str_eqb (shelf b) "read") eqn:E; simpl.
  - intros _. now apply str_eqb_iff.
  - discriminate.
Qed.

Lemma backfill_same (b : BookData) : same_but_dateRead (backfill b) b.
Proof.
  destruct b as [t a p r [dr|] [da|] s]; repeat split.
Qed.

Lemma backfill_dateRead (b : BookData) :
  dateRead (backfill b) = dateRead b
  \/ (dateRead b = None /\ dateRead (backfill b) = dateAdded b).
Proof.
  destruct b as [t a p r [dr|] [da|] s]; simpl; auto.
Qed.

Lemma read_record_kept (b : BookData) :
  shelf b = Some "read" -> dated2025 (dateRead b) ->
  readFilter b = true /\ backfill b = b.
Proof.
  intros Hs (m & day & Hd). unfold readFilter, backfill.
  rewrite Hs, Hd. split; reflexivity.
Qed.

Lemma readIn2025_shelf (books : list BookData) (b : BookData) :
  In b (readIn2025 books) -> shelf b = Some "read".
Proof.
  unfold readIn2025. rewrite in_map_iff. intros (b0 & <- & Hin).
  apply filter_In in Hin. destruct Hin as [_ Hf].
  apply readFilter_shelf in Hf.
  destruct (backfill_same b0) as (_ & _ & _ & _ & _ & Hs). congruence.
Qed.

(** X1. Every record of the read list is on the read shelf with a valid
    read date in 2025, and comes from a record of the input that agrees
    with it on every other field: its read date is the input's own, or
    the input had none and it is the input's [dateAdded].  The read list
    is never longer than the input. *)
Theorem readIn2025_sound (books : list BookData) :
  (forall b,
     In b (readIn2025 books) ->
     shelf b = Some "read" /\ dated2025 (dateRead b) /\
     exists b0,
       In b0 books /\ same_but_dateRead b b0 /\
       (dateRead b = dateRead b0
        \/ (dateRead b0 = None /\ dateRead b = dateAdded b0))) /\
  (List.length (readIn2025 books) <= List.length books)%nat.
Proof.
  split.
  - intros b Hb. split; [|split].
    + unfold readIn2025 in Hb. apply in_map_iff in Hb.
      destruct Hb as (b0 & <- & Hin). apply filter_In in Hin.
      destruct Hin as [_ Hf]. apply readFilter_shelf in Hf.
      destruct (backfill_same b0) as (_ & _ & _ & _ & _ & Hs). congruence.
    + now apply readIn2025_dated with books.
    + unfold readIn2025 in Hb. apply in_map_iff in Hb.
      destruct Hb as (b0 & <- & Hin). apply filter_In in Hin.
      exists b0. split; [tauto|]. split; [apply backfill_same|].
      apply backfill_dateRead.
  - unfold readIn2025. rewrite length_map. apply filter_length_le.
Qed.

Lemma readIn2025_sound_witness :
  shelf (with_dateRead (ValidDate 2025 March 10) addedInMarch) = Some "read"
  /\ dated2025
       (dateRead (with_dateRead (ValidDate 2025 March 10) addedInMarch)).
Proof.
  destruct (readIn2025_sound [addedInMarch]) as [H _].
  destruct (H (with_dateRead (ValidDate 2025 March 10) addedInMarch))
    as (H1 & H2 & _).
  - left. reflexivity.
  - split; [exact H1 | exact H2].
Defined.

(** X2. Filtering a read list again changes nothing: the filter and the
    backfill are idempotent. *)
Theorem readIn2025_idempotent (books : list BookData) :
  readIn2025 (readIn2025 books) = readIn2025 books.
Proof.
  assert (H : forall b, In b (readIn2025 books) ->
                        readFilter b = true /\ backfill b = b).
  { intros b Hb. apply read_record_kept.
    - now apply readIn2025_shelf with books.
    - now apply readIn2025_dated with books. }
  induction (readIn2025 books) as [|b l IH]; [reflexivity|].
  rewrite readIn2025_cons.
  destruct (H b (or_introl eq_refl)) as [-> ->].
  f_equal. apply IH. intros b' Hb'. apply H. now right.
Qed.

(** X3. No record is counted twice: the books read and the books added to
    the backlog are different rows, so together they never exceed the
    number of rows of the upload. *)
Theorem read_and_backlog_disjoint
    (newDate : string -> JsDate) (parseFloat : option string -> option Q)
    (rows : list RawRow) (source : Source) (st0 : AppState) :
  let st := processCSV newDate parseFloat rows source st0 in
  (forall b, readFilter b = true -> ~ is_backlog b) /\
  0 <= tbrCount st /\
  totalBooks st + tbrCount st <= Z.of_nat (List.length rows).
Proof.
  intros st.
  assert (Hdis : forall b, readFilter b = true -> ~ is_backlog b).
  { intros b Hb [Hs _]. apply readFilter_shelf in Hb. congruence. }
  split; [exact Hdis|].
  subst st. unfold processCSV, totalBooks. cbn [readData tbrCount].
  unfold readIn2025, addedToTbr2025, allBooks. rewrite length_map.
  split; [lia|].
  rewrite <- (length_map (parseRow newDate parseFloat source) rows).
  induction (map (parseRow newDate parseFloat source) rows) as [|b l IH];
    [simpl; lia|].
  cbn [filter].
  destruct (readFilter b) eqn:E1.
  - rewrite (backlog_test_false b (Hdis b E1)). cbn [List.length]. lia.
  - destruct (str_eqb (shelf b) "to-read" && in2025 (dateAdded b));
      cbn [List.length]; lia.
Qed.

(** X4. An empty Date Read cell is an absent date, so a finished Goodreads
    book added in 2025 is kept with the add date as its read date; a Date
    Read cell that holds text the date parser cannot read is an invalid
    date, which is present, so the same book is dropped whatever its Date
    Added. *)
Theorem unreadable_read_date_drops_book
    (newDate : string -> JsDate) (parseFloat : option string -> option Q)
    (row : RawRow) :
  row "Exclusive Shelf" = Some "read" ->
  (forall text,
     row "Date Read" = Some text -> text <> "" ->
     newDate text = InvalidDate ->
     readIn2025 [parseRow newDate parseFloat goodreads row] = []) /\
  (forall added m day,
     (row "Date Read" = None \/ row "Date Read" = Some "") ->
     row "Date Added" = Some added -> added <> "" ->
     newDate added = ValidDate 2025 m day ->
     readIn2025 [parseRow newDate parseFloat goodreads row]
     = [with_dateRead (ValidDate 2025 m day)
          (parseRow newDate parseFloat goodreads row)]).
Proof.
  intros Hshelf. split.
  - intros text Htext Hne Hbad. rewrite readIn2025_cons.
    unfold readFilter. cbn [parseRow shelf dateRead dateAdded].
    rewrite Hshelf, Htext. unfold date_or_null, Js.truthy.
    apply String.eqb_neq in Hne. rewrite Hne, Hbad. reflexivity.
  - intros added m day Hread Hadded Hne Hgood.
    set (b := parseRow newDate parseFloat goodreads row).
    assert (Hr : dateRead b = None).
    { subst b. cbn [parseRow dateRead].
      destruct Hread as [-> | ->]; reflexivity. }
    assert (Ha : dateAdded b = Some (ValidDate 2025 m day)).
    { subst b. cbn [parseRow dateAdded]. rewrite Hadded.
      unfold date_or_null, Js.truthy.
      apply String.eqb_neq in Hne. now rewrite Hne, Hgood. }
    assert (Hs : shelf b = Some "read") by exact Hshelf.
    rewrite readIn2025_cons, (readFilter_undated b Hs Hr).
    rewrite (backfill_undated b _ Hr Ha), Ha. reflexivity.
Qed.

Lemma unreadable_read_date_drops_book_witness :
  readIn2025 [parseRow marchDate noFloat goodreads garbledRow] = []
  /\ readIn2025 [parseRow marchDate noFloat goodreads undatedRow]
     = [with_dateRead (ValidDate 2025 March 10)
          (parseRow marchDate noFloat goodreads undatedRow)].
Proof.
  split.
  - destruct (unreadable_read_date_drops_book marchDate noFloat garbledRow
                eq_refl) as [H _].
    apply (H "someday"); [reflexivity | discriminate | reflexivity].
  - destruct (unreadable_read_date_drops_book marchDate noFloat undatedRow
                eq_refl) as [_ H].
    apply (H "2025/03/10" March 10%nat);
      [now right | reflexivity | discriminate | reflexivity].
Defined.

(** ** The thickest book, once more *)

Lemma thicker_pages (l : list BookData) (acc : BookSummary) :
  sum_pages (fold_left thicker l acc) = max_pages (sum_pages acc) l.
Proof.
  unfold max_pages. revert acc.
  induction l as [|b l IH]; intros acc; [reflexivity|].
  simpl. rewrite IH. f_equal. unfold thicker.
  destruct (pages b <? sum_pages acc) eqn:E.
  - apply Z.ltb_lt in E. lia.
  - apply Z.ltb_ge in E. simpl. lia.
Qed.

Lemma max_pages_bounds (l : list BookData) (m : Z) :
  m <= max_pages m l /\ Forall (fun b => pages b <= max_pages m l) l.
Proof.
  unfold max_pages. revert m.
  induction l as [|b l IH]; intros m; simpl.
  - split; [lia | constructor].
  - destruct (IH (Z.max m (pages b))) as [H1 H2]. split; [lia|].
    constructor; [lia | exact H2].
Qed.

(** X5. The page count shown for the thickest book is the largest of 0
    and the page counts of the read list: it is never negative and no
    read book has more pages. *)
Theorem thickestBook_pages_maximum (st : AppState) :
  sum_pages (thickestBook st) = max_pages 0 (readData st) /\
  0 <= sum_pages (thickestBook st) /\
  Forall (fun b => pages b <= sum_pages (thickestBook st)) (readData st).
Proof.
  assert (H : sum_pages (thickestBook st) = max_pages 0 (readData st)).
  { unfold thickestBook, Js.reduce. fold thicker. apply thicker_pages. }
  rewrite H. split; [reflexivity|]. apply max_pages_bounds.
Qed.

(** ** The book ranking, once more *)

Lemma sorted_head_first {A : Type} (R : A -> A -> Prop) (x : A)
    (l : list A) (y : A) :
  StronglySorted R (x :: l) -> In y l -> R x y.
Proof.
  intros H Hy. inversion H as [|? ? _ Hf]; subst.
  rewrite Forall_forall in Hf. now apply Hf.
Qed.

Lemma compareBooks_sorted (l : list BookData) :
  StronglySorted ranksBefore (Js.sort compareBooks l).
Proof.
  apply StronglySorted_impl
    with (R := fun x y => Qle_bool (compareBooks x y) 0 = true).
  - intros x y. apply compareBooks_before.
  - apply sort_sorted.
    + intros x y H. apply compareBooks_before, ranksBefore_total.
      now rewrite <- compareBooks_before.
    + intros x y z H1 H2. apply compareBooks_before.
      apply ranksBefore_trans with y; now apply compareBooks_before.
Qed.

(** X6. The first of the top books, the crowned one, is the best rated
    book of the read list and, among the books with that rating, one with
    the most pages; the list of top books is empty exactly when no read
    book has a rating above 0. *)
Theorem topBooks_crowned (st : AppState) :
  (topBooks st = [] <->
   forall b, In b (readData st) -> ~ (0 < rating b)%Q) /\
  (forall top rest,
     topBooks st = top :: rest ->
     In top (readData st) /\ (0 < rating top)%Q /\
     forall b,
       In b (readData st) -> (0 < rating b)%Q ->
       (rating b <= rating top)%Q /\
       (rating b == rating top -> pages b <= pages top)).
Proof.
  unfold topBooks, Js.slice0.
  set (rated := filter (fun b => Qlt_bool 0 (rating b)) (readData st)).
  assert (Hrated : forall b,
    In b rated <-> In b (readData st) /\ (0 < rating b)%Q).
  { intros b. subst rated. now rewrite filter_In, Qlt_bool_iff. }
  pose proof (sort_perm compareBooks rated) as Hperm.
  pose proof (compareBooks_sorted rated) as Hsorted.
  split.
  - split.
    + intros Hnil b Hb Hpos.
      assert (Hin : In b (Js.sort compareBooks rated)).
      { apply (Permutation_in _ (Permutation_sym Hperm)). now apply Hrated. }
      destruct (Js.sort compareBooks rated) as [|x l]; [exact Hin|].
      discriminate.
    + intros Hnone.
      destruct (Js.sort compareBooks rated) as [|x l] eqn:E; [reflexivity|].
      exfalso.
      assert (Hx : In x rated).
      { apply (Permutation_in _ Hperm). now left. }
      apply Hrated in Hx. destruct Hx as [Hx Hpos]. exact (Hnone x Hx Hpos).
  - intros top rest Htop.
    destruct (Js.sort compareBooks rated) as [|x l] eqn:E; [discriminate|].
    simpl in Htop. injection Htop as -> _.
    assert (Hx : In top rated) by (apply (Permutation_in _ Hperm); now left).
    apply Hrated in Hx. destruct Hx as [Hx Hpos].
    split; [exact Hx|]. split; [exact Hpos|].
    intros b Hb Hbpos.
    assert (Hin : In b (top :: l)).
    { apply (Permutation_in _ (Permutation_sym Hperm)). now apply Hrated. }
    assert (Hrank : ranksBefore top b).
    { destruct Hin as [<- | Hin].
      - right. split; [reflexivity | lia].
      - now apply (sorted_head_first _ _ _ _ Hsorted). }
    destruct Hrank as [Hlt | [Heq Hp]].
    + split; [now apply Qlt_le_weak|]. intros Heq. rewrite Heq in Hlt.
      exfalso. exact (Qlt_irrefl _ Hlt).
    + split; [rewrite Heq; apply Qle_refl | intros _; exact Hp].
Qed.

Lemma topBooks_crowned_witness :
  (0 < rating secondThick)%Q /\ (rating secondThick <= rating firstThick)%Q.
Proof.
  destruct (topBooks_crowned (state_of [firstThick; secondThick] 0))
    as [_ H].
  destruct (H firstThick [secondThick] eq_refl) as (_ & _ & Hb).
  destruct (Hb secondThick) as [H1 _].
  - right. now left.
  - reflexivity.
  - split; [reflexivity | exact H1].
Defined.

(** X7. Books that tie on both rating and pages keep the order of the
    read list in the ranking from which the top five are taken: the sort
    is stable. *)
Theorem topBooks_ties_keep_order (st : AppState) (r : Q) (p : Z) :
  let rated := filter (fun b => Qlt_bool 0 (rating b)) (readData st) in
  let tied := fun b => Qeq_bool (rating b) r && (pages b =? p) in
  topBooks st = firstn 5 (Js.sort compareBooks rated) /\
  filter tied (Js.sort compareBooks rated) = filter tied rated.
Proof.
  intros rated tied. split; [reflexivity|].
  apply sort_filter. intros x y Hx Hy. subst tied. simpl in Hx, Hy.
  apply andb_true_iff in Hx, Hy. destruct Hx as [Hx1 Hx2], Hy as [Hy1 Hy2].
  apply Qeq_bool_iff in Hx1, Hy1. apply Z.eqb_eq in Hx2, Hy2.
  apply compareBooks_before. right. split; [|lia].
  now rewrite Hx1, Hy1.
Qed.

(** ** Doubles *)

Lemma pow2_pos (e : Z) : (0 < 2 ^ e)%Q.
Proof. apply Qpower_0_lt. reflexivity. Qed.

Lemma pow2_neg (e : Z) :
  e <= 0 -> (2 ^ e == / inject_Z (2 ^ (- e)))%Q.
Proof.
  intros He. replace e with (- - e) at 1 by lia.
  rewrite Qpower_opp. apply Qinv_comp.
  rewrite Zpower_Qpower by lia. reflexivity.
Qed.

Lemma floor_log2_small (a : Q) :
  (0 < a)%Q -> (a < inject_Z (2 ^ 53))%Q -> Js.floor_log2 a <= 52.
Proof.
  intros Hpos Hlt. unfold Js.floor_log2.
  destruct a as [n d]. unfold Qlt in Hpos, Hlt. cbn [Qnum Qden inject_Z] in *.
  set (k := Z.log2 n - Z.log2 (Z.pos d)).
  assert (Hk : k <= 53).
  { assert (H : Z.log2 n <= Z.log2 (2 ^ 53 * Z.pos d)).
    { apply Z.log2_le_mono. lia. }
    rewrite Z.mul_comm, Z.log2_mul_pow2 in H by lia. lia. }
  destruct (Qle_bool (2 ^ k) (n # d)) eqn:E; [|lia].
  apply Qle_bool_iff in E.
  assert (H : (2 ^ k < 2 ^ 53)%Q).
  { apply Qle_lt_trans with (y := n # d); [exact E|].
    apply Qlt_le_trans with (y := inject_Z (2 ^ 53)).
    - unfold Qlt. cbn [Qnum Qden inject_Z]. lia.
    - apply Qle_bool_iff. vm_compute. reflexivity. }
  apply Qpower_lt_compat_l_inv in H; [lia | reflexivity].
Qed.

Lemma round_half_even_floor (x : Q) :
  Qfloor x <= Js.round_half_even x <= Qfloor x + 1.
Proof.
  unfold Js.round_half_even.
  destruct (Qcompare (x - inject_Z (Qfloor x)) (1 # 2));
    [destruct (Z.even (Qfloor x))|..]; lia.
Qed.

Lemma round_half_even_ge (x : Q) (z : Z) :
  (inject_Z z <= x)%Q -> z <= Js.round_half_even x.
Proof.
  intros H. apply Qfloor_resp_le in H. rewrite Qfloor_Z in H.
  pose proof (round_half_even_floor x). lia.
Qed.

Lemma round_half_even_le (x : Q) (z : Z) :
  (x <= inject_Z z)%Q -> Js.round_half_even x <= z.
Proof.
  intros H. pose proof (round_half_even_floor x) as Hf.
  assert (Hz : Qfloor x <= z).
  { apply Qfloor_resp_le in H. now rewrite Qfloor_Z in H. }
  destruct (Z.eq_dec (Qfloor x) z) as [E | E]; [|lia].
  unfold Js.round_half_even.
  assert (Hlt : (x - inject_Z (Qfloor x) < 1 # 2)%Q).
  { rewrite E. apply Qle_lt_trans with (y := 0%Q); [|reflexivity].
    generalize dependent (inject_Z z). intros q. intros. lra. }
  assert (Hc : Qcompare (x - inject_Z (Qfloor x)) (1 # 2) = Lt)
    by (apply Qlt_alt; exact Hlt).
  cbv zeta. rewrite Hc. lia.
Qed.

Lemma nearest_between (a : Q) (lo hi : Z) :
  (0 < a)%Q -> hi < 2 ^ 53 ->
  (inject_Z lo <= a)%Q -> (a <= inject_Z hi)%Q ->
  (inject_Z lo <= Js.nearest a)%Q /\ (Js.nearest a <= inject_Z hi)%Q.
Proof.
  intros Hpos Hhi Hlo Hup. unfold Js.nearest.
  assert (He : Js.binade a <= 0).
  { unfold Js.binade.
    assert (Js.floor_log2 a <= 52); [|lia].
    apply floor_log2_small; [exact Hpos|].
    apply Qle_lt_trans with (y := inject_Z hi); [exact Hup|].
    rewrite <- Zlt_Qlt. exact Hhi. }
  set (e := Js.binade a) in *.
  set (P := 2 ^ (- e)).
  assert (HP : 0 < P) by (subst P; apply Z.pow_pos_nonneg; lia).
  assert (HPQ : (0 < inject_Z P)%Q) by (rewrite <- (Zlt_Qlt 0); exact HP).
  assert (Hpow : (2 ^ e == / inject_Z P)%Q) by (now apply pow2_neg).
  assert (Hdiv : (a / 2 ^ e == a * inject_Z P)%Q).
  { rewrite Hpow. unfold Qdiv. rewrite Qinv_involutive. reflexivity. }
  set (m := Js.round_half_even (a / 2 ^ e)).
  assert (H1 : lo * P <= m).
  { apply round_half_even_ge. rewrite Hdiv, inject_Z_mult.
    apply Qmult_le_r; assumption. }
  assert (H2 : m <= hi * P).
  { apply round_half_even_le. rewrite Hdiv, inject_Z_mult.
    apply Qmult_le_r; assumption. }
  rewrite Hpow. split.
  - apply Qmult_le_r with (z := inject_Z P); [exact HPQ|].
    rewrite <- Qmult_assoc, (Qmult_comm (/ inject_Z P)), Qmult_inv_r, Qmult_1_r.
    + rewrite <- inject_Z_mult, <- Zle_Qle. exact H1.
    + intros E. rewrite E in HPQ. discriminate.
  - apply Qmult_le_r with (z := inject_Z P); [exact HPQ|].
    rewrite <- Qmult_assoc, (Qmult_comm (/ inject_Z P)), Qmult_inv_r, Qmult_1_r.
    + rewrite <- inject_Z_mult, <- Zle_Qle. exact H2.
    + intros E. rewrite E in HPQ. discriminate.
Qed.

(** Rounding to the nearest double does not cross an integer below 2^53:
    what lies between two such integers is rounded to a double between
    them. *)
Lemma double_between (q : Q) (lo hi : Z) :
  - 2 ^ 53 < lo -> hi < 2 ^ 53 ->
  (inject_Z lo <= q)%Q -> (q <= inject_Z hi)%Q ->
  (inject_Z lo <= Js.double q)%Q /\ (Js.double q <= inject_Z hi)%Q.
Proof.
  intros Hlo Hhi H1 H2. unfold Js.double.
  destruct (Qeq_bool q 0) eqn:E0.
  - apply Qeq_bool_iff in E0. rewrite E0 in H1, H2. now split.
  - apply Qeq_bool_neq in E0. rewrite Qred_correct.
    destruct (Qle_bool 0 q) eqn:Es.
    + apply Qle_bool_iff in Es.
      assert (Hpos : (0 < q)%Q).
      { apply Qnot_le_lt. intros H. apply E0. now apply Qle_antisym. }
      destruct (nearest_between q (Z.max lo 0) hi Hpos Hhi) as [N1 N2];
        [| exact H2 | ].
      { destruct (Z.max_spec lo 0) as [[_ ->] | [_ ->]];
          [exact Es | exact H1]. }
      split; [|exact N2].
      apply Qle_trans with (y := inject_Z (Z.max lo 0)); [|exact N1].
      rewrite <- Zle_Qle. lia.
    + assert (Hneg : (0 < - q)%Q).
      { assert (Hlt : (q < 0)%Q).
        { apply Qnot_le_lt. intros H. apply Qle_bool_iff in H. congruence. }
        lra. }
      destruct (nearest_between (- q) (Z.max (- hi) 0) (- lo) Hneg) as [N1 N2].
      * lia.
      * destruct (Z.max_spec (- hi) 0) as [[_ ->] | [_ ->]].
        -- change (inject_Z 0) with 0%Q. lra.
        -- rewrite inject_Z_opp. lra.
      * rewrite inject_Z_opp. lra.
      * rewrite inject_Z_opp in N2.
        assert (N3 : (inject_Z (- hi) <= Js.nearest (- q))%Q).
        { apply Qle_trans with (y := inject_Z (Z.max (- hi) 0)); [|exact N1].
          rewrite <- Zle_Qle. lia. }
        rewrite inject_Z_opp in N3.
        generalize dependent (Js.nearest (- q)). intros x. intros.
        generalize dependent (inject_Z lo). generalize dependent (inject_Z hi).
        intros. split; lra.
Qed.

(** An integer below 2^53 in magnitude is a double. *)
Lemma double_integer (z : Z) :
  - 2 ^ 53 < z < 2 ^ 53 -> Js.double (inject_Z z) = inject_Z z.
Proof.
  intros [H1 H2].
  destruct (double_between (inject_Z z) z z H1 H2) as [B1 B2];
    try apply Qle_refl.
  assert (Heq : (Js.double (inject_Z z) == inject_Z z)%Q)
    by now apply Qle_antisym.
  unfold Js.double in *.
  destruct (Qeq_bool (inject_Z z) 0) eqn:E0.
  - apply Qeq_bool_iff in E0. unfold Qeq in E0. simpl in E0.
    assert (z = 0) by lia. now subst z.
  - match goal with |- Qred ?X = _ => set (x := X) in * end.
    transitivity (Qred (inject_Z z)).
    + apply Qred_complete. rewrite <- (Qred_correct x). exact Heq.
    + apply Qcanon.Qred_identity. simpl. apply Z.gcd_1_r.
Qed.

Lemma pow2_nonzero (e : Z) : ~ (2 ^ e == 0)%Q.
Proof. intros E. pose proof (pow2_pos e) as H. rewrite E in H. discriminate. Qed.

Lemma pow2_Z (x : Z) : 0 <= x -> (2 ^ x == inject_Z (2 ^ x))%Q.
Proof. intros H. rewrite Zpower_Qpower by exact H. reflexivity. Qed.

Lemma pow2_add (x y : Z) : (2 ^ (x + y) == 2 ^ x * 2 ^ y)%Q.
Proof. apply Qpower_plus. discriminate. Qed.

Lemma pow2_le (x y : Z) : x <= y -> (2 ^ x <= 2 ^ y)%Q.
Proof. intros H. apply Qpower_le_compat_l; [exact H | discriminate]. Qed.

(** [floor_log2] is the binary logarithm, rounded down. *)
Lemma floor_log2_bounds (a : Q) :
  (0 < a)%Q ->
  (2 ^ Js.floor_log2 a <= a)%Q /\ (a < 2 ^ (Js.floor_log2 a + 1))%Q.
Proof.
  intros Hpos. unfold Js.floor_log2.
  destruct a as [n d]. unfold Qlt in Hpos. cbn [Qnum Qden] in *.
  assert (Hn : 0 < n) by lia.
  set (ln := Z.log2 n). set (ld := Z.log2 (Z.pos d)).
  assert (Hln : 0 <= ln) by apply Z.log2_nonneg.
  assert (Hld : 0 <= ld) by apply Z.log2_nonneg.
  destruct (Z.log2_spec n Hn) as [N1 N2]. fold ln in N1, N2.
  destruct (Z.log2_spec (Z.pos d) (Pos2Z.is_pos d)) as [D1 D2].
  fold ld in D1, D2.
  assert (P1 : 0 < 2 ^ ln) by (apply Z.pow_pos_nonneg; lia).
  assert (P2 : 0 < 2 ^ ld) by (apply Z.pow_pos_nonneg; lia).
  assert (Hlow : (2 ^ (ln - ld - 1) <= n # d)%Q).
  { apply Qmult_le_r with (z := (2 ^ (ld + 1))%Q); [apply pow2_pos|].
    rewrite <- pow2_add. replace (ln - ld - 1 + (ld + 1)) with ln by lia.
    rewrite !pow2_Z by lia.
    unfold Qle, Qmult. cbn [Qnum Qden inject_Z].
    rewrite Z.mul_1_r, Pos.mul_1_r.
    replace (Z.succ ld) with (ld + 1) in D2 by lia.
    apply Z.le_trans with (m := n * Z.pos d); [nia|].
    apply Z.mul_le_mono_nonneg_l; lia. }
  assert (Hup : (n # d < 2 ^ (ln - ld + 1))%Q).
  { apply Qmult_lt_r with (z := (2 ^ ld)%Q); [apply pow2_pos|].
    rewrite <- pow2_add. replace (ln - ld + 1 + ld) with (ln + 1) by lia.
    rewrite !pow2_Z by lia.
    unfold Qlt, Qmult. cbn [Qnum Qden inject_Z].
    rewrite Z.mul_1_r, Pos.mul_1_r.
    replace (Z.succ ln) with (ln + 1) in N2 by lia.
    apply Z.le_lt_trans with (m := n * Z.pos d); [|nia].
    apply Z.mul_le_mono_nonneg_l; lia. }
  destruct (Qle_bool (2 ^ (ln - ld)) (n # d)) eqn:E.
  - apply Qle_bool_iff in E. split; [exact E | exact Hup].
  - split; [exact Hlow|].
    replace (ln - ld - 1 + 1) with (ln - ld) by lia.
    apply Qnot_le_lt. intros H. apply Qle_bool_iff in H. congruence.
Qed.

Lemma floor_log2_unique (a : Q) (k : Z) :
  (2 ^ k <= a)%Q -> (a < 2 ^ (k + 1))%Q -> Js.floor_log2 a = k.
Proof.
  intros H1 H2.
  assert (Hpos : (0 < a)%Q).
  { apply Qlt_le_trans with (y := (2 ^ k)%Q); [apply pow2_pos | exact H1]. }
  destruct (floor_log2_bounds a Hpos) as [B1 B2].
  assert (L1 : Js.floor_log2 a < k + 1).
  { apply Qpower_lt_compat_l_inv with (q := 2%Q); [|reflexivity].
    now apply Qle_lt_trans with (y := a). }
  assert (L2 : k < Js.floor_log2 a + 1).
  { apply Qpower_lt_compat_l_inv with (q := 2%Q); [|reflexivity].
    now apply Qle_lt_trans with (y := a). }
  lia.
Qed.

Lemma round_half_even_integer (x : Q) (z : Z) :
  (x == inject_Z z)%Q -> Js.round_half_even x = z.
Proof.
  intros E.
  assert (H1 : z <= Js.round_half_even x)
    by (apply round_half_even_ge; rewrite E; apply Qle_refl).
  assert (H2 : Js.round_half_even x <= z)
    by (apply round_half_even_le; rewrite E; apply Qle_refl).
  lia.
Qed.

(** The mantissa that [nearest] finds has at most 53 bits, the power of
    two that follows included. *)
Lemma nearest_mantissa (a : Q) :
  (0 < a)%Q ->
  0 <= Js.round_half_even (a / 2 ^ Js.binade a) <= 2 ^ 53.
Proof.
  intros Hpos. destruct (floor_log2_bounds a Hpos) as [_ B2].
  set (e := Js.binade a).
  assert (He : Js.floor_log2 a + 1 <= 53 + e) by (unfold e, Js.binade; lia).
  split.
  - apply round_half_even_ge. apply Qle_shift_div_l; [apply pow2_pos|].
    change (inject_Z 0) with 0%Q. rewrite Qmult_0_l. now apply Qlt_le_weak.
  - apply round_half_even_le. apply Qle_shift_div_r; [apply pow2_pos|].
    rewrite <- pow2_Z by lia. rewrite <- pow2_add.
    apply Qlt_le_weak. apply Qlt_le_trans with (y := (2 ^ (Js.floor_log2 a + 1))%Q);
      [exact B2 | now apply pow2_le].
Qed.

(** A positive double is rounded to itself. *)
Lemma nearest_fixed (y : Q) (M e : Z) :
  1 <= M <= 2 ^ 53 -> -1074 <= e ->
  (y == inject_Z M * 2 ^ e)%Q ->
  (Js.nearest y == y)%Q.
Proof.
  intros [HM1 HM2] He Hy.
  set (L := Z.log2 M).
  assert (HL0 : 0 <= L) by apply Z.log2_nonneg.
  destruct (Z.log2_spec M) as [L1 L2]; [lia|]. fold L in L1, L2.
  replace (Z.succ L) with (L + 1) in L2 by lia.
  assert (HL : L <= 53).
  { assert (H : L <= Z.log2 (2 ^ 53)) by (apply Z.log2_le_mono; lia).
    rewrite Z.log2_pow2 in H; lia. }
  assert (Hfl : Js.floor_log2 y = L + e).
  { apply floor_log2_unique; rewrite Hy.
    - rewrite pow2_add. apply Qmult_le_r; [apply pow2_pos|].
      rewrite pow2_Z by lia. now rewrite <- Zle_Qle.
    - replace (L + e + 1) with (L + 1 + e) by lia.
      rewrite pow2_add. apply Qmult_lt_r; [apply pow2_pos|].
      rewrite pow2_Z by lia. now rewrite <- Zlt_Qlt. }
  unfold Js.nearest, Js.binade. rewrite Hfl.
  set (e' := Z.max (L + e - 52) (-1074)).
  assert (Hint : exists K, (y / 2 ^ e' == inject_Z K)%Q).
  { destruct (Z_le_gt_dec e' e) as [Hle | Hgt].
    - exists (M * 2 ^ (e - e')).
      rewrite Hy, inject_Z_mult, <- pow2_Z by lia.
      unfold Qdiv. rewrite <- Qmult_assoc. apply Qmult_comp; [reflexivity|].
      replace (e - e') with (e + - e') by lia.
      rewrite pow2_add, Qpower_opp. reflexivity.
    - assert (HL53 : L = 53) by lia.
      assert (HM : M = 2 ^ 53).
      { rewrite HL53 in L1. lia. }
      assert (He' : e' = e + 1) by lia.
      exists (2 ^ 52). rewrite Hy, HM, He', <- !pow2_Z by lia.
      rewrite <- pow2_add. unfold Qdiv. rewrite <- Qpower_opp, <- pow2_add.
      replace (53 + e + - (e + 1)) with 52 by lia. reflexivity. }
  destruct Hint as [K HK].
  rewrite (round_half_even_integer _ K HK), <- HK.
  unfold Qdiv. rewrite <- Qmult_assoc, (Qmult_comm (/ 2 ^ e')).
  rewrite Qmult_inv_r by apply pow2_nonzero. apply Qmult_1_r.
Qed.

(** Rounding a double again changes nothing. *)
Lemma nearest_idempotent (a y : Q) :
  (0 < a)%Q -> (y == Js.nearest a)%Q ->
  (y == 0)%Q \/ ((0 < y)%Q /\ (Js.nearest y == y)%Q).
Proof.
  intros Hpos Hy. destruct (nearest_mantissa a Hpos) as [M1 M2].
  set (M := Js.round_half_even (a / 2 ^ Js.binade a)) in *.
  unfold Js.nearest in Hy. fold M in Hy.
  destruct (Z.eq_dec M 0) as [E | E].
  - left. rewrite Hy, E. apply Qmult_0_l.
  - right. split.
    + rewrite Hy. apply Qmult_lt_0_compat; [|apply pow2_pos].
      rewrite <- (Zlt_Qlt 0). lia.
    + apply nearest_fixed with (M := M) (e := Js.binade a);
        [lia | unfold Js.binade; lia | exact Hy].
Qed.

Lemma double_zero (x : Q) : (x == 0)%Q -> Js.double x = 0%Q.
Proof.
  intros E. unfold Js.double.
  apply Qeq_bool_iff in E. now rewrite E.
Qed.

Lemma Qred_zero (x : Q) : (x == 0)%Q -> Qred x = 0%Q.
Proof. intros E. now rewrite (Qred_complete _ _ E). Qed.

Lemma double_idempotent (q : Q) : Js.double (Js.double q) = Js.double q.
Proof.
  unfold Js.double at 2 3.
  destruct (Qeq_bool q 0) eqn:E0; [reflexivity|].
  apply Qeq_bool_neq in E0.
  destruct (Qle_bool 0 q) eqn:Es.
  - apply Qle_bool_iff in Es.
    assert (Hpos : (0 < q)%Q).
    { apply Qnot_le_lt. intros H. apply E0. now apply Qle_antisym. }
    set (y := Qred (Js.nearest q)).
    destruct (nearest_idempotent q y Hpos (Qred_correct _)) as [Hz | [Hy Hfix]].
    + rewrite (double_zero y Hz). symmetry. subst y.
      apply Qred_zero. now rewrite <- (Qred_correct (Js.nearest q)).
    + unfold Js.double.
      assert (Hne : Qeq_bool y 0 = false).
      { destruct (Qeq_bool y 0) eqn:E; [|reflexivity].
        apply Qeq_bool_iff in E. rewrite E in Hy. discriminate. }
      assert (Hle : Qle_bool 0 y = true)
        by (apply Qle_bool_iff; now apply Qlt_le_weak).
      rewrite Hne, Hle. rewrite (Qred_complete _ _ Hfix).
      apply Qcanon.Qred_involutive.
  - assert (Hneg : (0 < - q)%Q).
    { assert (Hlt : (q < 0)%Q).
      { apply Qnot_le_lt. intros H. apply Qle_bool_iff in H. congruence. }
      lra. }
    set (y := Qred (- Js.nearest (- q))).
    assert (Hy0 : (- y == Js.nearest (- q))%Q).
    { unfold y. rewrite Qred_correct. apply Qopp_involutive. }
    destruct (nearest_idempotent (- q) (- y) Hneg Hy0) as [Hz | [Hy Hfix]].
    + assert (Hz' : (y == 0)%Q) by lra.
      rewrite (double_zero y Hz'). symmetry. subst y.
      apply Qred_zero. rewrite <- Hz'. symmetry. apply Qred_correct.
    + unfold Js.double.
      assert (Hne : Qeq_bool y 0 = false).
      { destruct (Qeq_bool y 0) eqn:E; [|reflexivity].
        apply Qeq_bool_iff in E. rewrite E in Hy. discriminate. }
      assert (Hle : Qle_bool 0 y = false).
      { destruct (Qle_bool 0 y) eqn:E; [|reflexivity].
        apply Qle_bool_iff in E. lra. }
      rewrite Hne, Hle.
      assert (Hfix' : (- Js.nearest (- y) == y)%Q) by (rewrite Hfix; lra).
      rewrite (Qred_complete _ _ Hfix').
      apply Qcanon.Qred_involutive.
Qed.

(** Some doubles: a tenth, the sum of a tenth and two tenths (above the
    double of three tenths), an integer past 2^53, the two thresholds of
    the classifier; the mean of three ratings of a tenth, which is above
    a tenth; and some numbers printed with one decimal. *)
Example double_samples :
  Js.double (1 # 10) = (3602879701896397 # 36028797018963968)%Q /\
  Js.double (38 # 10) = (4278419646001971 # 1125899906842624)%Q /\
  Js.double (42 # 10) = (4728779608739021 # 1125899906842624)%Q /\
  Js.double (Js.double (1 # 10) + Js.double (2 # 10))
  = (1351079888211149 # 4503599627370496)%Q /\
  Js.double (3 # 10) = (5404319552844595 # 18014398509481984)%Q /\
  Js.double (inject_Z (2 ^ 53 + 1)) = inject_Z (2 ^ 53) /\
  avgRatingVal threeTenths = (7205759403792795 # 72057594037927936)%Q /\
  Js.toFixed1 (87 # 20) = "4.3" /\ Js.toFixed1 (17 # 4) = "4.3" /\
  Js.toFixed1 (- 1 # 100) = "-0.0" /\
  avgRating twentyRatings = "4.3".
Proof. vm_compute. repeat split. Qed.

(** ** The averages *)

Lemma sum_pages_bounds (lo hi : Z) (l : list BookData) (acc : Z) :
  Forall (fun b => lo <= pages b <= hi) l ->
  acc + Z.of_nat (List.length l) * lo
  <= fold_left (fun a c => a + pages c) l acc
  <= acc + Z.of_nat (List.length l) * hi.
Proof.
  intros H. revert acc. induction H as [|b l Hb _ IH]; intros acc.
  - simpl. lia.
  - cbn [fold_left]. specialize (IH (acc + pages b)).
    rewrite length_cons, Nat2Z.inj_succ. nia.
Qed.

Lemma Math_round_bounds (lo hi : Z) (x : Q) :
  (inject_Z lo <= x)%Q -> (x <= inject_Z hi)%Q ->
  lo <= Js.Math_round x <= hi.
Proof.
  unfold Js.Math_round. intros Hlo Hhi. split.
  - rewrite <- (Qfloor_Z lo). apply Qfloor_resp_le.
    generalize dependent (inject_Z lo). intros q Hq. lra.
  - assert (H : (inject_Z (Qfloor (x + (1 # 2))) < inject_Z (hi + 1))%Q).
    { apply Qle_lt_trans with (x + (1 # 2))%Q; [apply Qfloor_le|].
      rewrite inject_Z_plus. change (inject_Z 1) with 1%Q.
      generalize dependent (inject_Z hi). intros q Hq. lra. }
    rewrite <- Zlt_Qlt in H. lia.
Qed.

Lemma Qdiv_bounds (lo hi s n : Q) :
  (0 < n)%Q -> (n * lo <= s)%Q -> (s <= n * hi)%Q ->
  (lo <= s / n)%Q /\ (s / n <= hi)%Q.
Proof.
  intros Hn Hlo Hhi. split.
  - apply Qle_shift_div_l; [exact Hn|]. lra.
  - apply Qle_shift_div_r; [exact Hn|]. lra.
Qed.

(** X8. The average page count of a non-empty read list lies between the
    smallest and the largest page count of its books: rounding the mean
    never leaves their range. *)
Theorem avgPages_within_range (st : AppState) (lo hi : Z) :
  readData st <> [] ->
  Forall (fun b => lo <= pages b <= hi) (readData st) ->
  totalBooks st * lo <= totalPages st <= totalBooks st * hi /\
  lo <= avgPages st <= hi.
Proof.
  intros Hne Hall. unfold avgPages, totalPages, totalBooks, Js.reduce.
  pose proof (sum_pages_bounds lo hi (readData st) 0 Hall) as Hsum.
  set (n := Z.of_nat (List.length (readData st))) in *.
  set (s := fold_left (fun a c => a + pages c) (readData st) 0) in *.
  assert (Hn : 0 < n).
  { subst n. destruct (readData st); [congruence | simpl; lia]. }
  split; [lia|].
  apply Z.ltb_lt in Hn as Hn'. rewrite Hn'.
  assert (HnQ : (0 < inject_Z n)%Q) by (unfold Qlt; simpl; lia).
  destruct (Qdiv_bounds (inject_Z lo) (inject_Z hi) (inject_Z s) (inject_Z n)
              HnQ) as [H1 H2].
  - rewrite <- inject_Z_mult, <- Zle_Qle. lia.
  - rewrite <- inject_Z_mult, <- Zle_Qle. lia.
  - now apply Math_round_bounds.
Qed.

Lemma avgPages_within_range_witness :
  300 <= avgPages (state_of [firstThick; secondThick] 0) <= 300.
Proof.
  apply (avgPages_within_range (state_of [firstThick; secondThick] 0) 300 300).
  - discriminate.
  - repeat constructor; simpl; lia.
Defined.

Lemma Qplus_integers (s n : Z) :
  (inject_Z s + inject_Z n)%Q = inject_Z (s + n).
Proof. unfold Qplus, inject_Z. simpl. f_equal. lia. Qed.

(** Integer ratings add up without rounding while the sums stay below
    2^53. *)
Lemma sum_ratings_integers (lo hi : Z) (l : list BookData) :
  Forall (fun b => exists n, rating b = inject_Z n /\ lo <= n <= hi) l ->
  forall s,
    Z.abs s + Z.of_nat (List.length l) * Z.max (Z.abs lo) (Z.abs hi) < 2 ^ 53 ->
    exists t,
      fold_left (fun acc curr => Js.double (acc + Js.double (rating curr))%Q)
        l (inject_Z s) = inject_Z t /\
      fold_left (fun acc b => (acc + rating b)%Q) l (inject_Z s) = inject_Z t /\
      s + Z.of_nat (List.length l) * lo <= t
      <= s + Z.of_nat (List.length l) * hi.
Proof.
  induction 1 as [|b l (n & Hn & Hrange) _ IH]; intros s Hs.
  - exists s. simpl. repeat split; lia.
  - cbn [fold_left List.length] in *. rewrite Hn.
    rewrite Nat2Z.inj_succ in *.
    set (M := Z.max (Z.abs lo) (Z.abs hi)) in *.
    assert (HM : Z.abs n <= M) by lia.
    assert (HM0 : 0 <= Z.of_nat (List.length l) * M) by nia.
    rewrite double_integer by lia.
    rewrite Qplus_integers, double_integer by lia.
    destruct (IH (s + n)) as (t & H1 & H2 & H3); [nia|].
    exists t. split; [exact H1|]. split; [exact H2|]. nia.
Qed.

(** The mean of integer ratings. *)
Lemma avgRatingVal_integers (st : AppState) (lo hi : Z) :
  readData st <> [] ->
  Forall (fun b => exists n, rating b = inject_Z n /\ lo <= n <= hi)
         (readData st) ->
  totalBooks st * Z.max (Z.abs lo) (Z.abs hi) < 2 ^ 53 ->
  avgRatingVal st
  = Js.double (exactSum (readData st) / inject_Z (totalBooks st)) /\
  (inject_Z lo <= avgRatingVal st)%Q /\ (avgRatingVal st <= inject_Z hi)%Q.
Proof.
  intros Hne Hall Hsize. unfold avgRatingVal, exactSum, Js.reduce.
  unfold totalBooks in *.
  set (N := Z.of_nat (List.length (readData st))) in *.
  assert (HN : 0 < N).
  { subst N. destruct (readData st); [congruence | simpl; lia]. }
  apply Z.ltb_lt in HN as HN'. rewrite HN'.
  destruct (sum_ratings_integers lo hi _ Hall 0) as (t & H1 & H2 & H3);
    [fold N; lia|].
  fold N in H3. change (inject_Z 0) with 0%Q in H1, H2. rewrite H1, H2.
  split; [reflexivity|].
  assert (HNQ : (0 < inject_Z N)%Q) by (rewrite <- (Zlt_Qlt 0); exact HN).
  apply double_between.
  - nia.
  - nia.
  - apply Qle_shift_div_l; [exact HNQ|].
    rewrite <- inject_Z_mult, <- Zle_Qle. lia.
  - apply Qle_shift_div_r; [exact HNQ|].
    rewrite <- inject_Z_mult, <- Zle_Qle. lia.
Qed.

(** X9. For a non-empty read list whose ratings are integers between
    [lo] and [hi] (few enough for their sum to stay below 2^53), the
    ratings add up without rounding, [avgRatingVal] is the double nearest
    to their exact mean, and it lies between [lo] and [hi]. *)
Theorem avgRating_within_range (st : AppState) (lo hi : Z) :
  readData st <> [] ->
  Forall (fun b => exists n, rating b = inject_Z n /\ lo <= n <= hi)
         (readData st) ->
  totalBooks st * Z.max (Z.abs lo) (Z.abs hi) < 2 ^ 53 ->
  avgRatingVal st
  = Js.double (exactSum (readData st) / inject_Z (totalBooks st)) /\
  (inject_Z lo <= avgRatingVal st)%Q /\ (avgRatingVal st <= inject_Z hi)%Q.
Proof. exact (avgRatingVal_integers st lo hi). Qed.

Lemma avgRating_within_range_witness :
  avgRatingVal (state_of [firstThick; secondThick] 0) = (7 # 2)%Q.
Proof.
  destruct (avgRating_within_range (state_of [firstThick; secondThick] 0) 3 4)
    as [H _].
  - discriminate.
  - repeat constructor; [exists 4 | exists 3]; split; (reflexivity || lia).
  - reflexivity.
  - rewrite H. vm_compute. reflexivity.
Defined.

(** ** Sums of counts *)

Lemma total_count_app (o1 o2 : Js.JsObject Z) :
  total_count (o1 ++ o2)%list = total_count o1 + total_count o2.
Proof.
  unfold total_count. induction o1 as [|e o1 IH]; simpl; [reflexivity|].
  rewrite IH. lia.
Qed.

Lemma total_count_update (o : Js.JsObject Z) (k : string) (v c : Z) :
  Js.obj_get o k = Some c ->
  total_count (Js.obj_update k v o) = total_count o - c + v.
Proof.
  unfold total_count.
  induction o as [|[k0 v0] o IH]; simpl; [discriminate|].
  destruct (String.eqb k0 k); simpl.
  - intros [= ->]. lia.
  - intros H. rewrite (IH H). lia.
Qed.

Lemma total_count_add_index (o : Js.JsObject Z) (i : Z) (k : string) (v : Z) :
  total_count (Js.obj_add_index i k v o) = total_count o + v.
Proof.
  unfold total_count.
  induction o as [|[k0 v0] o IH]; cbn [Js.obj_add_index]; [simpl; lia|].
  destruct (Js.array_index k0) as [j|]; [|simpl; lia].
  destruct (j <? i); simpl in *; [rewrite IH|]; lia.
Qed.

(** Counting a key adds one to the sum of the counts. *)
Lemma total_count_increment (o : Js.JsObject Z) (k : string) :
  total_count (increment k o) = total_count o + 1.
Proof.
  unfold increment, Js.obj_set.
  destruct (Js.obj_get o k) as [c|] eqn:E; simpl Js.or_zero.
  - rewrite (total_count_update o k _ c E). lia.
  - destruct (Js.array_index k) as [i|].
    + rewrite total_count_add_index. lia.
    + rewrite total_count_app. unfold total_count at 2. simpl. lia.
Qed.

Lemma total_count_tally (ks : list string) (o : Js.JsObject Z) :
  total_count (tally ks o) = total_count o + Z.of_nat (List.length ks).
Proof.
  unfold tally. revert o. induction ks as [|k ks IH]; intros o.
  - simpl. lia.
  - cbn [fold_left]. rewrite IH, total_count_increment, length_cons. lia.
Qed.

Lemma occurrences_le_length (k : string) (ks : list string) :
  occurrences k ks <= Z.of_nat (List.length ks).
Proof.
  unfold occurrences. induction ks as [|x ks IH]; simpl; [lia|].
  destruct (string_dec x k); lia.
Qed.

(** X10. When every read book carries an author and no author key is the
    name of a member of [Object.prototype], the author table holds
    numbers only and counts each book exactly once: its counts add up to
    the number of books, and each author's count is at least 1 and at
    most that number. *)
Theorem authorCounts_add_up (st : AppState) (names : list string) :
  map author (readData st) = map Some names ->
  Forall (fun k => Js.inherited k = false) (map cleanAuthor names) ->
  exists o,
    authorCounts st = Some (numbers o) /\
    total_count o = totalBooks st /\
    forall k c, In (k, c) o -> 1 <= c <= totalBooks st.
Proof.
  intros Hauthors Hown. exists (tally (map cleanAuthor names) []).
  assert (Hlen : Z.of_nat (List.length (map cleanAuthor names))
                 = totalBooks st).
  { unfold totalBooks. rewrite length_map.
    rewrite <- (length_map Some names), <- Hauthors, length_map.
    reflexivity. }
  split; [|split].
  - unfold authorCounts. now apply (countAuthors_tally _ names []).
  - rewrite total_count_tally. unfold total_count at 1. simpl. exact Hlen.
  - intros k c Hin.
    apply (counted_entry _ _ _ _ (tally_counted _)) in Hin.
    destruct Hin as [-> Hpos]. rewrite <- Hlen.
    pose proof (occurrences_le_length k (map cleanAuthor names)). lia.
Qed.

Lemma authorCounts_add_up_witness :
  exists o, authorCounts nguyenTwice = Some (numbers o) /\ total_count o = 2.
Proof.
  destruct (authorCounts_add_up nguyenTwice
              ["A. Nguyen (Goodreads Author)"; "A. Nguyen"] eq_refl)
    as (o & H1 & H2 & _).
  - repeat constructor.
  - exists o. split; [exact H1 | exact H2].
Defined.

Lemma compareCounts_sorted (es : list (string * Z)) :
  StronglySorted (fun a b => snd b <= snd a) (Js.sort compareCounts es).
Proof.
  apply StronglySorted_impl
    with (R := fun x y => Qle_bool (compareCounts x y) 0 = true).
  - intros x y. apply compareCounts_before.
  - apply sort_sorted.
    + intros x y H. apply compareCounts_before.
      rewrite compareCounts_before in H. lia.
    + intros x y z. rewrite !compareCounts_before. lia.
Qed.

(** X11. When every read book carries an author and no author key is the
    name of a member of [Object.prototype], the top author shown on the
    summary slide is "-" for an empty read list and otherwise an author
    who was read at least as often as any other. *)
Theorem topObsession_most_read (st : AppState) (names : list string) :
  map author (readData st) = map Some names ->
  let keys := map cleanAuthor names in
  Forall (fun k => Js.inherited k = false) keys ->
  (readData st = [] -> topObsession st = Some "-") /\
  (readData st <> [] ->
   exists a,
     topObsession st = Some a /\ In a keys /\
     forall k, occurrences k keys <= occurrences a keys).
Proof.
  intros Hauthors keys Hown.
  set (o := tally keys []).
  assert (Hcount : authorCounts st = Some (numbers o)).
  { unfold authorCounts. now apply (countAuthors_tally _ names []). }
  pose proof (tally_counted keys) as Hcounted. fold o in Hcounted.
  unfold topObsession. rewrite (topAuthors_numbers st o Hcount).
  pose proof (sort_perm compareCounts o) as Hperm.
  pose proof (compareCounts_sorted o) as Hsorted.
  split.
  - intros Hnil. rewrite Hnil in Hauthors. destruct names; [|discriminate].
    reflexivity.
  - intros Hne.
    assert (Hkeys : keys <> []).
    { subst keys. destruct names; [|discriminate].
      destruct (readData st); [congruence | discriminate]. }
    destruct keys as [|k0 ks0] eqn:Ek; [congruence|]. rewrite <- Ek in *.
    assert (Hk0 : In (k0, occurrences k0 keys) o).
    { apply (counted_entry _ _ _ _ Hcounted). split; [reflexivity|].
      apply occurrences_pos. rewrite Ek. now left. }
    destruct (Js.sort compareCounts o) as [|[a c] l] eqn:Es.
    { apply (Permutation_in _ (Permutation_sym Hperm)) in Hk0.
      destruct Hk0. }
    exists a. cbn [firstn numbers map fst snd].
    assert (Ha : In (a, c) o) by (apply (Permutation_in _ Hperm); now left).
    apply (counted_entry _ _ _ _ Hcounted) in Ha. destruct Ha as [Hc Hpos].
    split; [reflexivity|]. split.
    + apply occurrences_pos. now rewrite <- Hc.
    + intros k. rewrite <- Hc.
      destruct (Z_lt_le_dec 0 (occurrences k keys)) as [Hk | Hk]; [|lia].
      assert (Hin : In (k, occurrences k keys) ((a, c) :: l)).
      { apply (Permutation_in _ (Permutation_sym Hperm)).
        apply (counted_entry _ _ _ _ Hcounted). now split. }
      destruct Hin as [[= -> ->] | Hin]; [lia|].
      apply (sorted_head_first _ _ _ _ Hsorted) in Hin. exact Hin.
Qed.

Lemma topObsession_most_read_witness :
  topObsession nguyenTwice = Some "A. Nguyen".
Proof.
  destruct (topObsession_most_read nguyenTwice
              ["A. Nguyen (Goodreads Author)"; "A. Nguyen"] eq_refl)
    as [_ H].
  - repeat constructor.
  - destruct H as (a & Ha & _); [discriminate|].
    rewrite Ha. vm_compute in Ha. now injection Ha as <-.
Defined.

Lemma monthCount_cons (m : Month) (b : BookData) (l : list BookData) :
  monthCount m (b :: l)
  = (if readInMonth m b then 1 else 0) + monthCount m l.
Proof.
  unfold monthCount. cbn [filter]. destruct (readInMonth m b).
  - rewrite length_cons. lia.
  - lia.
Qed.

Lemma month_sum_dated (l : list BookData) :
  Forall (fun b => dated2025 (dateRead b)) l ->
  fold_right Z.add 0 (map (fun m => monthCount m l) allMonths)
  = Z.of_nat (List.length l).
Proof.
  induction 1 as [|b l (m & day & Hb) _ IH]; [reflexivity|].
  rewrite length_cons, Nat2Z.inj_succ, <- IH.
  unfold allMonths. cbn [map fold_right]. rewrite !monthCount_cons.
  unfold readInMonth. rewrite Hb. destruct m; simpl Nat.eqb; cbv iota; lia.
Qed.

(** X12. Over the read list of an upload every book is counted under
    exactly one month: the month table's counts, and the counts of the
    twelve months, add up to the number of books read. *)
Theorem monthCounts_add_up (st : AppState) (books : list BookData) :
  readData st = readIn2025 books ->
  total_count (countMonths (readData st)) = totalBooks st /\
  fold_right Z.add 0 (map (fun m => monthCount m (readData st)) allMonths)
  = totalBooks st.
Proof.
  intros Hrd.
  assert (Hdated : Forall (fun b => dated2025 (dateRead b)) (readData st)).
  { apply Forall_forall. intros b Hb. rewrite Hrd in Hb.
    now apply readIn2025_dated with books. }
  unfold totalBooks. split.
  - rewrite countMonths_tally, total_count_tally.
    destruct (monthKeys_dated _ Hdated) as [-> _]. reflexivity.
  - now apply month_sum_dated.
Qed.

Lemma monthCounts_add_up_witness :
  total_count (countMonths (readIn2025 [addedInMarch])) = 1.
Proof.
  destruct (monthCounts_add_up (state_of (readIn2025 [addedInMarch]) 0)
              [addedInMarch] eq_refl) as [H _].
  exact H.
Defined.

(** ** The aura and the backlog card *)

(** X13. With no book read the averages are 0, so only the backlog
    decides: the aura is COZY COLLECTOR when more than 5 books were added
    to the backlog and BALANCED REALIST otherwise. *)
Theorem no_books_aura (st : AppState) :
  readData st = [] ->
  avgPages st = 0 /\ avgRating st = "0.0" /\
  getAura st = if 5 <? tbrCount st then cozyCollector else balancedRealist.
Proof.
  intros Hnil. unfold getAura, avgRating, avgRatingVal, avgPages, totalBooks.
  rewrite Hnil. simpl List.length. simpl (0 <? Z.of_nat 0).
  split; [reflexivity|]. split; [reflexivity|].
  unfold classify, guard1, guard2, guard3, guard4, guard5. simpl.
  destruct (5 <? tbrCount st) eqn:E.
  - apply Z.ltb_lt in E.
    assert (H0 : (0 <? tbrCount st) = true) by (apply Z.ltb_lt; lia).
    now rewrite H0.
  - now rewrite andb_false_r.
Qed.

Lemma no_books_aura_witness :
  getAura (state_of [] 6) = cozyCollector.
Proof.
  destruct (no_books_aura (state_of [] 6) eq_refl) as (_ & _ & H).
  exact H.
Defined.

Lemma classify_cozy_iff (tbr total avgP : Z) (avgR : Q) :
  classify tbr total avgP avgR = cozyCollector <-> guard1 tbr total = true.
Proof.
  unfold classify. destruct (guard1 tbr total).
  - tauto.
  - split; [|discriminate].
    destruct (guard2 total avgP); [discriminate|].
    destruct (guard3 total avgP avgR); [discriminate|].
    destruct (guard4 avgP avgR); [discriminate|].
    destruct (guard5 avgR); discriminate.
Qed.

(** X14. The backlog card agrees with itself and with the aura: the
    caption about checking out books appears exactly when the HOARDING
    ALERT ribbon does, the ribbon never appears without the warning sign,
    and the aura is COZY COLLECTOR exactly when the ribbon is shown and
    the backlog holds more than 5 books. *)
Theorem backlog_card_consistent (st : AppState) :
  (hoardingAlert st = true <-> tbrCaption st = "Hobi checkout doang? 😭") /\
  (hoardingAlert st = true -> tbrWarning st = true) /\
  (getAura st = cozyCollector <->
   hoardingAlert st = true /\ 5 < tbrCount st).
Proof.
  unfold hoardingAlert, tbrWarning, tbrCaption, getAura.
  assert (Hn : 0 <= totalBooks st) by (unfold totalBooks; lia).
  set (n := totalBooks st) in *. set (t := tbrCount st).
  split; [|split].
  - destruct (n * 2 <? t) eqn:E.
    + apply Z.ltb_lt in E.
      assert (H1 : (t =? 0) = false) by (apply Z.eqb_neq; lia).
      assert (H2 : (t <? n) = false) by (apply Z.ltb_ge; lia).
      assert (H3 : (t =? n) = false) by (apply Z.eqb_neq; lia).
      rewrite H1, H2, H3. tauto.
    + split; [discriminate|].
      destruct (t =? 0); [discriminate|].
      destruct (t <? n); [discriminate|].
      destruct (t =? n); discriminate.
  - rewrite !Z.ltb_lt. lia.
  - rewrite classify_cozy_iff. unfold guard1.
    now rewrite andb_true_iff, !Z.ltb_lt.
Qed.

(** ** Trimming and the author key *)

(** X15. The author key is in normal form: it holds no "(", it neither
    starts nor ends with white space, and cleaning it again gives the same
    key, so a name that is already clean is counted under itself. *)
Theorem cleanAuthor_normal_form (a : string) :
  occurs "("%char (cleanAuthor a) = false /\
  (forall c, first_char (cleanAuthor a) = Some c ->
             Js.is_white_space c = false) /\
  (forall c, last_char (cleanAuthor a) = Some c ->
             Js.is_white_space c = false) /\
  cleanAuthor (cleanAuthor a) = cleanAuthor a.
Proof.
  assert (Hfree : occurs "("%char (cleanAuthor a) = false).
  { unfold cleanAuthor, Js.trim.
    destruct (occurs "("%char
                (Js.trim_end (Js.trim_start (Js.split_head "(" a)))) eqn:E;
      [|reflexivity].
    apply occurs_trim_end, occurs_trim_start in E.
    now rewrite split_head_free in E. }
  split; [exact Hfree|]. split; [|split].
  - apply trim_head.
  - intros c. unfold cleanAuthor, Js.trim. apply trim_end_last.
  - unfold cleanAuthor at 1. rewrite (split_head_fixed _ _ Hfree).
    unfold cleanAuthor. apply trim_idempotent.
Qed.

(** ** The upload form *)



(** ** The story navigation *)

Lemma nextSlide_fields (st : AppState) :
  readData (nextSlide st) = readData st /\
  tbrCount (nextSlide st) = tbrCount st /\
  view (nextSlide st) = view st /\
  username (nextSlide st) = username st /\
  currentSlide (nextSlide st)
  = if currentSlide st <? slidesLength - 1
    then currentSlide st + 1 else currentSlide st.
Proof.
  unfold nextSlide. destruct (currentSlide st <? slidesLength - 1);
    repeat split.
Qed.

Lemma prevSlide_fields (st : AppState) :
  readData (prevSlide st) = readData st /\
  tbrCount (prevSlide st) = tbrCount st /\
  view (prevSlide st) = view st /\
  username (prevSlide st) = username st /\
  currentSlide (prevSlide st)
  = if 0 <? currentSlide st then currentSlide st - 1 else currentSlide st.
Proof.
  unfold prevSlide. destruct (0 <? currentSlide st); repeat split.
Qed.

Lemma setCurrentSlide_same (st : AppState) :
  setCurrentSlide (currentSlide st) st = st.
Proof. now destruct st. Qed.

(** X17. Stepping forward and back again returns to the same state unless
    the story is on its last slide, where stepping forward does nothing;
    likewise back and forward, unless it is on the first slide.  Neither
    step touches the read list, the backlog count, the view or the name. *)
Theorem next_prev_round_trip (st : AppState) :
  0 <= currentSlide st <= slidesLength - 1 ->
  (currentSlide st < slidesLength - 1 -> prevSlide (nextSlide st) = st) /\
  (currentSlide st = slidesLength - 1 -> nextSlide st = st) /\
  (0 < currentSlide st -> nextSlide (prevSlide st) = st) /\
  (currentSlide st = 0 -> prevSlide st = st) /\
  readData (nextSlide st) = readData st /\
  readData (prevSlide st) = readData st /\
  tbrCount (nextSlide st) = tbrCount st /\
  tbrCount (prevSlide st) = tbrCount st.
Proof.
  intros Hrange. unfold slidesLength in *.
  destruct (nextSlide_fields st) as (N1 & N2 & _ & _ & _).
  destruct (prevSlide_fields st) as (P1 & P2 & _ & _ & _).
  repeat split; try assumption.
  - intros H. unfold nextSlide, prevSlide, slidesLength.
    apply Z.ltb_lt in H as H'. rewrite H'. cbn [currentSlide setCurrentSlide].
    assert (H0 : (0 <? currentSlide st + 1) = true) by (apply Z.ltb_lt; lia).
    rewrite H0. unfold setCurrentSlide. cbn.
    replace (currentSlide st + 1 - 1) with (currentSlide st) by lia.
    now destruct st.
  - intros H. unfold nextSlide, slidesLength. rewrite H. reflexivity.
  - intros H. unfold nextSlide, prevSlide, slidesLength.
    apply Z.ltb_lt in H as H'. rewrite H'. cbn [currentSlide setCurrentSlide].
    assert (H0 : (currentSlide st - 1 <? 7 - 1) = true)
      by (apply Z.ltb_lt; lia).
    rewrite H0. unfold setCurrentSlide. cbn.
    replace (currentSlide st - 1 + 1) with (currentSlide st) by lia.
    now destruct st.
  - intros H. unfold prevSlide. rewrite H. reflexivity.
Qed.

Lemma next_prev_round_trip_witness :
  prevSlide (nextSlide initialState) = initialState
  /\ prevSlide initialState = initialState.
Proof.
  assert (H : 0 <= currentSlide initialState <= slidesLength - 1)
    by (split; discriminate).
  destruct (next_prev_round_trip initialState H) as (H1 & _ & _ & H4 & _).
  split; [apply H1; reflexivity | apply H4; reflexivity].
Defined.

(** X18. Stepping forward [n] times from slide [c] reaches slide [c + n]
    or stops at the last slide, and stepping back [n] times reaches
    [c - n] or stops at the first. *)
Theorem repeated_steps_saturate (st : AppState) (n : nat) :
  0 <= currentSlide st <= slidesLength - 1 ->
  currentSlide (Nat.iter n nextSlide st)
  = Z.min (currentSlide st + Z.of_nat n) (slidesLength - 1) /\
  currentSlide (Nat.iter n prevSlide st)
  = Z.max (currentSlide st - Z.of_nat n) 0.
Proof.
  intros Hrange. unfold slidesLength in *. induction n as [|n [IH1 IH2]].
  - simpl. lia.
  - rewrite Nat2Z.inj_succ, !Nat.iter_succ. split.
    + destruct (nextSlide_fields (Nat.iter n nextSlide st))
        as (_ & _ & _ & _ & ->).
      rewrite IH1. unfold slidesLength.
      destruct (Z.min (currentSlide st + Z.of_nat n) (7 - 1) <? 7 - 1) eqn:E.
      * apply Z.ltb_lt in E. lia.
      * apply Z.ltb_ge in E. lia.
    + destruct (prevSlide_fields (Nat.iter n prevSlide st))
        as (_ & _ & _ & _ & ->).
      rewrite IH2.
      destruct (0 <? Z.max (currentSlide st - Z.of_nat n) 0) eqn:E.
      * apply Z.ltb_lt in E. lia.
      * apply Z.ltb_ge in E. lia.
Qed.

Lemma repeated_steps_saturate_witness :
  currentSlide (Nat.iter 9 nextSlide initialState) = 6
  /\ currentSlide (Nat.iter 9 prevSlide initialState) = 0.
Proof.
  assert (H : 0 <= currentSlide initialState <= slidesLength - 1)
    by (split; discriminate).
  destruct (repeated_steps_saturate initialState 9 H) as [H1 H2].
  split; [rewrite H1 | rewrite H2]; reflexivity.
Defined.

Section Reachable.
Variable newDate : string -> JsDate.
Variable parseFloat : option string -> option Q.

(** What holds of every state the component can be in. *)
Let invariant (st : AppState) : Prop :=
  0 <= currentSlide st <= slidesLength - 1 /\
  0 <= tbrCount st /\
  Forall (fun b => shelf b = Some "read" /\ dated2025 (dateRead b)
                   /\ exists n, rating b = inject_Z n)
         (readData st).

Lemma invariant_initial : invariant initialState.
Proof.
  unfold invariant, slidesLength. simpl.
  repeat split; try lia; try discriminate. constructor.
Qed.

Lemma upload_read_list (rows : list RawRow) :
  Forall (fun b => shelf b = Some "read" /\ dated2025 (dateRead b)
                   /\ exists n, rating b = inject_Z n)
         (readIn2025 (allBooks newDate parseFloat goodreads rows)).
Proof.
  apply Forall_forall. intros b Hb.
  split; [|split].
  - unfold readIn2025 in Hb. apply in_map_iff in Hb.
    destruct Hb as (b0 & <- & Hin). apply filter_In in Hin.
    destruct Hin as [_ Hf]. apply readFilter_shelf in Hf.
    destruct (backfill_same b0) as (_ & _ & _ & _ & _ & Hs). congruence.
  - now apply readIn2025_dated with (allBooks newDate parseFloat goodreads rows).
  - unfold readIn2025 in Hb. apply in_map_iff in Hb.
    destruct Hb as (b0 & <- & Hin). apply filter_In in Hin.
    destruct Hin as [Hin _]. unfold allBooks in Hin.
    apply in_map_iff in Hin. destruct Hin as (row & <- & _).
    destruct (backfill_same (parseRow newDate parseFloat goodreads row))
      as (_ & _ & _ & -> & _).
    now exists (Js.or_zero (Js.parseInt (row "My Rating"))).
Qed.

Ltac keep_invariant :=
  repeat split; first [tauto | lia | intros; congruence].

Lemma invariant_next (st : AppState) :
  invariant st -> invariant (nextSlide st).
Proof.
  intros (Hslide & Htbr & Hread). unfold invariant.
  destruct (nextSlide_fields st) as (-> & -> & _ & _ & ->).
  unfold slidesLength in *.
  destruct (currentSlide st <? 7 - 1) eqn:E.
  - apply Z.ltb_lt in E. keep_invariant.
  - keep_invariant.
Qed.

Lemma invariant_prev (st : AppState) :
  invariant st -> invariant (prevSlide st).
Proof.
  intros (Hslide & Htbr & Hread). unfold invariant.
  destruct (prevSlide_fields st) as (-> & -> & _ & _ & ->).
  destruct (0 <? currentSlide st) eqn:E.
  - apply Z.ltb_lt in E. keep_invariant.
  - keep_invariant.
Qed.

Lemma invariant_step (s : Session) (e : Event) :
  invariant (appState s) ->
  invariant (appState (step newDate parseFloat s e)).
Proof.
  intros Hinv. destruct e as [name | files | i | key | | | ]; unfold step.
  - destruct (view (appState s)); [|exact Hinv]. exact Hinv.
  - destruct (view (appState s)); [|exact Hinv].
    destruct (negb (Js.truthy (Some (Js.trim (username (appState s))))));
      [exact Hinv|].
    destruct files; exact Hinv.
  - assert (H : invariant
                  (appState
                     match nth_error (decoding s) i with
                     | Some rows =>
                         {| appState :=
                              processCSV newDate parseFloat rows goodreads
                                (appState s);
                            decoding := without i (decoding s) |}
                     | None => s
                     end)).
    { destruct (nth_error (decoding s) i) as [rows|]; [|exact Hinv].
      unfold invariant, processCSV, slidesLength. cbn.
      split; [lia|]. split; [lia | apply upload_read_list]. }
    destruct (view (appState s)); exact H.
  - cbn [appState]. unfold handleKeyDown.
    set (st1 := if String.eqb key "ArrowRight"
                then nextSlide (appState s) else appState s).
    assert (H1 : invariant st1).
    { subst st1. destruct (String.eqb key "ArrowRight"); [|exact Hinv].
      now apply invariant_next. }
    assert (H2 : invariant
                   (if String.eqb key "ArrowLeft" then prevSlide st1 else st1)).
    { destruct (String.eqb key "ArrowLeft"); [|exact H1].
      now apply invariant_prev. }
    destruct (view (appState s)); exact H2.
  - destruct (view (appState s)); [exact Hinv | now apply invariant_prev].
  - destruct (view (appState s)); [exact Hinv | now apply invariant_next].
  - destruct (view (appState s)); [exact Hinv|].
    destruct Hinv as (Hslide & Htbr & Hread).
    unfold invariant. cbn. repeat split; try tauto. constructor.
Qed.

Lemma invariant_steps (events : list Event) (s : Session) :
  invariant (appState s) ->
  invariant (appState (fold_left (step newDate parseFloat) events s)).
Proof.
  revert s. induction events as [|e events IH]; intros s H.
  - exact H.
  - cbn [fold_left]. apply IH. now apply invariant_step.
Qed.

Lemma invariant_run (events : list Event) (st : AppState) :
  invariant st -> invariant (run newDate parseFloat events st).
Proof. intros H. unfold run. now apply invariant_steps. Qed.

(** X19. Whatever the user does (typing a name, choosing files, pressing
    keys, tapping, closing the story) and whenever the decoder finishes a
    file, starting from the freshly mounted component, the slide index
    stays between 0 and 6, so the story always has a slide to show, and
    the backlog count stays at least 0. *)
Theorem slide_index_always_valid (events : list Event) :
  let st := run newDate parseFloat events initialState in
  0 <= currentSlide st < slidesLength /\ 0 <= tbrCount st.
Proof.
  intros st.
  destruct (invariant_run events initialState invariant_initial)
    as (H1 & H3 & _).
  fold st in H1, H3. unfold slidesLength in *. lia.
Qed.

(** X20. The name is tested when the file is chosen, not when the story
    opens.  With a blank name the file is not taken and the upload view
    stays.  With any other name the file is decoded, and the story opens
    under the name that the field holds when the decoder is done: if the
    name was emptied in the meantime, the story opens without a name and
    the intro slide greets "Bookworm". *)
Theorem name_tested_when_file_chosen
    (name later : string) (rows : list RawRow) :
  let st := run newDate parseFloat
              [TypeName name; ChooseFile (Some rows); TypeName later;
               FileDecoded 0] initialState in
  (blank name = true -> st = setUsername later initialState) /\
  (blank name = false ->
   view st = story /\ username st = later /\
   readData st = readIn2025 (allBooks newDate parseFloat goodreads rows) /\
   greetingName st = if String.eqb later "" then "Bookworm" else later).
Proof.
  intros st. subst st. unfold run. cbn [fold_left].
  set (s1 := {| appState := setUsername name initialState; decoding := [] |}).
  change (step newDate parseFloat
            {| appState := initialState; decoding := [] |} (TypeName name))
    with s1.
  change (step newDate parseFloat s1 (ChooseFile (Some rows)))
    with (if negb (Js.truthy (Some (Js.trim name))) then s1
          else {| appState := setUsername name initialState;
                  decoding := [rows] |}).
  split.
  - intros Hb. apply trim_blank in Hb. rewrite Hb. reflexivity.
  - intros Hb.
    assert (Hne : String.eqb (Js.trim name) "" = false).
    { apply String.eqb_neq. intros E. apply trim_blank in E. congruence. }
    unfold Js.truthy. rewrite Hne. cbn [negb].
    split; [reflexivity|]. split; [reflexivity|]. split; [reflexivity|].
    unfold greetingName, Js.truthy. cbn.
    now destruct (String.eqb later "").
Qed.

(** X21. In every state the component can reach, each book of the read
    list is on the read shelf, has a valid read date in 2025 and an
    integer rating (only the Goodreads upload is wired to the form); each
    top book has a rating of at least 1 and is drawn with exactly that
    many stars when the rating is below 2^32, and drawing it throws
    otherwise. *)
Theorem reachable_read_list (events : list Event) :
  let st := run newDate parseFloat events initialState in
  (forall b, In b (readData st) ->
     shelf b = Some "read" /\ dated2025 (dateRead b)) /\
  (forall b, In b (topBooks st) ->
     exists n, rating b = inject_Z n /\ 1 <= n /\
               stars b = if n <? 2 ^ 32 then Some (Z.to_nat n) else None).
Proof.
  intros st.
  destruct (invariant_run events initialState invariant_initial)
    as (_ & _ & H4).
  fold st in H4. rewrite Forall_forall in H4. split.
  - intros b Hb. destruct (H4 b Hb) as (H & H' & _). now split.
  - intros b Hb. unfold topBooks, Js.slice0 in Hb.
    apply firstn_incl in Hb.
    apply (Permutation_in _ (sort_perm compareBooks _)) in Hb.
    apply filter_In in Hb. destruct Hb as [Hin Hpos].
    apply Qlt_bool_iff in Hpos.
    destruct (H4 b Hin) as (_ & _ & n & Hn).
    exists n. split; [exact Hn|]. unfold stars. rewrite Hn in *.
    rewrite Qfloor_Z.
    assert (H1 : 1 <= n) by (unfold Qlt in Hpos; simpl in Hpos; lia).
    split; [exact H1|]. now rewrite Z.max_r by lia.
Qed.
End Reachable.

Lemma name_tested_when_file_chosen_witness :
  greetingName
    (run marchDate noFloat
       [TypeName "Ana"; ChooseFile (Some [undatedRow]); TypeName "";
        FileDecoded 0] initialState)
  = "Bookworm".
Proof.
  destruct (name_tested_when_file_chosen marchDate noFloat "Ana" ""
              [undatedRow]) as [_ H].
  destruct (H eq_refl) as (_ & _ & _ & Hg). exact Hg.
Defined.

(** ** The progress bars *)

Lemma StoryProgress_succ (total : nat) (current : Z) :
  StoryProgress (S total) current
  = (StoryProgress total current ++ [Z.of_nat total <=? current])%list.
Proof.
  unfold StoryProgress. now rewrite seq_S, map_app.
Qed.

Lemma StoryProgress_length (total : nat) (current : Z) :
  List.length (StoryProgress total current) = total.
Proof. unfold StoryProgress. now rewrite length_map, length_seq. Qed.

(** X22. The progress strip has one bar per slide; the bar of a slide is
    filled exactly when that slide is the current one or comes before it,
    so the filled bars are the first [current + 1] ones (all of them when
    [current] is past the end, none when it is negative). *)
Theorem StoryProgress_filled (total : nat) (current : Z) :
  List.length (StoryProgress total current) = total /\
  (forall idx, (idx < total)%nat ->
     nth idx (StoryProgress total current) false
     = (Z.of_nat idx <=? current)) /\
  List.length (filter (fun filled => filled) (StoryProgress total current))
  = Nat.min total (Z.to_nat (current + 1)).
Proof.
  split; [apply StoryProgress_length|]. split.
  - induction total as [|n IH]; intros idx Hidx; [lia|].
    rewrite StoryProgress_succ.
    destruct (Nat.eq_dec idx n) as [-> | Hne].
    + rewrite app_nth2; rewrite StoryProgress_length; [|lia].
      now rewrite Nat.sub_diag.
    + rewrite app_nth1; [|rewrite StoryProgress_length; lia].
      apply IH. lia.
  - induction total as [|n IH]; [reflexivity|].
    rewrite StoryProgress_succ, filter_app, length_app, IH.
    cbn [filter]. destruct (Z.of_nat n <=? current) eqn:E; cbn [List.length].
    + apply Z.leb_le in E. lia.
    + apply Z.leb_gt in E. lia.
Qed.

(** ** The printed average rating *)

Lemma digit_text (d : Z) :
  0 <= d <= 9 ->
  exists c, Js.string_of_Z d = String c "" /\ is_decimal_digit c = true.
Proof.
  intros H.
  assert (Hd : d = 0 \/ d = 1 \/ d = 2 \/ d = 3 \/ d = 4 \/ d = 5 \/ d = 6
               \/ d = 7 \/ d = 8 \/ d = 9) by lia.
  repeat (destruct Hd as [-> | Hd]; [eexists; split; reflexivity|]).
  subst d. eexists; split; reflexivity.
Qed.

(** X23. When the ratings of a non-empty read list are integers from 0
    to 5, the printed average has exactly three characters: a digit from
    0 to 5, a point and one decimal digit; its value is within one
    twentieth of [avgRatingVal]. *)
Theorem avgRating_three_characters (st : AppState) :
  readData st <> [] ->
  Forall (fun b => exists n, rating b = inject_Z n /\ 0 <= n <= 5)
         (readData st) ->
  totalBooks st * 5 < 2 ^ 53 ->
  exists whole tenth,
    avgRating st = String whole (String "." (String tenth "")) /\
    is_decimal_digit whole = true /\ is_decimal_digit tenth = true /\
    exists n,
      0 <= n <= 50 /\
      Js.string_of_Z (n / 10) = String whole "" /\
      Js.string_of_Z (n mod 10) = String tenth "" /\
      (inject_Z n - (1 # 2) <= avgRatingVal st * 10)%Q /\
      (avgRatingVal st * 10 < inject_Z n + (1 # 2))%Q.
Proof.
  intros Hne Hall Hsize.
  destruct (avgRatingVal_integers st 0 5 Hne Hall Hsize) as (Hd & Hlo & Hhi).
  assert (Hfix : Js.double (avgRatingVal st) = avgRatingVal st)
    by (rewrite Hd; apply double_idempotent).
  unfold avgRating, Js.toFixed1. rewrite Hfix. clear Hd Hfix.
  set (x := avgRatingVal st) in *. cbv zeta.
  change (inject_Z 0) with 0%Q in Hlo. change (inject_Z 5) with 5%Q in Hhi.
  assert (Hsign : Qle_bool 0 x = true) by now apply Qle_bool_iff.
  rewrite Hsign. cbn [negb].
  assert (Habs : Qabs x == x) by now apply Qabs_pos.
  set (n := Qfloor (Qabs x * 10 + (1 # 2))).
  assert (Hfloor : (inject_Z n <= x * 10 + (1 # 2))%Q
                   /\ (x * 10 + (1 # 2) < inject_Z (n + 1))%Q).
  { subst n. rewrite Habs. split; [apply Qfloor_le | apply Qlt_floor]. }
  destruct Hfloor as [Hf1 Hf2].
  rewrite inject_Z_plus in Hf2. change (inject_Z 1) with 1%Q in Hf2.
  assert (Hn : 0 <= n <= 50).
  { split.
    - assert (H : (inject_Z (-1) < inject_Z n)%Q).
      { change (inject_Z (-1)) with (-1)%Q.
        generalize dependent (inject_Z n). intros q. intros. lra. }
      rewrite <- Zlt_Qlt in H. lia.
    - assert (H : (inject_Z n < inject_Z 51)%Q).
      { change (inject_Z 51) with 51%Q.
        generalize dependent (inject_Z n). intros q. intros. lra. }
      rewrite <- Zlt_Qlt in H. lia. }
  destruct (digit_text (n / 10)) as (whole & Hw & Hwd).
  { split; [apply Z.div_pos; lia|].
    assert (n / 10 < 10) by (apply Z.div_lt_upper_bound; lia). lia. }
  destruct (digit_text (n mod 10)) as (tenth & Ht & Htd).
  { pose proof (Z.mod_pos_bound n 10). lia. }
  exists whole, tenth. rewrite Hw, Ht.
  split; [reflexivity|]. split; [exact Hwd|]. split; [exact Htd|].
  exists n. split; [exact Hn|]. split; [exact Hw|]. split; [exact Ht|].
  generalize dependent (inject_Z n). intros q. intros. split; lra.
Qed.

Lemma avgRating_three_characters_witness :
  avgRating (state_of [firstThick; secondThick] 0) = "3.5".
Proof.
  destruct (avgRating_three_characters (state_of [firstThick; secondThick] 0))
    as (whole & tenth & H & _).
  - discriminate.
  - repeat constructor; [exists 4 | exists 3]; split; (reflexivity || lia).
  - reflexivity.
  - rewrite H. vm_compute in H. now injection H as <- <-.
Defined.

(** ** The busiest month without dates *)

Lemma tally_NaN (n : nat) (c : Z) :
  tally (repeat "NaN" n) [("NaN", c)] = [("NaN", c + Z.of_nat n)].
Proof.
  revert c. induction n as [|n IH]; intros c.
  - simpl. now rewrite Z.add_0_r.
  - cbn [repeat]. unfold tally in *. cbn [fold_left].
    change (increment "NaN" [("NaN", c)]) with [("NaN", c + 1)].
    rewrite IH. f_equal. f_equal. lia.
Qed.

Lemma monthKeys_undated (l : list BookData) :
  Forall (fun b => dateRead b = None) l -> monthKeys l = [].
Proof.
  induction 1 as [|b l Hb _ IH]; [reflexivity|].
  unfold monthKeys in *. simpl. now rewrite Hb.
Qed.

Lemma monthKeys_invalid (l : list BookData) :
  Forall (fun b => dateRead b = Some InvalidDate) l ->
  monthKeys l = repeat "NaN" (List.length l).
Proof.
  induction 1 as [|b l Hb _ IH]; [reflexivity|].
  unfold monthKeys in *. cbn [flat_map List.length repeat].
  rewrite Hb, IH. reflexivity.
Qed.

(** X24. [getMostActiveMonth] on a read list whose books carry no read
    date answers "-", like on an empty list; on a non-empty list whose
    read dates are all invalid it counts the books under the key "NaN"
    and answers "undefined" with their number.  (The upload filter lets
    neither kind of record into the read list.) *)
Theorem peakMonth_without_valid_dates (st : AppState) :
  (Forall (fun b => dateRead b = None) (readData st) -> peakMonth st = "-") /\
  (readData st <> [] ->
   Forall (fun b => dateRead b = Some InvalidDate) (readData st) ->
   peakMonth st
   = ("undefined (" ++ Js.string_of_Z (totalBooks st) ++ " BUKU)")%string).
Proof.
  unfold peakMonth, getMostActiveMonth, totalBooks. split.
  - intros Hall.
    rewrite countMonths_tally, (monthKeys_undated _ Hall).
    destruct (Z.of_nat (List.length (readData st)) =? 0); reflexivity.
  - intros Hne Hall.
    rewrite countMonths_tally, (monthKeys_invalid _ Hall).
    destruct (readData st) as [|b l]; [congruence|].
    assert (H0 : (Z.of_nat (List.length (b :: l)) =? 0) = false).
    { apply Z.eqb_neq. simpl. lia. }
    rewrite H0. cbn [List.length repeat]. unfold tally. cbn [fold_left].
    change (increment "NaN" []) with [("NaN", 1)].
    fold (tally (repeat "NaN" (List.length l)) [("NaN", 1)]).
    rewrite tally_NaN. unfold scanMonths, Js.Object_entries.
    cbn [fold_left scanStep snd].
    assert (H1 : (-1 <? 1 + Z.of_nat (List.length l)) = true)
      by (apply Z.ltb_lt; lia).
    rewrite H1. cbn [Js.parseInt]. 
    change (Js.parseInt_string "NaN") with (@None Z).
    cbn [num_eqb monthName]. rewrite Nat2Z.inj_succ.
    replace (Z.succ (Z.of_nat (List.length l)))
      with (1 + Z.of_nat (List.length l)) by lia.
    reflexivity.
Qed.

Lemma peakMonth_without_valid_dates_witness :
  peakMonth (state_of [firstThick; secondThick] 0) = "-".
Proof.
  destruct (peakMonth_without_valid_dates
              (state_of [firstThick; secondThick] 0)) as [H _].
  apply H. repeat constructor.
Defined.
